(** * go-pos: order, category and payment flows

    A shallow embedding of the service layer of the point-of-sale backend
    (OrderService.CreateOrder, GetOrder and ListOrders; CategoryService
    CreateCategory, GetCategory, ListCategories, UpdateCategory and
    DeleteCategory) and of the pagination arithmetic of
    PaymentRepository.ListPayments.

    The services talk to their collaborators only through the port
    interfaces; here every port is a type class over an arbitrary world
    type [W], a service method is a function in a small monad that threads
    the world and records every port call together with its reply, and the
    properties are statements about the value returned, the final world
    and the recorded calls. *)

From Stdlib Require Import ZArith List String Floats Uint63 Lia.
From stdpp Require Import base option list gmap strings pretty.

Local Open Scope Z_scope.

(** ** Errors and results *)

Module domain.

(** The sentinel errors of the domain package, plus [ErrForeign] for any
    other error value an adapter may hand back (a driver error, a cache
    miss, ...).  Go compares errors with [==]; [error_eq_dec] below is
    that comparison. *)
Inductive error : Type :=
| ErrInternal
| ErrDataNotFound
| ErrConflictingData
| ErrInsufficientStock
| ErrInsufficientPayment
| ErrNoUpdatedData
| ErrForeign (msg : string).

#[global] Instance error_eq_dec : EqDecision error.
Proof. solve_decision. Defined.

(** A Go pair [(value, err)]: [Err e] when [err != nil]. *)
Inductive result (A : Type) : Type :=
| Ok (a : A)
| Err (e : error).
Arguments Ok {A} a.
Arguments Err {A} e.

Definition is_ok {A} (r : result A) : bool :=
  match r with Ok _ => true | Err _ => false end.

(** A Go [error] return value: [None] is [nil]. *)
Definition failed (r : option error) : bool :=
  match r with None => false | Some _ => true end.

(** Modelled from the spec: the entity declarations of the domain
    package, which is not among the sources.  The services fix most of
    the types by use: identifiers are uint64 (they are passed to the
    by-id reads), prices and totals are float64 (the running total is
    declared float64 and the quantity is converted before the product),
    stock and quantity share an integer type, taken to be int64.  Only
    the fields the services touch are kept, and a nil pointer to a joined
    entity is [None]. *)
Module Category.
Record t : Type := Build { ID : Z; Name : string }.
End Category.

Module Product.
Record t : Type := Build {
  ID : Z;
  CategoryID : Z;
  Name : string;
  Stock : Z;
  Price : float;
  Category : option Category.t
}.
Definition set_Category (c : option Category.t) (p : t) : t :=
  Build (ID p) (CategoryID p) (Name p) (Stock p) (Price p) c.
End Product.

Module User.
Record t : Type := Build { ID : Z; Name : string; Email : string }.
End User.

Module Payment.
Record t : Type := Build { ID : Z; Name : string; Type_ : string; Logo : string }.
End Payment.

Module OrderProduct.
Record t : Type := Build {
  ProductID : Z;
  Quantity : Z;
  TotalPrice : float;
  Product : option Product.t
}.
Definition set_TotalPrice (x : float) (op : t) : t :=
  Build (ProductID op) (Quantity op) x (Product op).
Definition set_Product (p : option Product.t) (op : t) : t :=
  Build (ProductID op) (Quantity op) (TotalPrice op) p.
End OrderProduct.

Module Order.
Record t : Type := Build {
  ID : Z;
  UserID : Z;
  PaymentID : Z;
  CustomerName : string;
  TotalPrice : float;
  TotalPaid : float;
  TotalReturn : float;
  User : option User.t;
  Payment : option Payment.t;
  Products : list OrderProduct.t
}.
Definition set_ID (x : Z) (o : t) : t :=
  Build x (UserID o) (PaymentID o) (CustomerName o) (TotalPrice o)
        (TotalPaid o) (TotalReturn o) (User o) (Payment o) (Products o).
Definition set_TotalPrice (x : float) (o : t) : t :=
  Build (ID o) (UserID o) (PaymentID o) (CustomerName o) x
        (TotalPaid o) (TotalReturn o) (User o) (Payment o) (Products o).
Definition set_TotalReturn (x : float) (o : t) : t :=
  Build (ID o) (UserID o) (PaymentID o) (CustomerName o) (TotalPrice o)
        (TotalPaid o) x (User o) (Payment o) (Products o).
Definition set_User (x : option User.t) (o : t) : t :=
  Build (ID o) (UserID o) (PaymentID o) (CustomerName o) (TotalPrice o)
        (TotalPaid o) (TotalReturn o) x (Payment o) (Products o).
Definition set_Payment (x : option Payment.t) (o : t) : t :=
  Build (ID o) (UserID o) (PaymentID o) (CustomerName o) (TotalPrice o)
        (TotalPaid o) (TotalReturn o) (User o) x (Products o).
Definition set_Products (x : list OrderProduct.t) (o : t) : t :=
  Build (ID o) (UserID o) (PaymentID o) (CustomerName o) (TotalPrice o)
        (TotalPaid o) (TotalReturn o) (User o) (Payment o) x.
End Order.

End domain.
Import domain.

(** ** Machine arithmetic *)

(** [float64(q)] for a signed 64-bit [q]: round to nearest, ties to even.
    The primitive conversion takes an unsigned 63-bit integer, so the sign
    is split off; the one magnitude that does not fit, 2^63, is exact. *)
Definition float64_of_int64 (q : Z) : float :=
  if q =? - 2 ^ 63 then PrimFloat.opp 0x1p+63%float
  else if q <? 0 then PrimFloat.opp (PrimFloat.of_uint63 (Uint63.of_Z (- q)))
  else PrimFloat.of_uint63 (Uint63.of_Z q).

(** Unsigned 64-bit subtraction and multiplication, wrap-around written out. *)
Definition u64 : Z := 2 ^ 64.
Definition u64_sub (a b : Z) : Z := (a - b) mod u64.
Definition u64_mul (a b : Z) : Z := (a * b) mod u64.

(** ** util *)

Module util.

(** Modelled from the spec: GenerateCacheKey of the util package (not
    among the sources), the key scheme "<entity>:<id>". *)
Definition GenerateCacheKey (prefix : string) (id : Z) : string :=
  (prefix +:+ ":" +:+ pretty id)%string.

(** Serialize / Deserialize of the util package, kept abstract: a codec
    between domain values and whatever the cache stores.  Either
    direction may fail. *)
Class Codec (bytes : Type) : Type := {
  SerializeOrder : Order.t -> result bytes;
  DeserializeOrder : bytes -> result Order.t;
  SerializeCategory : Category.t -> result bytes
}.

End util.
Import util.

(** ** Ports *)

Module port.

(** Each repository and the cache are Go interfaces; an implementation
    is any family of functions over a world [W].  A method takes its
    arguments and the current world and gives back its reply and the
    next world.  ProductRepository lists the five methods of the
    interface; the other interfaces list the methods the services
    embedded below call.  [Set] is a reserved word, so the four cache
    methods carry the prefix Cache. *)
Class ProductRepository (W : Type) : Type := {
  CreateProduct : Product.t -> W -> result Product.t * W;
  GetProductByID : Z -> W -> result Product.t * W;
  ListProducts : string -> Z -> Z -> Z -> W -> result (list Product.t) * W;
  UpdateProduct : Product.t -> W -> result Product.t * W;
  DeleteProduct : Z -> W -> option error * W
}.

Class OrderRepository (W : Type) : Type := {
  CreateOrder : Order.t -> W -> result Order.t * W;
  GetOrderByID : Z -> W -> result Order.t * W
}.

Class CategoryRepository (W : Type) : Type := {
  GetCategoryByID : Z -> W -> result Category.t * W;
  UpdateCategory : Category.t -> W -> result Category.t * W
}.

Class UserRepository (W : Type) : Type := {
  GetUserByID : Z -> W -> result User.t * W
}.

Class PaymentRepository (W : Type) : Type := {
  GetPaymentByID : Z -> W -> result Payment.t * W
}.

Class CacheRepository (W bytes : Type) : Type := {
  CacheSet : string -> bytes -> Z -> W -> option error * W;
  CacheGet : string -> W -> result bytes * W;
  CacheDelete : string -> W -> option error * W;
  CacheDeleteByPrefix : string -> W -> option error * W
}.

(** One recorded port call: the method, its arguments and its reply. *)
Inductive event (bytes : Type) : Type :=
| Call_CreateProduct (p : Product.t) (r : result Product.t)
| Call_GetProductByID (id : Z) (r : result Product.t)
| Call_ListProducts (search : string) (categoryId skip limit : Z)
                    (r : result (list Product.t))
| Call_UpdateProduct (p : Product.t) (r : result Product.t)
| Call_DeleteProduct (id : Z) (r : option error)
| Call_CreateOrder (o : Order.t) (r : result Order.t)
| Call_GetOrderByID (id : Z) (r : result Order.t)
| Call_GetCategoryByID (id : Z) (r : result Category.t)
| Call_UpdateCategory (c : Category.t) (r : result Category.t)
| Call_GetUserByID (id : Z) (r : result User.t)
| Call_GetPaymentByID (id : Z) (r : result Payment.t)
| Call_CacheSet (key : string) (value : bytes) (ttl : Z) (r : option error)
| Call_CacheGet (key : string) (r : result bytes)
| Call_CacheDelete (key : string) (r : option error)
| Call_CacheDeleteByPrefix (pattern : string) (r : option error).

Arguments Call_CreateProduct {bytes}.
Arguments Call_GetProductByID {bytes}.
Arguments Call_ListProducts {bytes}.
Arguments Call_UpdateProduct {bytes}.
Arguments Call_DeleteProduct {bytes}.
Arguments Call_CreateOrder {bytes}.
Arguments Call_GetOrderByID {bytes}.
Arguments Call_GetCategoryByID {bytes}.
Arguments Call_UpdateCategory {bytes}.
Arguments Call_GetUserByID {bytes}.
Arguments Call_GetPaymentByID {bytes}.
Arguments Call_CacheSet {bytes}.
Arguments Call_CacheGet {bytes}.
Arguments Call_CacheDelete {bytes}.
Arguments Call_CacheDeleteByPrefix {bytes}.

(** The calls that write to the product repository. *)
Definition is_product_write {bytes} (e : event bytes) : bool :=
  match e with
  | Call_CreateProduct _ _ | Call_UpdateProduct _ _ | Call_DeleteProduct _ _ => true
  | _ => false
  end.

(** The calls to the order repository. *)
Definition is_order_call {bytes} (e : event bytes) : bool :=
  match e with
  | Call_CreateOrder _ _ | Call_GetOrderByID _ _ => true
  | _ => false
  end.

(** The calls to a repository of any entity (reads and writes). *)
Definition is_repo_call {bytes} (e : event bytes) : bool :=
  match e with
  | Call_CacheSet _ _ _ _ | Call_CacheGet _ _
  | Call_CacheDelete _ _ | Call_CacheDeleteByPrefix _ _ => false
  | _ => true
  end.

(** The calls that write or invalidate a cache entry. *)
Definition is_cache_write {bytes} (e : event bytes) : bool :=
  match e with
  | Call_CacheSet _ _ _ _ | Call_CacheDelete _ _ | Call_CacheDeleteByPrefix _ _ => true
  | _ => false
  end.

(** The calls that can change the store or the cache: every repository
    write and every cache write. *)
Definition is_mutation {bytes} (e : event bytes) : bool :=
  match e with
  | Call_CreateProduct _ _ | Call_UpdateProduct _ _ | Call_DeleteProduct _ _
  | Call_CreateOrder _ _ | Call_UpdateCategory _ _
  | Call_CacheSet _ _ _ _ | Call_CacheDelete _ _ | Call_CacheDeleteByPrefix _ _ => true
  | _ => false
  end.

(** The four reads by id of the enrichment pass. *)
Definition is_lookup {bytes} (e : event bytes) : bool :=
  match e with
  | Call_GetProductByID _ _ | Call_GetCategoryByID _ _
  | Call_GetUserByID _ _ | Call_GetPaymentByID _ _ => true
  | _ => false
  end.

(** A call whose reply is an error. *)
Definition call_failed {bytes} (e : event bytes) : bool :=
  match e with
  | Call_CreateProduct _ r | Call_GetProductByID _ r | Call_UpdateProduct _ r
  | Call_CreateOrder _ r | Call_GetOrderByID _ r => negb (is_ok r)
  | Call_ListProducts _ _ _ _ r => negb (is_ok r)
  | Call_GetCategoryByID _ r | Call_UpdateCategory _ r => negb (is_ok r)
  | Call_GetUserByID _ r => negb (is_ok r)
  | Call_GetPaymentByID _ r => negb (is_ok r)
  | Call_CacheGet _ r => negb (is_ok r)
  | Call_CacheSet _ _ _ r => failed r
  | Call_DeleteProduct _ r | Call_CacheDelete _ r | Call_CacheDeleteByPrefix _ r => failed r
  end.

(** The calls CreateOrder can make at all: reads by id, the order
    write, the prefix deletion and the cache write. *)
Definition CreateOrder_call {bytes} (e : event bytes) : Prop :=
  is_lookup e = true
  \/ (exists o r, e = Call_CreateOrder o r)
  \/ (exists r, e = Call_CacheDeleteByPrefix "orders:*" r)
  \/ (exists k v r, e = Call_CacheSet k v 0 r).

End port.
Import port.

(** ** The monad of a service method *)

Section Monad.
Context {W bytes : Type}.

(** What a computation leaves behind: the value it returns, the world it
    ends in and the port calls it made, oldest first. *)
Record run (A : Type) : Type := Run {
  value : A;
  final : W;
  calls : list (event bytes)
}.
Arguments Run {A}.
Arguments value {A}.
Arguments final {A}.
Arguments calls {A}.

Definition M (A : Type) : Type := W -> run A.

Definition ret {A} (a : A) : M A := fun w => Run a w [].

Definition bind {A B} (m : M A) (k : A -> M B) : M B :=
  fun w =>
    let r1 := m w in
    let r2 := k (value r1) (final r1) in
    Run (value r2) (final r2) (calls r1 ++ calls r2).

(** Invoke a port method and record the call with its reply. *)
Definition invoke {A} (f : W -> A * W) (ev : A -> event bytes) : M A :=
  fun w => let r := f w in Run r.1 r.2 [ev r.1].

(** A port method [f] leaves the observation [obs] of the world as it
    was; a computation does. *)
Definition keeps {A X} (obs : W -> X) (f : W -> A * W) : Prop :=
  forall w : W, obs (f w).2 = obs w.

Definition keeps_m {A X} (obs : W -> X) (m : M A) : Prop :=
  forall w : W, obs (final (m w)) = obs w.

(** Every call a computation makes satisfies [P]. *)
Definition all_calls {A} (P : event bytes -> Prop) (m : M A) : Prop :=
  forall w : W, Forall P (calls (m w)).

End Monad.

Arguments run W bytes A : clear implicits.
Arguments M W bytes A : clear implicits.
Arguments Run {W bytes A}.
Arguments value {W bytes A}.
Arguments final {W bytes A}.
Arguments calls {W bytes A}.
Arguments keeps {W A X} obs f.

Notation "'let*' x ':=' c1 'in' c2" := (bind c1 (fun x => c2))
  (at level 10, x pattern, c1 at level 100, c2 at level 200).

(** ** The services *)

Module service.
Section Services.
Context {W bytes : Type}.
Context `{!ProductRepository W, !OrderRepository W, !CategoryRepository W,
          !UserRepository W, !PaymentRepository W,
          !CacheRepository W bytes, !Codec bytes}.

Local Abbreviation M := (M W bytes).
Local Open Scope float_scope.

(** The error branch repeated after every repository read:
    [if err == domain.ErrDataNotFound { return nil, err }
     return nil, domain.ErrInternal]. *)
Definition not_found_or_internal (err : error) : error :=
  if decide (err = ErrDataNotFound) then err else ErrInternal.

(** [order.Products[i].TotalPrice] read back from the order. *)
Definition line_total (order : Order.t) (i : nat) : float :=
  match Order.Products order !! i with
  | Some op => OrderProduct.TotalPrice op
  | None => 0
  end.

(** The first loop of CreateOrder, from line item [i] on.  [items] is the
    rest of the slice being ranged over, [order] is the object behind
    the caller's pointer, written in place, and [totalPrice] the running
    total.  The result pairs the object as the loop leaves it with
    either the total or the error of the early return. *)
Fixpoint validate (i : nat) (items : list OrderProduct.t) (order : Order.t)
         (totalPrice : float) : M (Order.t * result float) :=
  match items with
  | [] => ret (order, Ok totalPrice)
  | orderProduct :: rest =>
      let* r := invoke (GetProductByID (OrderProduct.ProductID orderProduct))
                       (Call_GetProductByID (OrderProduct.ProductID orderProduct)) in
      match r with
      | Err err => ret (order, Err (not_found_or_internal err))
      | Ok product =>
          if (Product.Stock product <? OrderProduct.Quantity orderProduct)%Z
          then ret (order, Err ErrInsufficientStock)
          else
            let order :=
              Order.set_Products
                (alter (OrderProduct.set_TotalPrice
                          (Product.Price product
                           * float64_of_int64 (OrderProduct.Quantity orderProduct)))
                       i (Order.Products order))
                order in
            let totalPrice := totalPrice + line_total order i in
            validate (S i) rest order totalPrice
      end
  end.

(** The second loop (it appears verbatim in CreateOrder and in GetOrder):
    fetch each line's product and the product's category and attach
    them to the line. *)
Fixpoint enrich_products (i : nat) (items : list OrderProduct.t) (order : Order.t)
  : M (result Order.t) :=
  match items with
  | [] => ret (Ok order)
  | orderProduct :: rest =>
      let* r := invoke (GetProductByID (OrderProduct.ProductID orderProduct))
                       (Call_GetProductByID (OrderProduct.ProductID orderProduct)) in
      match r with
      | Err err => ret (Err (not_found_or_internal err))
      | Ok product =>
          let* r := invoke (GetCategoryByID (Product.CategoryID product))
                           (Call_GetCategoryByID (Product.CategoryID product)) in
          match r with
          | Err err => ret (Err (not_found_or_internal err))
          | Ok category =>
              let order :=
                Order.set_Products
                  (alter (OrderProduct.set_Product (Some product))
                         i (Order.Products order))
                  order in
              let order :=
                Order.set_Products
                  (alter (fun op =>
                            OrderProduct.set_Product
                              (Product.set_Category (Some category)
                                 <$> OrderProduct.Product op) op)
                         i (Order.Products order))
                  order in
              enrich_products (S i) rest order
          end
      end
  end.

(** The user, payment and product reads that follow the order record
    (again shared text of CreateOrder and GetOrder). *)
Definition enrich (order : Order.t) : M (result Order.t) :=
  let* r := invoke (GetUserByID (Order.UserID order))
                   (Call_GetUserByID (Order.UserID order)) in
  match r with
  | Err err => ret (Err (not_found_or_internal err))
  | Ok user =>
      let* r := invoke (GetPaymentByID (Order.PaymentID order))
                       (Call_GetPaymentByID (Order.PaymentID order)) in
      match r with
      | Err err => ret (Err (not_found_or_internal err))
      | Ok payment =>
          let order := Order.set_User (Some user) order in
          let order := Order.set_Payment (Some payment) order in
          enrich_products 0 (Order.Products order) order
      end
  end.

(** The tail of CreateOrder: invalidate the listings, cache the order. *)
Definition publish (order : Order.t) : M (result Order.t) :=
  let* err := invoke (CacheDeleteByPrefix "orders:*")
                     (Call_CacheDeleteByPrefix "orders:*") in
  if failed err then ret (Err ErrInternal)
  else
    let cacheKey := GenerateCacheKey "order" (Order.ID order) in
    match SerializeOrder order with
    | Err _ => ret (Err ErrInternal)
    | Ok orderSerialized =>
        let* err := invoke (CacheSet cacheKey orderSerialized 0)
                           (Call_CacheSet cacheKey orderSerialized 0) in
        if failed err then ret (Err ErrInternal) else ret (Ok order)
    end.

(** What CreateOrder does with the record the order repository
    returned: enrich it, then publish it. *)
Definition after_persist (created : Order.t) : M (result Order.t) :=
  let* r := enrich created in
  match r with
  | Err err => ret (Err err)
  | Ok enriched => publish enriched
  end.

(** OrderService.CreateOrder.  The first component of the value is the
    object behind the caller's pointer as the method's own writes leave
    it up to the hand-over to the order repository; from then on
    [order] names the pointer the repository returned, whose final
    contents are the second component on success. *)
Definition CreateOrder (order : Order.t) : M (Order.t * result Order.t) :=
  let* v := validate 0 (Order.Products order) order 0 in
  let order := v.1 in
  match v.2 with
  | Err err => ret (order, Err err)
  | Ok totalPrice =>
      if Order.TotalPaid order <? totalPrice
      then ret (order, Err ErrInsufficientPayment)
      else
        let order := Order.set_TotalPrice totalPrice order in
        let order :=
          Order.set_TotalReturn (Order.TotalPaid order - Order.TotalPrice order) order in
        let* r := invoke (port.CreateOrder order) (Call_CreateOrder order) in
        match r with
        | Err _ => ret (order, Err ErrInternal)
        | Ok created =>
            let* r := after_persist created in
            ret (order, r)
        end
  end.

(** OrderService.GetOrder. *)
Definition GetOrder (id : Z) : M (result Order.t) :=
  let cacheKey := GenerateCacheKey "order" id in
  let* c := invoke (CacheGet cacheKey) (Call_CacheGet cacheKey) in
  match c with
  | Ok cachedOrder =>
      match DeserializeOrder cachedOrder with
      | Err _ => ret (Err ErrInternal)
      | Ok order => ret (Ok order)
      end
  | Err _ =>
      let* r := invoke (GetOrderByID id) (Call_GetOrderByID id) in
      match r with
      | Err err => ret (Err (not_found_or_internal err))
      | Ok order =>
          let* r := enrich order in
          match r with
          | Err err => ret (Err err)
          | Ok order =>
              match SerializeOrder order with
              | Err _ => ret (Err ErrInternal)
              | Ok orderSerialized =>
                  let* err := invoke (CacheSet cacheKey orderSerialized 0)
                                     (Call_CacheSet cacheKey orderSerialized 0) in
                  if failed err then ret (Err ErrInternal) else ret (Ok order)
              end
          end
      end
  end.

(** CategoryService.UpdateCategory. *)
Definition UpdateCategory (category : Category.t) : M (result Category.t) :=
  let* r := invoke (GetCategoryByID (Category.ID category))
                   (Call_GetCategoryByID (Category.ID category)) in
  match r with
  | Err err => ret (Err (not_found_or_internal err))
  | Ok existingCategory =>
      let emptyData := bool_decide (Category.Name category = ""%string) in
      let sameData :=
        bool_decide (Category.Name existingCategory = Category.Name category) in
      if emptyData || sameData then ret (Err ErrNoUpdatedData)
      else
        let* r := invoke (port.UpdateCategory category) (Call_UpdateCategory category) in
        match r with
        | Err err =>
            ret (Err (if decide (err = ErrConflictingData) then err else ErrInternal))
        | Ok _ =>
            let cacheKey := GenerateCacheKey "category" (Category.ID category) in
            let* err := invoke (CacheDelete cacheKey) (Call_CacheDelete cacheKey) in
            if failed err then ret (Err ErrInternal)
            else
              match SerializeCategory category with
              | Err _ => ret (Err ErrInternal)
              | Ok categorySerialized =>
                  let* err := invoke (CacheSet cacheKey categorySerialized 0)
                                     (Call_CacheSet cacheKey categorySerialized 0) in
                  if failed err then ret (Err ErrInternal)
                  else
                    let* err := invoke (CacheDeleteByPrefix "categories:*")
                                       (Call_CacheDeleteByPrefix "categories:*") in
                    if failed err then ret (Err ErrInternal)
                    else ret (Ok category)
              end
        end
  end.

End Services.
End service.

(** ** The payment repository's pagination *)

Module repository.

(** PaymentRepository.ListPayments hands the query builder
    [Limit(limit).Offset((skip - 1) * limit)]; both operands are uint64,
    so the subtraction and the product wrap. *)
Definition ListPayments_offset (skip limit : Z) : Z :=
  u64_mul (u64_sub skip 1) limit.

(** The rows that a [LIMIT limit OFFSET offset] query selects from a
    table already ordered by id. *)
Definition window {A} (table : list A) (limit offset : Z) : list A :=
  take (Z.to_nat limit) (drop (Z.to_nat offset) table).

(** ListPayments over a table of payments in id order (query and scan
    errors left out). *)
Definition ListPayments (table : list Payment.t) (skip limit : Z) : list Payment.t :=
  window table limit (ListPayments_offset skip limit).

End repository.

(** ** An in-memory implementation of the ports *)

Module mem.

(** What the in-memory cache holds: a serialized value is the value
    itself, tagged with its type. *)
Inductive blob : Type :=
| BOrder (o : Order.t)
| BCategory (c : Category.t).

(** Modelled from the spec: the SQL repositories and the cache adapter
    are not among the sources (the payment repository apart); the spec
    treats them as a key-value store with CRUD per entity and a
    key-value cache with deletion by prefix.  One table per entity,
    keyed by id. *)
Record store : Type := Store {
  products : gmap Z Product.t;
  categories : gmap Z Category.t;
  users : gmap Z User.t;
  payments : gmap Z Payment.t;
  orders : gmap Z Order.t;
  cache : gmap string blob;
  cache_up : bool
}.

Definition set_products (x : gmap Z Product.t) (w : store) : store :=
  Store x (categories w) (users w) (payments w) (orders w) (cache w) (cache_up w).
Definition set_categories (x : gmap Z Category.t) (w : store) : store :=
  Store (products w) x (users w) (payments w) (orders w) (cache w) (cache_up w).
Definition set_orders (x : gmap Z Order.t) (w : store) : store :=
  Store (products w) (categories w) (users w) (payments w) x (cache w) (cache_up w).
Definition set_cache (x : gmap string blob) (w : store) : store :=
  Store (products w) (categories w) (users w) (payments w) (orders w) x (cache_up w).
Definition set_cache_up (x : bool) (w : store) : store :=
  Store (products w) (categories w) (users w) (payments w) (orders w) (cache w) x.

(** The error of every cache call while the cache server is down. *)
Definition cache_down : error := ErrForeign "dial tcp: connection refused".

(** A SELECT by id. *)
Definition select {A} (table : gmap Z A) (id : Z) : result A :=
  match table !! id with
  | Some a => Ok a
  | None => Err ErrDataNotFound
  end.

(** The next value of a table's id sequence. *)
Definition next_id {A} (table : gmap Z A) : Z :=
  1 + map_fold (fun k _ acc => Z.max k acc) 0 table.

(** The literal part of a key pattern that ends in a star. *)
Fixpoint glob_prefix (pattern : string) : string :=
  match pattern with
  | EmptyString => EmptyString
  | String c rest =>
      match rest with
      | EmptyString => if Ascii.eqb c (Ascii.ascii_of_nat 42) then EmptyString else String c EmptyString
      | _ => String c (glob_prefix rest)
      end
  end.

#[global] Instance productRepo : ProductRepository store := {
  CreateProduct p w :=
    let p' := Product.Build (next_id (products w)) (Product.CategoryID p)
                (Product.Name p) (Product.Stock p) (Product.Price p) (Product.Category p) in
    (Ok p', set_products (<[Product.ID p' := p']> (products w)) w);
  GetProductByID id w := (select (products w) id, w);
  ListProducts _ _ skip limit w :=
    (Ok (repository.window (map_to_list (products w)).*2 limit
           (repository.ListPayments_offset skip limit)), w);
  UpdateProduct p w :=
    match products w !! Product.ID p with
    | Some _ => (Ok p, set_products (<[Product.ID p := p]> (products w)) w)
    | None => (Err ErrDataNotFound, w)
    end;
  DeleteProduct id w := (None, set_products (delete id (products w)) w)
}.

#[global] Instance orderRepo : OrderRepository store := {
  CreateOrder o w :=
    let o' := Order.set_ID (next_id (orders w)) o in
    (Ok o', set_orders (<[Order.ID o' := o']> (orders w)) w);
  GetOrderByID id w := (select (orders w) id, w)
}.


#[global] Instance categoryRepo : CategoryRepository store := {
  GetCategoryByID id w := (select (categories w) id, w);
  UpdateCategory c w :=
    match categories w !! Category.ID c with
    | Some _ => (Ok c, set_categories (<[Category.ID c := c]> (categories w)) w)
    | None => (Err ErrDataNotFound, w)
    end
}.

#[global] Instance userRepo : UserRepository store := {
  GetUserByID id w := (select (users w) id, w)
}.

#[global] Instance paymentRepo : PaymentRepository store := {
  GetPaymentByID id w := (select (payments w) id, w)
}.

#[global] Instance cacheRepo : CacheRepository store blob := {
  CacheSet key value _ w :=
    if cache_up w then (None, set_cache (<[key := value]> (cache w)) w)
    else (Some cache_down, w);
  CacheGet key w :=
    (if cache_up w then
       match cache w !! key with
       | Some b => Ok b
       | None => Err (ErrForeign "redis: nil")
       end
     else Err cache_down, w);
  CacheDelete key w :=
    if cache_up w then (None, set_cache (delete key (cache w)) w)
    else (Some cache_down, w);
  CacheDeleteByPrefix pattern w :=
    if cache_up w then
      (None,
       set_cache (filter (fun kv => String.prefix (glob_prefix pattern) kv.1 = false)
                         (cache w)) w)
    else (Some cache_down, w)
}.

#[global] Instance codec : Codec blob := {
  SerializeOrder o := Ok (BOrder o);
  DeserializeOrder b :=
    match b with
    | BOrder o => Ok o
    | BCategory _ => Err (ErrForeign "json: cannot unmarshal")
    end;
  SerializeCategory c := Ok (BCategory c)
}.

End mem.

(** ** A small shop, used for the concrete runs below *)

Module shop.
Import mem.
Local Open Scope float_scope.

Definition drinks : Category.t := Category.Build 1 "drinks".
Definition tea : Product.t := Product.Build 1 1 "tea" 5 10 None.
Definition alice : User.t := User.Build 1 "alice" "alice@example.com".
Definition cash : Payment.t := Payment.Build 1 "cash" "CASH" "cash.png".

(** One product (stock 5, price 10), its category, one user, one payment
    method, no orders yet, and a cached first page of the order list. *)
Definition w0 : store :=
  Store {[ 1%Z := tea ]} {[ 1%Z := drinks ]} {[ 1%Z := alice ]} {[ 1%Z := cash ]}
        ∅ {[ "orders:1-10"%string := BCategory drinks ]} true.

(** The same shop while the cache server is down. *)
Definition w_cache_down : store := set_cache_up false w0.

Definition line (productID quantity : Z) : OrderProduct.t :=
  OrderProduct.Build productID quantity 0 None.

Definition order_of (userID : Z) (paid : float) (lines : list OrderProduct.t) : Order.t :=
  Order.Build 0 userID 1 "bob" 0 paid 0 None None lines.

Definition run_create (o : Order.t) : run store blob (Order.t * result Order.t) :=
  service.CreateOrder o w0.

(** Three units of tea, paid 40, 30 (exact) and 20 (short). *)
Definition o_change : Order.t := order_of 1 40 [line 1 3].
Definition o_exact : Order.t := order_of 1 30 [line 1 3].
Definition o_short : Order.t := order_of 1 20 [line 1 3].

(** Six units against a stock of five; the same after a line whose
    product does not exist; five units, the whole stock. *)
Definition o_over : Order.t := order_of 1 60 [line 1 6].
Definition o_missing_then_over : Order.t := order_of 1 60 [line 99 1; line 1 6].
Definition o_all_stock : Order.t := order_of 1 50 [line 1 5].

(** Two lines, the second over stock. *)
Definition o_second_over : Order.t := order_of 1 90 [line 1 3; line 1 6].


(** The shop with order 7 in the cache, and with a category cached under
    an order key. *)
Definition o_seven : Order.t := Order.set_ID 7 o_exact.
Definition w_hit : store := set_cache (<["order:7"%string := BOrder o_seven]> (cache w0)) w0.
Definition w_garbled : store :=
  set_cache (<["order:7"%string := BCategory drinks]> (cache w0)) w0.

(** The three units of tea once priced by the validation pass. *)
Definition priced_lines : list OrderProduct.t := [OrderProduct.Build 1 3 30 None].

(** What CreateOrder returns for [o_change]. *)
Definition created_change : Order.t :=
  Eval vm_compute in
    match (value (run_create o_change)).2 with
    | Ok o => o
    | Err _ => o_change
    end.

(** The exact order created while the cache is down: the record the
    order repository holds afterwards, and the calls made after the order
    write. *)
Definition persisted_exact : Order.t :=
  Eval vm_compute in
    match orders (final (service.CreateOrder o_exact w_cache_down)) !! 1%Z with
    | Some o => o
    | None => o_exact
    end.

Definition calls_after_write : list (event blob) :=
  Eval vm_compute in drop 2 (calls (service.CreateOrder o_exact w_cache_down)).

Definition row (id : Z) : Payment.t := Payment.Build id "cash" "CASH" "cash.png".
Definition payments_table : list Payment.t := [row 1; row 2; row 3].

(** Six units against a stock of five, then a product that does not
    exist, then six units again. *)
Definition o_over_missing_over : Order.t :=
  order_of 1 90 [line 1 6; line 99 1; line 1 6].

(** The order of [o_change] as the order repository receives it, and as
    it stores and returns it. *)
Definition submitted_change : Order.t :=
  Order.Build 0 1 1 "bob" 30 40 10 None None priced_lines.
Definition stored_change : Order.t := Order.set_ID 1 submitted_change.



End shop.

(** ** Vocabulary of the properties *)

Section Observations.
Context {W bytes : Type}.
Context `{!ProductRepository W}.

Local Open Scope float_scope.

(** A line item after the validation loop has priced it against the
    product [p] fetched for it. *)
Definition priced (op : OrderProduct.t) (p : Product.t) : OrderProduct.t :=
  OrderProduct.set_TotalPrice
    (Product.Price p * float64_of_int64 (OrderProduct.Quantity op)) op.

(** The float64 sum of the line totals, accumulated from [acc] in line order. *)
Definition sum_from (acc : float) (lines : list OrderProduct.t) : float :=
  fold_left (fun a op => a + OrderProduct.TotalPrice op) lines acc.

Definition sum_totals (lines : list OrderProduct.t) : float := sum_from 0 lines.

(** The successful product reads of the validation loop, line by line. *)
Definition fetches (items : list OrderProduct.t) (ps : list Product.t)
  : list (event bytes) :=
  zip_with (fun op p => Call_GetProductByID (OrderProduct.ProductID op) (Ok p)) items ps.

(** The stock check of one line: the requested quantity does not exceed
    the stock. *)
Definition in_stock (op : OrderProduct.t) (p : Product.t) : Prop :=
  (OrderProduct.Quantity op <= Product.Stock p)%Z.

(** A line item after the enrichment loop: the product is attached and
    carries its category. *)
Definition line_enriched (op : OrderProduct.t) : bool :=
  match OrderProduct.Product op with
  | Some p => bool_decide (is_Some (Product.Category p))
  | None => false
  end.

Definition is_enriched (o : Order.t) : bool :=
  bool_decide (is_Some (Order.User o))
  && bool_decide (is_Some (Order.Payment o))
  && forallb line_enriched (Order.Products o).

(** The same line with product [p] of category [c] attached. *)
Definition attached (op : OrderProduct.t) (pc : Product.t * Category.t)
  : OrderProduct.t :=
  OrderProduct.set_Product (Some (Product.set_Category (Some pc.2) pc.1)) op.

(** The product repository answers reads without changing the world. *)
Definition pure_product_reads : Prop :=
  forall id : Z, keeps (fun w : W => w) (GetProductByID id).

(** The stock of product [id] as the product repository reports it in
    world [w]. *)
Definition stock_of (w : W) (id : Z) : option Z :=
  match (GetProductByID id w).1 with
  | Ok p => Some (Product.Stock p)
  | Err _ => None
  end.

End Observations.

Section Frame.
Context {W bytes : Type}.
Context `{!ProductRepository W, !OrderRepository W, !CategoryRepository W,
          !UserRepository W, !PaymentRepository W, !CacheRepository W bytes}.

(** The port methods CreateOrder calls all leave the observation [obs]
    as it was. *)
Definition frame {X} (obs : W -> X) : Prop :=
  (forall id, keeps obs (GetProductByID id))
  /\ (forall o, keeps obs (port.CreateOrder o))
  /\ (forall id, keeps obs (GetUserByID id))
  /\ (forall id, keeps obs (GetPaymentByID id))
  /\ (forall id, keeps obs (GetCategoryByID id))
  /\ (forall k (v : bytes) ttl, keeps obs (CacheSet k v ttl))
  /\ (forall p, keeps obs (CacheDeleteByPrefix (bytes := bytes) p)).

(** Every port method other than the product writes leaves the stock of
    every product alone. *)
Definition product_frame : Prop :=
  forall id : Z, frame (fun w => stock_of w id).

End Frame.

(** ** The rest of the service layer *)

From stdpp Require sorting.

Module ext.

(** The three methods of port.CategoryRepository and the one of
    port.OrderRepository that CreateOrder, GetOrder and UpdateCategory do
    not call. *)
Class CategoryRepositoryRest (W : Type) : Type := {
  CreateCategory : Category.t -> W -> result Category.t * W;
  ListCategories : Z -> Z -> W -> result (list Category.t) * W;
  DeleteCategory : Z -> W -> option error * W
}.

Class OrderRepositoryRest (W : Type) : Type := {
  ListOrders : Z -> Z -> W -> result (list Order.t) * W
}.

(** util.Serialize and util.Deserialize at the other types the services
    use them at. *)
Class CodecRest (bytes : Type) : Type := {
  DeserializeCategory : bytes -> result Category.t;
  SerializeCategories : list Category.t -> result bytes;
  DeserializeCategories : bytes -> result (list Category.t);
  SerializeOrders : list Order.t -> result bytes;
  DeserializeOrders : bytes -> result (list Order.t)
}.

(** Modelled from the spec: GenerateCacheKeyParams of the util package
    (not among the sources), the pagination part "<skip>-<limit>" of a
    list key, and GenerateCacheKey applied to it. *)
Definition GenerateCacheKeyParams (skip limit : Z) : string :=
  (pretty skip +:+ "-" +:+ pretty limit)%string.

Definition GenerateListKey (prefix params : string) : string :=
  (prefix +:+ ":" +:+ params)%string.

(** A recorded call: one of the calls above, or a call of the four
    methods added here. *)
Inductive call (bytes : Type) : Type :=
| Port (e : event bytes)
| Call_CreateCategory (c : Category.t) (r : result Category.t)
| Call_ListCategories (skip limit : Z) (r : result (list Category.t))
| Call_DeleteCategory (id : Z) (r : option error)
| Call_ListOrders (skip limit : Z) (r : result (list Order.t)).

Arguments Port {bytes}.
Arguments Call_CreateCategory {bytes}.
Arguments Call_ListCategories {bytes}.
Arguments Call_DeleteCategory {bytes}.
Arguments Call_ListOrders {bytes}.

(** The calls that write to a repository or to the cache. *)
Definition writes {bytes} (c : call bytes) : bool :=
  match c with
  | Port e => is_mutation e
  | Call_CreateCategory _ _ | Call_DeleteCategory _ _ => true
  | Call_ListCategories _ _ _ | Call_ListOrders _ _ _ => false
  end.

(** The calls that go to the cache. *)
Definition on_cache {bytes} (c : call bytes) : bool :=
  match c with
  | Port e => negb (is_repo_call e)
  | _ => false
  end.

Section Monad.
Context {W bytes : Type}.

(** The monad of the earlier services, under names that stay visible
    below. *)
Definition outer_M (A : Type) : Type := M W bytes A.
Definition outer_value {A} (r : run W bytes A) : A := value r.
Definition outer_final {A} (r : run W bytes A) : W := final r.
Definition outer_calls {A} (r : run W bytes A) : list (event bytes) := calls r.

(** The same monad as above, over the larger set of calls. *)
Record run (A : Type) : Type := Run {
  value : A;
  final : W;
  calls : list (call bytes)
}.
Arguments Run {A}.
Arguments value {A}.
Arguments final {A}.
Arguments calls {A}.

Definition M (A : Type) : Type := W -> run A.

Definition ret {A} (a : A) : M A := fun w => Run a w [].

Definition bind {A B} (m : M A) (k : A -> M B) : M B :=
  fun w =>
    let r1 := m w in
    let r2 := k (value r1) (final r1) in
    Run (value r2) (final r2) (calls r1 ++ calls r2).

(** Invoke one of the added methods, or one of the earlier ones. *)
Definition invoke {A} (f : W -> A * W) (ev : A -> call bytes) : M A :=
  fun w => let r := f w in Run r.1 r.2 [ev r.1].

Definition port {A} (f : W -> A * W) (ev : A -> event bytes) : M A :=
  invoke f (fun a => Port (ev a)).

(** Run a computation of the earlier monad here. *)
Definition lift {A} (m : outer_M A) : M A :=
  fun w => let r := m w in Run (outer_value r) (outer_final r) (Port <$> outer_calls r).

End Monad.

Arguments run W bytes A : clear implicits.
Arguments M W bytes A : clear implicits.
Arguments Run {W bytes A}.
Arguments value {W bytes A}.
Arguments final {W bytes A}.
Arguments calls {W bytes A}.

End ext.

Notation "'let+' x ':=' c1 'in' c2" := (ext.bind c1 (fun x => c2))
  (at level 10, x pattern, c1 at level 100, c2 at level 200).

(** *** CategoryService: create, get, list, delete *)

Module CategoryService.
Section Services.
Context {W bytes : Type}.
Context `{!CategoryRepository W, !ext.CategoryRepositoryRest W,
          !CacheRepository W bytes, !Codec bytes, !ext.CodecRest bytes}.

Local Abbreviation M := (ext.M W bytes).

(** CategoryService.CreateCategory. *)
Definition CreateCategory (category : Category.t) : M (result Category.t) :=
  let+ r := ext.invoke (ext.CreateCategory category) (ext.Call_CreateCategory category) in
  match r with
  | Err err =>
      ext.ret (Err (if decide (err = ErrConflictingData) then err else ErrInternal))
  | Ok category =>
      let cacheKey := GenerateCacheKey "category" (Category.ID category) in
      match SerializeCategory category with
      | Err _ => ext.ret (Err ErrInternal)
      | Ok categorySerialized =>
          let+ err := ext.port (CacheSet cacheKey categorySerialized 0)
                               (Call_CacheSet cacheKey categorySerialized 0) in
          if failed err then ext.ret (Err ErrInternal)
          else
            let+ err := ext.port (CacheDeleteByPrefix "categories:*")
                                 (Call_CacheDeleteByPrefix "categories:*") in
            if failed err then ext.ret (Err ErrInternal)
            else ext.ret (Ok category)
      end
  end.

(** CategoryService.GetCategory. *)
Definition GetCategory (id : Z) : M (result Category.t) :=
  let cacheKey := GenerateCacheKey "category" id in
  let+ c := ext.port (CacheGet cacheKey) (Call_CacheGet cacheKey) in
  match c with
  | Ok cachedCategory =>
      match ext.DeserializeCategory cachedCategory with
      | Err _ => ext.ret (Err ErrInternal)
      | Ok category => ext.ret (Ok category)
      end
  | Err _ =>
      let+ r := ext.port (GetCategoryByID id) (Call_GetCategoryByID id) in
      match r with
      | Err err => ext.ret (Err (service.not_found_or_internal err))
      | Ok category =>
          match SerializeCategory category with
          | Err _ => ext.ret (Err ErrInternal)
          | Ok categorySerialized =>
              let+ err := ext.port (CacheSet cacheKey categorySerialized 0)
                                   (Call_CacheSet cacheKey categorySerialized 0) in
              if failed err then ext.ret (Err ErrInternal)
              else ext.ret (Ok category)
          end
      end
  end.

(** CategoryService.ListCategories. *)
Definition ListCategories (skip limit : Z) : M (result (list Category.t)) :=
  let params := ext.GenerateCacheKeyParams skip limit in
  let cacheKey := ext.GenerateListKey "categories" params in
  let+ c := ext.port (CacheGet cacheKey) (Call_CacheGet cacheKey) in
  match c with
  | Ok cachedCategories =>
      match ext.DeserializeCategories cachedCategories with
      | Err _ => ext.ret (Err ErrInternal)
      | Ok categories => ext.ret (Ok categories)
      end
  | Err _ =>
      let+ r := ext.invoke (ext.ListCategories skip limit)
                           (ext.Call_ListCategories skip limit) in
      match r with
      | Err _ => ext.ret (Err ErrInternal)
      | Ok categories =>
          match ext.SerializeCategories categories with
          | Err _ => ext.ret (Err ErrInternal)
          | Ok categoriesSerialized =>
              let+ err := ext.port (CacheSet cacheKey categoriesSerialized 0)
                                   (Call_CacheSet cacheKey categoriesSerialized 0) in
              if failed err then ext.ret (Err ErrInternal)
              else ext.ret (Ok categories)
          end
      end
  end.

(** CategoryService.DeleteCategory.  The value is the Go error: [None]
    is nil.  The last line returns the repository's error as it is. *)
Definition DeleteCategory (id : Z) : M (option error) :=
  let+ r := ext.port (GetCategoryByID id) (Call_GetCategoryByID id) in
  match r with
  | Err err => ext.ret (Some (service.not_found_or_internal err))
  | Ok _ =>
      let cacheKey := GenerateCacheKey "category" id in
      let+ err := ext.port (CacheDelete cacheKey) (Call_CacheDelete cacheKey) in
      if failed err then ext.ret (Some ErrInternal)
      else
        let+ err := ext.port (CacheDeleteByPrefix "categories:*")
                             (Call_CacheDeleteByPrefix "categories:*") in
        if failed err then ext.ret (Some ErrInternal)
        else ext.invoke (ext.DeleteCategory id) (ext.Call_DeleteCategory id)
  end.

End Services.
End CategoryService.

(** *** OrderService: list *)

Module OrderService.
Section Services.
Context {W bytes : Type}.
Context `{!ProductRepository W, !OrderRepository W, !ext.OrderRepositoryRest W,
          !CategoryRepository W, !UserRepository W, !PaymentRepository W,
          !CacheRepository W bytes, !Codec bytes, !ext.CodecRest bytes}.

Local Abbreviation M := (ext.M W bytes).

(** The first loop of ListOrders, from order [i] on: read the user and
    the payment of each order and attach them to [orders[i]].  [items]
    is the rest of the slice being ranged over. *)
Fixpoint attach_parties (i : nat) (items : list Order.t) (orders : list Order.t)
  : M (result (list Order.t)) :=
  match items with
  | [] => ext.ret (Ok orders)
  | order :: rest =>
      let+ r := ext.port (GetUserByID (Order.UserID order))
                         (Call_GetUserByID (Order.UserID order)) in
      match r with
      | Err err => ext.ret (Err (service.not_found_or_internal err))
      | Ok user =>
          let+ r := ext.port (GetPaymentByID (Order.PaymentID order))
                             (Call_GetPaymentByID (Order.PaymentID order)) in
          match r with
          | Err err => ext.ret (Err (service.not_found_or_internal err))
          | Ok payment =>
              let orders := alter (Order.set_User (Some user)) i orders in
              let orders := alter (Order.set_Payment (Some payment)) i orders in
              attach_parties (S i) rest orders
          end
      end
  end.

(** The second loop of ListOrders, from order [i] on.  Its inner loop
    over the lines of [orders[i]] is, statement for statement, the
    enrichment loop of GetOrder with [orders[i]] for [order]; it writes
    to the lines of [orders[i]] only, so the order it leaves is put back
    at index [i]. *)
Fixpoint attach_products (i : nat) (items : list Order.t) (orders : list Order.t)
  : M (result (list Order.t)) :=
  match items with
  | [] => ext.ret (Ok orders)
  | order :: rest =>
      let+ r := ext.lift (service.enrich_products 0 (Order.Products order) order) in
      match r with
      | Err err => ext.ret (Err err)
      | Ok order => attach_products (S i) rest (<[i := order]> orders)
      end
  end.

(** OrderService.ListOrders. *)
Definition ListOrders (skip limit : Z) : M (result (list Order.t)) :=
  let params := ext.GenerateCacheKeyParams skip limit in
  let cacheKey := ext.GenerateListKey "orders" params in
  let+ c := ext.port (CacheGet cacheKey) (Call_CacheGet cacheKey) in
  match c with
  | Ok cachedOrders =>
      match ext.DeserializeOrders cachedOrders with
      | Err _ => ext.ret (Err ErrInternal)
      | Ok orders => ext.ret (Ok orders)
      end
  | Err _ =>
      let+ r := ext.invoke (ext.ListOrders skip limit) (ext.Call_ListOrders skip limit) in
      match r with
      | Err _ => ext.ret (Err ErrInternal)
      | Ok orders =>
          let+ r := attach_parties 0 orders orders in
          match r with
          | Err err => ext.ret (Err err)
          | Ok orders =>
              let+ r := attach_products 0 orders orders in
              match r with
              | Err err => ext.ret (Err err)
              | Ok orders =>
                  match ext.SerializeOrders orders with
                  | Err _ => ext.ret (Err ErrInternal)
                  | Ok ordersSerialized =>
                      let+ err := ext.port (CacheSet cacheKey ordersSerialized 0)
                                           (Call_CacheSet cacheKey ordersSerialized 0) in
                      if failed err then ext.ret (Err ErrInternal)
                      else ext.ret (Ok orders)
                  end
              end
          end
      end
  end.

End Services.
End OrderService.

(** *** An in-memory implementation with pages and outages *)

Module memx.

(** What this cache holds: single entities and pages of them. *)
Inductive blob : Type :=
| BOrder (o : Order.t)
| BCategory (c : Category.t)
| BOrders (l : list Order.t)
| BCategories (l : list Category.t).

(** Modelled from the spec, like the store above: its tables (the cache
    of [tables] is not used), a cache that also holds pages, and two
    switches for outages, the cache server down and the database
    read-only. *)
Record store : Type := Store {
  tables : mem.store;
  cache : gmap string blob;
  cache_up : bool;
  read_only : bool
}.

Definition set_tables (x : mem.store) (w : store) : store :=
  Store x (cache w) (cache_up w) (read_only w).
Definition set_cache (x : gmap string blob) (w : store) : store :=
  Store (tables w) x (cache_up w) (read_only w).
Definition set_cache_up (x : bool) (w : store) : store :=
  Store (tables w) (cache w) x (read_only w).
Definition set_read_only (x : bool) (w : store) : store :=
  Store (tables w) (cache w) (cache_up w) x.

(** Run a method of the store above on the tables. *)
Definition on_tables {A} (f : mem.store -> A * mem.store) (w : store) : A * store :=
  let r := f (tables w) in (r.1, set_tables r.2 w).

(** The error of every write while the database is read-only. *)
Definition read_only_error : error :=
  ErrForeign "cannot execute a write in a read-only transaction".

Definition writing {A} (f : store -> result A * store) (w : store) : result A * store :=
  if read_only w then (Err read_only_error, w) else f w.

Definition deleting (f : store -> option error * store) (w : store)
  : option error * store :=
  if read_only w then (Some read_only_error, w) else f w.

(** Category names are unique: is [name] taken by a category other than
    [id]? *)
Definition name_taken (name : string) (id : Z) (table : gmap Z Category.t) : bool :=
  existsb (fun kv => String.eqb (Category.Name kv.2) name && negb (kv.1 =? id)%Z)
          (map_to_list table).

(** The rows of a table in id order. *)
Definition by_id {A} (a b : Z * A) : Prop := (a.1 <= b.1)%Z.

#[global] Instance by_id_dec {A} (a b : Z * A) : Decision (by_id a b).
Proof. unfold by_id. apply _. Defined.

Definition rows {A} (table : gmap Z A) : list A :=
  (sorting.merge_sort by_id (map_to_list table)).*2.

#[global] Instance productRepo : ProductRepository store := {
  CreateProduct p := writing (on_tables (CreateProduct p));
  GetProductByID id := on_tables (GetProductByID id);
  ListProducts search categoryId skip limit :=
    on_tables (ListProducts search categoryId skip limit);
  UpdateProduct p := writing (on_tables (UpdateProduct p));
  DeleteProduct id := deleting (on_tables (DeleteProduct id))
}.

#[global] Instance orderRepo : OrderRepository store := {
  CreateOrder o := writing (on_tables (port.CreateOrder o));
  GetOrderByID id := on_tables (GetOrderByID id)
}.

#[global] Instance orderRest : ext.OrderRepositoryRest store := {
  ListOrders skip limit w :=
    (Ok (repository.window (rows (mem.orders (tables w))) limit
           (repository.ListPayments_offset skip limit)), w)
}.

#[global] Instance categoryRepo : CategoryRepository store := {
  GetCategoryByID id := on_tables (GetCategoryByID id);
  UpdateCategory c :=
    writing (fun w =>
               if name_taken (Category.Name c) (Category.ID c) (mem.categories (tables w))
               then (Err ErrConflictingData, w)
               else on_tables (port.UpdateCategory c) w)
}.

#[global] Instance categoryRest : ext.CategoryRepositoryRest store := {
  CreateCategory c :=
    writing (fun w =>
               let table := mem.categories (tables w) in
               let c' := Category.Build (mem.next_id table) (Category.Name c) in
               if name_taken (Category.Name c) (Category.ID c') table
               then (Err ErrConflictingData, w)
               else (Ok c',
                     set_tables (mem.set_categories (<[Category.ID c' := c']> table)
                                                    (tables w)) w));
  ListCategories skip limit w :=
    (Ok (repository.window (rows (mem.categories (tables w))) limit
           (repository.ListPayments_offset skip limit)), w);
  DeleteCategory id :=
    deleting (fun w =>
                (None,
                 set_tables (mem.set_categories (delete id (mem.categories (tables w)))
                                                (tables w)) w))
}.

#[global] Instance userRepo : UserRepository store := {
  GetUserByID id := on_tables (GetUserByID id)
}.

#[global] Instance paymentRepo : PaymentRepository store := {
  GetPaymentByID id := on_tables (GetPaymentByID id)
}.

#[global] Instance cacheRepo : CacheRepository store blob := {
  CacheSet key value _ w :=
    if cache_up w then (None, set_cache (<[key := value]> (cache w)) w)
    else (Some mem.cache_down, w);
  CacheGet key w :=
    (if cache_up w then
       match cache w !! key with
       | Some b => Ok b
       | None => Err (ErrForeign "redis: nil")
       end
     else Err mem.cache_down, w);
  CacheDelete key w :=
    if cache_up w then (None, set_cache (delete key (cache w)) w)
    else (Some mem.cache_down, w);
  CacheDeleteByPrefix pattern w :=
    if cache_up w then
      (None,
       set_cache (filter (fun kv => String.prefix (mem.glob_prefix pattern) kv.1 = false)
                         (cache w)) w)
    else (Some mem.cache_down, w)
}.

(** The cache adapter with no server behind it: every call fails. *)
Definition unreachable : CacheRepository store blob := {|
  CacheSet := fun _ _ _ w => (Some mem.cache_down, w);
  CacheGet := fun _ w => (Err mem.cache_down, w);
  CacheDelete := fun _ w => (Some mem.cache_down, w);
  CacheDeleteByPrefix := fun _ w => (Some mem.cache_down, w)
|}.

Definition mismatch {A} : result A := Err (ErrForeign "json: cannot unmarshal").

#[global] Instance codec : Codec blob := {
  SerializeOrder o := Ok (BOrder o);
  DeserializeOrder b := match b with BOrder o => Ok o | _ => mismatch end;
  SerializeCategory c := Ok (BCategory c)
}.

#[global] Instance codecRest : ext.CodecRest blob := {
  DeserializeCategory b := match b with BCategory c => Ok c | _ => mismatch end;
  SerializeCategories l := Ok (BCategories l);
  DeserializeCategories b := match b with BCategories l => Ok l | _ => mismatch end;
  SerializeOrders l := Ok (BOrders l);
  DeserializeOrders b := match b with BOrders l => Ok l | _ => mismatch end
}.

End memx.

(** *** A second shop *)

Module shopx.
Import memx.
Local Open Scope float_scope.

Definition snacks : Category.t := Category.Build 2 "snacks".

(** Two orders already on file. *)
Definition filed (id : Z) (quantity : Z) (total : float) : Order.t :=
  Order.Build id 1 1 "bob" total total 0 None None
              [OrderProduct.Build 1 quantity total None].

(** One product, two categories, one user, one payment method, two
    orders, an empty cache. *)
Definition w0 : store :=
  Store (mem.Store {[ 1%Z := shop.tea ]}
                   {[ 1%Z := shop.drinks; 2%Z := snacks ]}
                   {[ 1%Z := shop.alice ]} {[ 1%Z := shop.cash ]}
                   {[ 1%Z := filed 1 1 10; 2%Z := filed 2 2 20 ]} ∅ true)
        ∅ true false.

(** The same shop with the cache server down, and with the database
    read-only. *)
Definition w_cache_down : store := set_cache_up false w0.
Definition w_read_only : store := set_read_only true w0.

Definition juices : Category.t := Category.Build 0 "juices".
Definition hot_drinks : Category.t := Category.Build 1 "hot drinks".

(** Three units of tea paid 40, as the order repository receives it. *)
Definition submitted_change : Order.t :=
  Order.Build 0 1 1 "bob" 30 40 10 None None [OrderProduct.Build 1 3 30 None].

(** What CreateOrder returns for it in this shop, and what GetOrder
    returns for the first order on file. *)
Definition created_change : Order.t :=
  Eval vm_compute in
    match (value (service.CreateOrder shop.o_change w0)).2 with
    | Ok o => o
    | Err _ => shop.o_change
    end.

Definition first_order : Order.t :=
  Eval vm_compute in
    match value (service.GetOrder 1 w0) with
    | Ok o => o
    | Err _ => filed 1 1 10
    end.

Definition miss : error := ErrForeign "redis: nil".

(** The shop once order 1 has been read, and so cached. *)
Definition w_read : store := final (service.GetOrder 1 w0).

(** The category the repository files for [juices], and the first page
    of ten orders as ListOrders returns it. *)
Definition created_juices : Category.t := Category.Build 3 "juices".

Definition first_page : list Order.t :=
  Eval vm_compute in
    match ext.value (OrderService.ListOrders 1 10 w0) with
    | Ok l => l
    | Err _ => []
    end.

End shopx.

(** ** Contracts of the cache and the codec *)

Section Laws.
Context {W bytes : Type}.
Context `{!CacheRepository W bytes, !Codec bytes}.

(** The cache gives back what was stored: after a successful Set of [v]
    under [k], Get of [k] returns [v]. *)
Definition cache_set_get : Prop :=
  forall (k : string) (v : bytes) (ttl : Z) (w : W),
    (CacheSet k v ttl w).1 = None ->
    (CacheGet k (CacheSet k v ttl w).2).1 = Ok v.

(** Deserialize inverts Serialize on orders. *)
Definition order_round_trip : Prop :=
  forall (o : Order.t) (b : bytes), SerializeOrder o = Ok b -> DeserializeOrder b = Ok o.

(** The cache server is unreachable: every Get and every Set fails. *)
Definition cache_unreachable : Prop :=
  (forall (k : string) (w : W), is_ok (CacheGet (bytes := bytes) k w).1 = false)
  /\ (forall (k : string) (v : bytes) (ttl : Z) (w : W),
         failed (CacheSet k v ttl w).1 = true).

End Laws.

(** The successful reads of the enrichment loop: for each line the
    product, then the product's category. *)
Definition enrichment_calls {bytes : Type} (items : list OrderProduct.t)
           (pcs : list (Product.t * Category.t)) : list (event bytes) :=
  concat (zip_with
            (fun op pc =>
               [Call_GetProductByID (OrderProduct.ProductID op) (Ok pc.1);
                Call_GetCategoryByID (Product.CategoryID pc.1) (Ok pc.2)])
            items pcs).

(** The calls GetOrder can make at all: the cache read, the order read,
    the reads by id of the enrichment, and the cache write. *)
Definition GetOrder_call {bytes : Type} (e : event bytes) : Prop :=
  is_lookup e = true
  \/ (exists k r, e = Call_CacheGet k r)
  \/ (exists id r, e = Call_GetOrderByID id r)
  \/ (exists k v r, e = Call_CacheSet k v 0 r).

Section LawsRest.
Context {W bytes : Type}.
Context `{!CacheRepository W bytes, !Codec bytes, !ext.CodecRest bytes,
          !ext.CategoryRepositoryRest W}.

(** A Set under one key leaves the other keys as they were. *)
Definition cache_set_keeps : Prop :=
  forall (k k' : string) (v : bytes) (ttl : Z) (w : W),
    k <> k' -> (CacheGet k' (CacheSet k v ttl w).2).1 = (CacheGet k' w).1.

(** A deletion by pattern leaves the keys outside the pattern as they
    were, and after a successful one the keys inside it are gone. *)
Definition cache_prefix_keeps : Prop :=
  forall (pattern k : string) (w : W),
    String.prefix (mem.glob_prefix pattern) k = false ->
    (CacheGet (bytes := bytes) k (CacheDeleteByPrefix (bytes := bytes) pattern w).2).1
    = (CacheGet k w).1.

Definition cache_prefix_removes : Prop :=
  forall (pattern k : string) (w : W),
    String.prefix (mem.glob_prefix pattern) k = true ->
    (CacheDeleteByPrefix (bytes := bytes) pattern w).1 = None ->
    is_ok (CacheGet (bytes := bytes) k (CacheDeleteByPrefix (bytes := bytes) pattern w).2).1
    = false.

(** After a successful Delete of a key, Get of it misses. *)
Definition cache_delete_removes : Prop :=
  forall (k : string) (w : W),
    (CacheDelete (bytes := bytes) k w).1 = None ->
    is_ok (CacheGet (bytes := bytes) k (CacheDelete (bytes := bytes) k w).2).1 = false.

(** The category repository's delete does not touch the cache. *)
Definition delete_keeps_cache : Prop :=
  forall (id : Z) (k : string) (w : W),
    (CacheGet (bytes := bytes) k (ext.DeleteCategory id w).2).1 = (CacheGet k w).1.

(** Deserialize inverts Serialize on categories. *)
Definition category_round_trip : Prop :=
  forall (c : Category.t) (b : bytes),
    SerializeCategory c = Ok b -> ext.DeserializeCategory b = Ok c.

(** A Delete of one key leaves the other keys as they were. *)
Definition cache_delete_keeps : Prop :=
  forall (k k' : string) (w : W),
    k <> k' ->
    (CacheGet (bytes := bytes) k' (CacheDelete (bytes := bytes) k w).2).1
    = (CacheGet k' w).1.

End LawsRest.

(** The category repository's read and update do not touch the cache. *)
Definition category_repo_keeps_cache {W bytes : Type}
           `{!CategoryRepository W, !CacheRepository W bytes} : Prop :=
  forall k : string,
    (forall id, keeps (fun w : W => (CacheGet (bytes := bytes) k w).1) (GetCategoryByID id))
    /\ (forall c, keeps (fun w : W => (CacheGet (bytes := bytes) k w).1)
                        (port.UpdateCategory c)).

(** The reads of the two loops of ListOrders when they succeed: per
    order the user and the payment; then, per order, the reads of the
    enrichment of its lines.  [listing] is the order with what these
    reads returned attached. *)
Definition party_calls {bytes : Type} (stored : list Order.t)
           (ups : list (User.t * Payment.t)) : list (ext.call bytes) :=
  concat (zip_with
            (fun s up =>
               [ext.Port (Call_GetUserByID (Order.UserID s) (Ok up.1));
                ext.Port (Call_GetPaymentByID (Order.PaymentID s) (Ok up.2))])
            stored ups).

Definition product_calls {bytes : Type} (stored : list Order.t)
           (pcss : list (list (Product.t * Category.t))) : list (ext.call bytes) :=
  concat (zip_with (fun s pcs => ext.Port <$> enrichment_calls (Order.Products s) pcs)
                   stored pcss).

Definition listing (s : Order.t)
           (x : User.t * Payment.t * list (Product.t * Category.t)) : Order.t :=
  Order.set_Products (zip_with attached (Order.Products s) x.2)
    (Order.set_Payment (Some x.1.2) (Order.set_User (Some x.1.1) s)).

(** [o] is [s] with a user, a payment method and a product with its
    category per line attached. *)
Definition listed (o s : Order.t) : Prop :=
  exists (u : User.t) (pay : Payment.t) (pcs : list (Product.t * Category.t)),
    length pcs = length (Order.Products s)
    /\ o = Order.set_Products (zip_with attached (Order.Products s) pcs)
             (Order.set_Payment (Some pay) (Order.set_User (Some u) s)).

(** ** Lemmas on the monad and the loops *)

Section Loops.
Context {W bytes : Type}.
Context `{!ProductRepository W, !OrderRepository W, !CategoryRepository W,
          !UserRepository W, !PaymentRepository W,
          !CacheRepository W bytes, !Codec bytes}.

Local Open Scope float_scope.
Import service.

Lemma set_Products_twice (x y : list OrderProduct.t) (o : Order.t) :
  Order.set_Products x (Order.set_Products y o) = Order.set_Products x o.
Proof. reflexivity. Qed.

Lemma alter_middle {A} (f : A -> A) (pre : list A) (a : A) (post : list A) :
  alter f (length pre) (pre ++ a :: post) = pre ++ f a :: post.
Proof.
  induction pre as [|b pre IH]; simpl; [reflexivity|].
  unfold alter in IH |- *. simpl. f_equal. exact IH.
Qed.

Lemma lookup_middle {A} (pre : list A) (a : A) (post : list A) :
  (pre ++ a :: post) !! length pre = Some a.
Proof. induction pre; simpl; auto. Qed.

(** What the validation loop does, whatever the ports answer.  [pre] is
    the part of the slice already walked. *)
Lemma validate_spec (items pre : list OrderProduct.t) :
  forall (order : Order.t) (total : float) (w : W),
    Order.Products order = pre ++ items ->
    let r := validate (W := W) (bytes := bytes) (length pre) items order total w in
    exists ps : list Product.t,
      (length ps <= length items)%nat
      /\ Forall2 in_stock (take (length ps) items) ps
      /\ (value r).1 =
           Order.set_Products
             (pre ++ zip_with priced items ps ++ drop (length ps) items) order
      /\ ((length ps = length items
           /\ calls r = fetches items ps
           /\ (value r).2 = Ok (sum_from total (zip_with priced items ps)))
          \/ (exists op reply,
                 items !! length ps = Some op
                 /\ calls r = fetches items ps
                              ++ [Call_GetProductByID (OrderProduct.ProductID op) reply]
                 /\ ((exists err, reply = Err err
                                  /\ (value r).2 = Err (not_found_or_internal err))
                     \/ (exists p, reply = Ok p
                                   /\ (Product.Stock p < OrderProduct.Quantity op)%Z
                                   /\ (value r).2 = Err ErrInsufficientStock)))).
Proof.
  revert pre.
  induction items as [|op rest IH]; intros pre order total w Hprod r.
  - exists []. subst r. simpl.
    refine (conj (le_n _) (conj (List.Forall2_nil _) (conj _ _))).
    + rewrite app_nil_r in Hprod |- *. rewrite <- Hprod. destruct order; reflexivity.
    + left. auto.
  - subst r. simpl. unfold bind, invoke. simpl.
    destruct (GetProductByID (OrderProduct.ProductID op) w) as [reply w1] eqn:Hget.
    simpl. destruct reply as [p|err]; simpl.
    + destruct (Product.Stock p <? OrderProduct.Quantity op)%Z eqn:Hstock; simpl.
      * exists []. simpl.
        refine (conj (Nat.le_0_l _) (conj (List.Forall2_nil _) (conj _ _))).
        -- rewrite <- Hprod. destruct order; reflexivity.
        -- right. exists op, (Ok p).
           refine (conj eq_refl (conj eq_refl _)).
           right. exists p. refine (conj eq_refl (conj _ eq_refl)). lia.
      * rewrite Hprod, alter_middle.
        set (order1 := Order.set_Products (pre ++ _ :: rest) order).
        assert (Hl : line_total order1 (length pre) = OrderProduct.TotalPrice (priced op p)).
        { unfold line_total, order1. simpl. rewrite lookup_middle. reflexivity. }
        rewrite Hl.
        specialize (IH (pre ++ [priced op p]) order1
                       (total + OrderProduct.TotalPrice (priced op p)) w1).
        rewrite length_app in IH. simpl in IH.
        replace (length pre + 1)%nat with (S (length pre)) in IH by lia.
        destruct IH as (ps & Hlen & Hin & Hord & Hout).
        { unfold order1. simpl. rewrite <- app_assoc. reflexivity. }
        exists (p :: ps). simpl.
        refine (conj _ (conj _ (conj _ _))).
        -- lia.
        -- constructor; [unfold in_stock; lia | exact Hin].
        -- rewrite Hord. unfold order1. rewrite set_Products_twice.
           rewrite <- app_assoc. reflexivity.
        -- destruct Hout as [(Hall & Hcalls & Hval) | (op' & reply & Hlook & Hcalls & Hwhy)].
           ++ left. refine (conj _ (conj _ Hval)); [lia | rewrite Hcalls; reflexivity].
           ++ right. exists op', reply.
              refine (conj Hlook (conj _ Hwhy)). rewrite Hcalls. reflexivity.
    + exists []. simpl.
      refine (conj (Nat.le_0_l _) (conj (List.Forall2_nil _) (conj _ _))).
      * rewrite <- Hprod. destruct order; reflexivity.
      * right. exists op, (Err err).
        refine (conj eq_refl (conj eq_refl _)).
        left. exists err. split; reflexivity.
Qed.

(** *** Properties that pass through [ret], [bind] and [invoke] *)

Lemma all_calls_ret {A} (P : event bytes -> Prop) (a : A) :
  all_calls (W := W) P (ret a).
Proof. intros w. constructor. Qed.

Lemma all_calls_bind {A B} (P : event bytes -> Prop) (m : M W bytes A) (k : A -> M W bytes B) :
  all_calls P m -> (forall a, all_calls P (k a)) -> all_calls P (bind m k).
Proof.
  intros Hm Hk w. unfold bind. simpl. apply Forall_app. split; [apply Hm | apply Hk].
Qed.

Lemma all_calls_invoke {A} (P : event bytes -> Prop) (f : W -> A * W) (ev : A -> event bytes) :
  (forall a, P (ev a)) -> all_calls P (invoke f ev).
Proof. intros H w. unfold invoke. simpl. constructor; [apply H | constructor]. Qed.

Lemma keeps_m_ret {A X} (obs : W -> X) (a : A) :
  keeps_m (bytes := bytes) obs (ret a).
Proof. intros w. reflexivity. Qed.

Lemma keeps_m_bind {A B X} (obs : W -> X) (m : M W bytes A) (k : A -> M W bytes B) :
  keeps_m obs m -> (forall a, keeps_m obs (k a)) -> keeps_m obs (bind m k).
Proof. intros Hm Hk w. unfold bind. simpl. rewrite Hk. apply Hm. Qed.

Lemma keeps_m_invoke {A X} (obs : W -> X) (f : W -> A * W) (ev : A -> event bytes) :
  keeps obs f -> keeps_m obs (invoke f ev).
Proof. intros H w. unfold invoke. simpl. apply H. Qed.

(** Walk through a computation built from [ret], [bind], [invoke],
    [match] and [if], leaving the port calls as goals. *)
Ltac walk :=
  repeat match goal with
    | |- all_calls _ (ret _) => apply all_calls_ret
    | |- keeps_m _ (ret _) => apply keeps_m_ret
    | |- all_calls _ (bind _ _) => apply all_calls_bind; [ | intros ? ]
    | |- keeps_m _ (bind _ _) => apply keeps_m_bind; [ | intros ? ]
    | |- all_calls _ (invoke _ _) => apply all_calls_invoke; intros ?
    | |- keeps_m _ (invoke _ _) => apply keeps_m_invoke
    | |- all_calls _ (match ?x with _ => _ end) => destruct x
    | |- keeps_m _ (match ?x with _ => _ end) => destruct x
    | |- all_calls _ (let _ := _ in _) => cbv zeta
    | |- keeps_m _ (let _ := _ in _) => cbv zeta
    end.

Lemma validate_calls (items : list OrderProduct.t) :
  forall i order total,
    all_calls (fun e : event bytes => exists id r, e = Call_GetProductByID id r)
              (validate (W := W) i items order total).
Proof.
  induction items as [|op rest IH]; intros i order total; simpl.
  - walk.
  - walk; eauto.
Qed.

Lemma validate_keeps {X} (obs : W -> X) (items : list OrderProduct.t) :
  (forall id, keeps obs (GetProductByID id)) ->
  forall i order total,
    keeps_m obs (validate (W := W) (bytes := bytes) i items order total).
Proof.
  intros Hget.
  induction items as [|op rest IH]; intros i order total; simpl.
  - walk.
  - walk; auto.
Qed.

Lemma enrich_products_calls (items : list OrderProduct.t) :
  forall i order,
    all_calls (fun e : event bytes => is_lookup e = true)
              (enrich_products (W := W) i items order).
Proof.
  induction items as [|op rest IH]; intros i order; simpl.
  - walk.
  - walk; auto.
Qed.

Lemma enrich_products_keeps {X} (obs : W -> X) (items : list OrderProduct.t) :
  (forall id, keeps obs (GetProductByID id)) ->
  (forall id, keeps obs (GetCategoryByID id)) ->
  forall i order,
    keeps_m obs (enrich_products (W := W) (bytes := bytes) i items order).
Proof.
  intros Hp Hc.
  induction items as [|op rest IH]; intros i order; simpl.
  - walk.
  - walk; auto.
Qed.

Lemma after_persist_calls (created : Order.t) :
  all_calls (fun e : event bytes => CreateOrder_call e /\ is_order_call e = false)
            (after_persist (W := W) created).
Proof.
  unfold after_persist, enrich, publish. walk;
    try (split; [unfold CreateOrder_call; simpl; eauto 8 | reflexivity]).
  intros w. eapply Forall_impl; [apply enrich_products_calls|].
  intros e He. split; [left; exact He | destruct e; simpl in *; congruence].
Qed.

Lemma after_persist_keeps {X} (obs : W -> X) (created : Order.t) :
  frame (bytes := bytes) obs -> keeps_m obs (after_persist (W := W) (bytes := bytes) created).
Proof.
  intros (Hp & Ho & Hu & Hy & Hc & Hs & Hd).
  unfold after_persist, enrich, publish. walk; auto.
  apply enrich_products_keeps; auto.
Qed.

Lemma CreateOrder_calls (order : Order.t) :
  all_calls (fun e : event bytes => CreateOrder_call e) (CreateOrder (W := W) order).
Proof.
  unfold CreateOrder. walk.
  - intros w. eapply Forall_impl; [apply validate_calls|].
    intros e (id & r & ->). left. reflexivity.
  - right. left. eauto.
  - intros w. eapply Forall_impl; [apply after_persist_calls|].
    intros e [He _]. exact He.
Qed.

Lemma CreateOrder_keeps {X} (obs : W -> X) (order : Order.t) :
  frame (bytes := bytes) obs -> keeps_m obs (CreateOrder (W := W) (bytes := bytes) order).
Proof.
  intros Hf. pose proof Hf as (Hp & Ho & Hu & Hy & Hc & Hs & Hd).
  unfold CreateOrder. walk; auto.
  - apply validate_keeps; auto.
  - apply after_persist_keeps; auto.
Qed.

(** *** The enrichment loop and the tail of CreateOrder *)

Lemma not_found_or_internal_cases (err : error) :
  not_found_or_internal err = ErrDataNotFound \/ not_found_or_internal err = ErrInternal.
Proof. unfold not_found_or_internal. destruct (decide (err = ErrDataNotFound)); auto. Qed.

Lemma enrich_products_ok (items pre : list OrderProduct.t) :
  forall (order o : Order.t) (w : W),
    Order.Products order = pre ++ items ->
    value (enrich_products (W := W) (bytes := bytes) (length pre) items order w) = Ok o ->
    exists pcs : list (Product.t * Category.t),
      length pcs = length items
      /\ o = Order.set_Products (pre ++ zip_with attached items pcs) order
      /\ Forall (fun e => call_failed e = false)
                (calls (enrich_products (W := W) (bytes := bytes) (length pre) items order w)).
Proof.
  revert pre.
  induction items as [|op rest IH]; intros pre order o w Hprod; simpl.
  - intros [= <-]. exists []. simpl. split; [reflexivity|]. split; [|constructor].
    rewrite app_nil_r in Hprod |- *. rewrite <- Hprod. destruct order; reflexivity.
  - unfold bind, invoke. simpl.
    destruct (GetProductByID (OrderProduct.ProductID op) w) as [[p|err] w1]; simpl;
      [|discriminate].
    destruct (GetCategoryByID (Product.CategoryID p) w1) as [[c|err] w2]; simpl;
      [|discriminate].
    rewrite Hprod, alter_middle. simpl. rewrite alter_middle. simpl.
    set (order1 := Order.set_Products (pre ++ _ :: rest) _).
    intros Hval.
    specialize (IH (pre ++ [attached op (p, c)]) order1 o w2).
    rewrite length_app in IH. simpl in IH.
    replace (length pre + 1)%nat with (S (length pre)) in IH by lia.
    destruct IH as (pcs & Hlen & Ho & Hcalls).
    { unfold order1. simpl. rewrite <- app_assoc. reflexivity. }
    { exact Hval. }
    exists ((p, c) :: pcs). simpl. split; [lia|]. split.
    + rewrite Ho. unfold order1. simpl. rewrite <- app_assoc. reflexivity.
    + constructor; [reflexivity|]. constructor; [reflexivity|]. exact Hcalls.
Qed.

Lemma enrich_products_err (items : list OrderProduct.t) :
  forall (i : nat) (order : Order.t) (w : W) (e : error),
    value (enrich_products (W := W) (bytes := bytes) i items order w) = Err e ->
    e = ErrDataNotFound \/ e = ErrInternal.
Proof.
  induction items as [|op rest IH]; intros i order w e; simpl; [discriminate|].
  unfold bind, invoke. simpl.
  destruct (GetProductByID (OrderProduct.ProductID op) w) as [[p|err] w1]; simpl.
  - destruct (GetCategoryByID (Product.CategoryID p) w1) as [[c|err] w2]; simpl.
    + apply IH.
    + intros [= <-]. apply not_found_or_internal_cases.
  - intros [= <-]. apply not_found_or_internal_cases.
Qed.

(** A successful tail: the record came back enriched, every call
    succeeded, and the last two calls are the prefix deletion and the
    cache write of the serialized record under its id, with TTL 0. *)
Lemma after_persist_ok (created o : Order.t) (w : W) :
  value (after_persist (W := W) (bytes := bytes) created w) = Ok o ->
  exists (u : User.t) (pay : Payment.t) (pcs : list (Product.t * Category.t))
         (serialized : bytes) (before : list (event bytes)),
    length pcs = length (Order.Products created)
    /\ o = Order.set_Products (zip_with attached (Order.Products created) pcs)
             (Order.set_Payment (Some pay) (Order.set_User (Some u) created))
    /\ SerializeOrder o = Ok serialized
    /\ calls (after_persist (W := W) (bytes := bytes) created w)
       = before ++ [Call_CacheDeleteByPrefix "orders:*" None;
                    Call_CacheSet (GenerateCacheKey "order" (Order.ID o)) serialized 0 None]
    /\ Forall (fun e => is_lookup e = true) before
    /\ Forall (fun e => call_failed e = false)
              (calls (after_persist (W := W) (bytes := bytes) created w)).
Proof.
  unfold after_persist, enrich. unfold bind at 1 2 3. unfold invoke at 1 2. simpl.
  destruct (GetUserByID (Order.UserID created) w) as [[u|err] w1]; simpl; [|discriminate].
  destruct (GetPaymentByID (Order.PaymentID created) w1) as [[pay|err] w2]; simpl;
    [|discriminate].
  set (order1 := Order.set_Payment (Some pay) (Order.set_User (Some u) created)).
  pose proof (enrich_products_ok (Order.Products created) [] order1) as Hloop.
  pose proof (enrich_products_calls (Order.Products created) 0%nat order1 w2) as Hlook.
  simpl in Hloop, Hlook.
  destruct (enrich_products 0 (Order.Products created) order1 w2)
    as [[enriched|err] w3 cs] eqn:Hrun; simpl; [|discriminate].
  destruct (Hloop enriched w2 eq_refl) as (pcs & Hlen & Ho & Hcs).
  { rewrite Hrun. reflexivity. }
  rewrite Hrun in Hcs. simpl in Hcs.
  unfold publish, bind, invoke. simpl.
  destruct (CacheDeleteByPrefix "orders:*" w3) as [[err|] w4]; simpl; [discriminate|].
  destruct (SerializeOrder enriched) as [serialized|err] eqn:Hser; simpl; [|discriminate].
  destruct (CacheSet (GenerateCacheKey "order" (Order.ID enriched)) serialized 0 w4)
    as [[err|] w5]; simpl; [discriminate|].
  intros [= <-].
  exists u, pay, pcs, serialized,
    (Call_GetUserByID (Order.UserID created) (Ok u)
     :: Call_GetPaymentByID (Order.PaymentID created) (Ok pay) :: cs).
  split; [exact Hlen|]. split; [exact Ho|]. split; [exact Hser|].
  split; [reflexivity|]. split.
  - constructor; [reflexivity|]. constructor; [reflexivity|]. exact Hlook.
  - constructor; [reflexivity|]. constructor; [reflexivity|].
    apply Forall_app. split; [exact Hcs|].
    constructor; [reflexivity|]. constructor; [reflexivity|]. constructor.
Qed.

Lemma after_persist_err (created : Order.t) (w : W) (e : error) :
  value (after_persist (W := W) (bytes := bytes) created w) = Err e ->
  e = ErrDataNotFound \/ e = ErrInternal.
Proof.
  unfold after_persist, enrich. unfold bind at 1 2 3. unfold invoke at 1 2. simpl.
  destruct (GetUserByID (Order.UserID created) w) as [[u|err] w1]; simpl;
    [|intros [= <-]; apply not_found_or_internal_cases].
  destruct (GetPaymentByID (Order.PaymentID created) w1) as [[pay|err] w2]; simpl;
    [|intros [= <-]; apply not_found_or_internal_cases].
  set (order1 := Order.set_Payment (Some pay) (Order.set_User (Some u) created)).
  pose proof (enrich_products_err (Order.Products created) 0%nat order1 w2) as Hloop.
  destruct (enrich_products 0 (Order.Products created) order1 w2)
    as [[enriched|err] w3 cs] eqn:Hrun; simpl; [|intros [= <-]; apply Hloop; reflexivity].
  unfold publish, bind, invoke. simpl.
  destruct (CacheDeleteByPrefix "orders:*" w3) as [[err|] w4]; simpl;
    [intros [= <-]; auto|].
  destruct (SerializeOrder enriched) as [serialized|err]; simpl; [|intros [= <-]; auto].
  destruct (CacheSet (GenerateCacheKey "order" (Order.ID enriched)) serialized 0 w4)
    as [[err|] w5]; simpl; [intros [= <-]; auto | discriminate].
Qed.

Lemma enrich_products_fails (items : list OrderProduct.t) :
  forall (i : nat) (order : Order.t) (w : W) (e : error),
    value (enrich_products (W := W) (bytes := bytes) i items order w) = Err e ->
    Exists (fun e => call_failed e = true) (calls (enrich_products (W := W) (bytes := bytes) i items order w)).
Proof.
  induction items as [|op rest IH]; intros i order w e; simpl; [discriminate|].
  unfold bind, invoke. simpl.
  destruct (GetProductByID (OrderProduct.ProductID op) w) as [[p|err] w1]; simpl.
  - destruct (GetCategoryByID (Product.CategoryID p) w1) as [[c|err] w2]; simpl.
    + intros H. apply Exists_cons_tl, Exists_cons_tl. eapply IH. exact H.
    + intros _. apply Exists_cons_tl. constructor. reflexivity.
  - intros _. constructor. reflexivity.
Qed.

(** A failed tail: some call failed, or the serialization did and the
    error is Internal. *)
Lemma after_persist_fails (created : Order.t) (w : W) (e : error) :
  value (after_persist (W := W) (bytes := bytes) created w) = Err e ->
  Exists (fun e => call_failed e = true)
         (calls (after_persist (W := W) (bytes := bytes) created w))
  \/ (e = ErrInternal /\ exists o err, SerializeOrder o = Err err).
Proof.
  unfold after_persist, enrich. unfold bind at 1 2 3. unfold invoke at 1 2. simpl.
  destruct (GetUserByID (Order.UserID created) w) as [[u|err] w1]; simpl;
    [|intros _; left; constructor; reflexivity].
  destruct (GetPaymentByID (Order.PaymentID created) w1) as [[pay|err] w2]; simpl;
    [|intros _; left; apply Exists_cons_tl; constructor; reflexivity].
  set (order1 := Order.set_Payment (Some pay) (Order.set_User (Some u) created)).
  pose proof (enrich_products_fails (Order.Products created) 0%nat order1 w2) as Hloop.
  destruct (enrich_products 0 (Order.Products created) order1 w2)
    as [[enriched|err] w3 cs] eqn:Hrun; simpl.
  2:{ intros _. left. apply Exists_cons_tl, Exists_cons_tl.
      rewrite app_nil_r. eapply Hloop. reflexivity. }
  unfold publish, bind, invoke. simpl.
  destruct (CacheDeleteByPrefix "orders:*" w3) as [[err|] w4]; simpl.
  { intros _. left. apply Exists_cons_tl, Exists_cons_tl, Exists_app. right.
    constructor. reflexivity. }
  destruct (SerializeOrder enriched) as [serialized|err] eqn:Hser; simpl.
  2:{ intros [= <-]. right. eauto. }
  destruct (CacheSet (GenerateCacheKey "order" (Order.ID enriched)) serialized 0 w4)
    as [[err|] w5]; simpl; [|discriminate].
  intros _. left. apply Exists_cons_tl, Exists_cons_tl, Exists_app. right.
  apply Exists_cons_tl. constructor. reflexivity.
Qed.

(** CreateOrder laid out along its early returns. *)
Lemma CreateOrder_unfold (order : Order.t) (w : W) :
  let v := validate (W := W) (bytes := bytes) 0 (Order.Products order) order 0 w in
  let r := CreateOrder (W := W) (bytes := bytes) order w in
  match (value v).2 with
  | Err e => value r = ((value v).1, Err e) /\ calls r = calls v /\ final r = final v
  | Ok total =>
      if Order.TotalPaid (value v).1 <? total
      then value r = ((value v).1, Err ErrInsufficientPayment)
           /\ calls r = calls v /\ final r = final v
      else
        let submitted :=
          Order.set_TotalReturn (Order.TotalPaid (value v).1 - total)
            (Order.set_TotalPrice total (value v).1) in
        let c := port.CreateOrder submitted (final v) in
        match c.1 with
        | Err _ =>
            value r = (submitted, Err ErrInternal)
            /\ calls r = calls v ++ [Call_CreateOrder submitted c.1]
            /\ final r = c.2
        | Ok created =>
            let t := after_persist (W := W) (bytes := bytes) created c.2 in
            value r = (submitted, value t)
            /\ calls r = calls v ++ Call_CreateOrder submitted (Ok created) :: calls t
            /\ final r = final t
        end
  end.
Proof.
  cbv zeta. unfold CreateOrder. unfold bind at 1. simpl.
  destruct (validate 0 (Order.Products order) order 0 w) as [[caller [total|e]] w1 cs];
    simpl.
  - destruct (Order.TotalPaid caller <? total); simpl.
    + rewrite app_nil_r. auto.
    + unfold bind at 1. unfold invoke. simpl.
      destruct (port.CreateOrder _ w1) as [[created|err] w2]; simpl.
      * unfold bind. simpl. rewrite app_nil_r. auto.
      * auto.
  - rewrite app_nil_r. auto.
Qed.

End Loops.

(** ** Float facts used at the payment boundary *)

Section FloatFacts.
Local Open Scope float_scope.



End FloatFacts.

(** ** Cache-first read and vacuous update *)

Section Reads.
Context {W bytes : Type}.
Context `{!ProductRepository W, !OrderRepository W, !CategoryRepository W,
          !UserRepository W, !PaymentRepository W,
          !CacheRepository W bytes, !Codec bytes}.
Import service.

(** C7.  When the cache lookup for the order's key succeeds, GetOrder
    makes that one call and no other: no repository is read and nothing
    is written to the cache.  It returns the deserialized order when
    deserialization succeeds and Internal when it fails, without falling
    back to the repository. *)
Theorem GetOrder_cache_hit (id : Z) (w : W) (cachedOrder : bytes) :
  (CacheGet (GenerateCacheKey "order" id) w).1 = Ok cachedOrder ->
  let r := GetOrder (W := W) (bytes := bytes) id w in
  calls r = [Call_CacheGet (GenerateCacheKey "order" id) (Ok cachedOrder)]
  /\ Forall (fun e => is_repo_call e = false /\ is_cache_write e = false) (calls r)
  /\ final r = (CacheGet (GenerateCacheKey "order" id) w).2
  /\ match DeserializeOrder cachedOrder with
     | Ok order => value r = Ok order
     | Err _ => value r = Err ErrInternal
     end.
Proof.
  intros Hhit. cbv zeta. unfold GetOrder, bind, invoke. simpl.
  rewrite Hhit. simpl.
  destruct (DeserializeOrder cachedOrder) as [order|err]; simpl;
    (split; [reflexivity|]; split; [|split; reflexivity]);
    constructor; auto.
Qed.

(** C8.  Updating an existing category with an empty name, or with the
    name it already has, returns NoUpdatedData after the one read of the
    stored category: no repository write and no cache call of any kind
    is made. *)
Theorem UpdateCategory_no_updated_data (category existingCategory : Category.t) (w : W) :
  (GetCategoryByID (Category.ID category) w).1 = Ok existingCategory ->
  Category.Name category = ""%string
  \/ Category.Name existingCategory = Category.Name category ->
  let r := UpdateCategory (W := W) (bytes := bytes) category w in
  value r = Err ErrNoUpdatedData
  /\ calls r = [Call_GetCategoryByID (Category.ID category) (Ok existingCategory)]
  /\ Forall (fun e => is_mutation e = false) (calls r)
  /\ final r = (GetCategoryByID (Category.ID category) w).2.
Proof.
  intros Hget Hsame. cbv zeta. unfold UpdateCategory, bind, invoke. simpl.
  rewrite Hget. simpl.
  assert (Hgate : bool_decide (Category.Name category = ""%string)
                  || bool_decide (Category.Name existingCategory = Category.Name category)
                  = true).
  { destruct Hsame as [He|He].
    - rewrite (bool_decide_eq_true_2 _ He). reflexivity.
    - rewrite (bool_decide_eq_true_2 _ He). apply orb_true_r. }
  rewrite Hgate. simpl.
  split; [reflexivity|]. split; [reflexivity|]. split; [|reflexivity].
  constructor; auto.
Qed.

End Reads.

Lemma GetOrder_cache_hit_witness :
  let r := service.GetOrder 7 shop.w_hit in
  calls r = [Call_CacheGet (GenerateCacheKey "order" 7) (Ok (mem.BOrder shop.o_seven))]
  /\ Forall (fun e => is_repo_call e = false /\ is_cache_write e = false) (calls r)
  /\ final r = (CacheGet (bytes := mem.blob) (GenerateCacheKey "order" 7) shop.w_hit).2
  /\ value r = Ok shop.o_seven.
Proof.
  assert (Hhit : (CacheGet (bytes := mem.blob) (GenerateCacheKey "order" 7) shop.w_hit).1
                 = Ok (mem.BOrder shop.o_seven)) by (vm_compute; reflexivity).
  exact (GetOrder_cache_hit 7 shop.w_hit (mem.BOrder shop.o_seven) Hhit).
Defined.

Lemma UpdateCategory_no_updated_data_witness :
  let r := service.UpdateCategory (bytes := mem.blob) (Category.Build 1 "drinks") shop.w0 in
  value r = Err ErrNoUpdatedData
  /\ calls r = [Call_GetCategoryByID 1 (Ok shop.drinks)]
  /\ Forall (fun e => is_mutation e = false) (calls r)
  /\ final r = (GetCategoryByID 1 shop.w0).2.
Proof.
  apply (UpdateCategory_no_updated_data (Category.Build 1 "drinks") shop.drinks shop.w0).
  - vm_compute. reflexivity.
  - right. reflexivity.
Defined.

(** C9.  ListPayments computes the offset as (skip - 1) * limit in
    unsigned 64-bit arithmetic.  With skip = 0 and a positive limit the
    subtraction wraps and the offset is 2^64 - limit, so a table with no
    more rows than that yields the empty page; skip = 1 is the first page
    and, as long as the product does not overflow, skip = k is the k-th:
    skip is a 1-based page number. *)
Theorem ListPayments_offset_wraps (limit : Z) :
  0 < limit < 2 ^ 64 ->
  repository.ListPayments_offset 0 limit = 2 ^ 64 - limit
  /\ (forall table : list Payment.t,
         Z.of_nat (length table) <= 2 ^ 64 - limit ->
         repository.ListPayments table 0 limit = [])
  /\ repository.ListPayments_offset 1 limit = 0
  /\ (forall table : list Payment.t,
         repository.ListPayments table 1 limit = take (Z.to_nat limit) table)
  /\ (forall skip : Z,
         1 <= skip < 2 ^ 64 -> (skip - 1) * limit < 2 ^ 64 ->
         repository.ListPayments_offset skip limit = (skip - 1) * limit).
Proof.
  intros Hlimit.
  assert (Hzero : repository.ListPayments_offset 0 limit = 2 ^ 64 - limit).
  { unfold repository.ListPayments_offset, u64_mul, u64_sub, u64.
    change ((0 - 1) mod 2 ^ 64) with (2 ^ 64 - 1).
    symmetry. apply (Z.mod_unique_pos _ _ (limit - 1)); lia. }
  assert (Hone : repository.ListPayments_offset 1 limit = 0).
  { unfold repository.ListPayments_offset, u64_mul, u64_sub, u64.
    change ((1 - 1) mod 2 ^ 64) with 0. reflexivity. }
  split; [exact Hzero|]. split; [|split; [exact Hone|split]].
  - intros table Hrows. unfold repository.ListPayments, repository.window.
    rewrite Hzero, drop_ge by lia. apply take_nil.
  - intros table. unfold repository.ListPayments, repository.window.
    rewrite Hone. reflexivity.
  - intros skip Hskip Hfit.
    unfold repository.ListPayments_offset, u64_mul, u64_sub, u64.
    rewrite (Z.mod_small (skip - 1)) by lia.
    apply Z.mod_small. nia.
Qed.

Lemma ListPayments_offset_wraps_witness :
  repository.ListPayments_offset 0 10 = 2 ^ 64 - 10
  /\ repository.ListPayments shop.payments_table 0 10 = []
  /\ repository.ListPayments shop.payments_table 1 10 = shop.payments_table.
Proof.
  assert (Hlimit : 0 < 10 < 2 ^ 64) by lia.
  destruct (ListPayments_offset_wraps 10 Hlimit) as (Hoff & Hempty & _ & Hfirst & _).
  split; [exact Hoff|]. split.
  - apply Hempty. simpl. lia.
  - rewrite Hfirst. reflexivity.
Defined.

(** ** CreateOrder *)

Section Create.
Context {W bytes : Type}.
Context `{!ProductRepository W, !OrderRepository W, !CategoryRepository W,
          !UserRepository W, !PaymentRepository W,
          !CacheRepository W bytes, !Codec bytes}.
Import service.
Local Open Scope float_scope.

Lemma validate_ok (order caller : Order.t) (total : float) (w : W) :
  value (validate (W := W) (bytes := bytes) 0 (Order.Products order) order 0 w)
  = (caller, Ok total) ->
  exists ps : list Product.t,
    length ps = length (Order.Products order)
    /\ Forall2 in_stock (Order.Products order) ps
    /\ caller = Order.set_Products (zip_with priced (Order.Products order) ps) order
    /\ calls (validate (W := W) (bytes := bytes) 0 (Order.Products order) order 0 w)
       = fetches (Order.Products order) ps
    /\ total = sum_totals (zip_with priced (Order.Products order) ps).
Proof.
  intros Hval.
  destruct (validate_spec (bytes := bytes) (Order.Products order) [] order 0 w eq_refl)
    as (ps & Hlen & Hstock & Hcaller & Hout).
  simpl in Hlen, Hstock, Hcaller, Hout. rewrite Hval in Hcaller, Hout. simpl in *.
  destruct Hout as [(Hall & Hcalls & Htot) | (op & reply & _ & _ & [(err & _ & H) | (p & _ & _ & H)])];
    [|discriminate..].
  exists ps. split; [exact Hall|]. split.
  - rewrite take_ge in Hstock by lia. exact Hstock.
  - split; [|split; [exact Hcalls | ]].
    + rewrite Hcaller, Hall, drop_all, app_nil_r. reflexivity.
    + injection Htot as ->. reflexivity.
Qed.

Lemma fetches_reads (items : list OrderProduct.t) (ps : list Product.t) :
  Forall (fun e : event bytes => exists id p, e = Call_GetProductByID id (Ok p))
         (fetches items ps).
Proof.
  revert ps. induction items as [|op items IH]; intros [|p ps]; simpl;
    constructor; eauto.
Qed.

Lemma forallb_attached (lines : list OrderProduct.t) (pcs : list (Product.t * Category.t)) :
  forallb line_enriched (zip_with attached lines pcs) = true.
Proof.
  revert pcs. induction lines as [|op lines IH]; intros [|pc pcs]; simpl; auto.
Qed.

Lemma totals_attached (lines : list OrderProduct.t) (pcs : list (Product.t * Category.t)) :
  length pcs = length lines ->
  map OrderProduct.TotalPrice (zip_with attached lines pcs)
  = map OrderProduct.TotalPrice lines.
Proof.
  revert pcs. induction lines as [|op lines IH]; intros [|pc pcs]; simpl;
    try discriminate; auto.
  intros [= Hlen]. f_equal. apply IH. exact Hlen.
Qed.

(** A successful CreateOrder, stage by stage. *)
Lemma CreateOrder_ok (order created : Order.t) (w : W) :
  (value (CreateOrder (W := W) (bytes := bytes) order w)).2 = Ok created ->
  exists (ps : list Product.t) (w1 : W) (reply : Order.t),
    let lines := zip_with priced (Order.Products order) ps in
    let submitted :=
      Order.set_TotalReturn (Order.TotalPaid order - sum_totals lines)
        (Order.set_TotalPrice (sum_totals lines) (Order.set_Products lines order)) in
    length ps = length (Order.Products order)
    /\ Forall2 in_stock (Order.Products order) ps
    /\ (Order.TotalPaid order <? sum_totals lines) = false
    /\ (value (CreateOrder (W := W) (bytes := bytes) order w)).1 = submitted
    /\ value (after_persist (W := W) (bytes := bytes) reply w1) = Ok created
    /\ calls (CreateOrder (W := W) (bytes := bytes) order w)
       = fetches (Order.Products order) ps
         ++ Call_CreateOrder submitted (Ok reply)
         :: calls (after_persist (W := W) (bytes := bytes) reply w1).
Proof.
  intros Hok.
  pose proof (CreateOrder_unfold order w) as Hu. cbv zeta in Hu.
  remember (CreateOrder (W := W) (bytes := bytes) order w) as r eqn:Hr.
  destruct (validate 0 (Order.Products order) order 0 w) as [[caller res] w0 cs] eqn:Hv.
  assert (Hval0 : value (validate (W := W) (bytes := bytes) 0 (Order.Products order) order 0 w)
                  = (caller, res)) by (rewrite Hv; reflexivity).
  assert (Hcs : calls (validate (W := W) (bytes := bytes) 0 (Order.Products order) order 0 w)
                = cs) by (rewrite Hv; reflexivity).
  cbn [value calls final fst snd] in Hu.
  destruct res as [total|e].
  2:{ destruct Hu as (Hval & _). rewrite Hval in Hok. discriminate. }
  destruct (validate_ok order caller total w Hval0) as (ps & Hlen & Hstock & -> & Hcalls & ->).
  cbn [Order.TotalPaid Order.set_Products] in Hu.
  destruct (Order.TotalPaid order <? _) eqn:Hpaid.
  { destruct Hu as (Hval & _). rewrite Hval in Hok. discriminate. }
  destruct (port.CreateOrder _ w0) as [[reply|err] w1] eqn:Hrepo; cbn [fst snd] in Hu.
  2:{ destruct Hu as (Hval & _). rewrite Hval in Hok. discriminate. }
  destruct Hu as (Hval & Hc & _).
  exists ps, w1, reply. cbv zeta.
  split; [exact Hlen|]. split; [exact Hstock|]. split; [exact Hpaid|].
  split; [rewrite Hval; reflexivity|]. split.
  - rewrite Hval in Hok. exact Hok.
  - rewrite Hc, <- Hcs, Hcalls. reflexivity.
Qed.

(** C4.  No execution of CreateOrder, successful or not, calls a write
    method of the product repository; and when the other port methods
    leave product stock alone, the stock of every product is the same
    after CreateOrder as before it. *)
Theorem CreateOrder_leaves_stock (order : Order.t) (w : W) :
  let r := CreateOrder (W := W) (bytes := bytes) order w in
  Forall (fun e => is_product_write e = false) (calls r)
  /\ (product_frame (bytes := bytes) ->
      forall id : Z, stock_of (final r) id = stock_of w id).
Proof.
  cbv zeta. split.
  - eapply Forall_impl; [apply CreateOrder_calls|].
    intros e [He | [(o & r & ->) | [(r & ->) | (k & v & r & ->)]]]; try reflexivity.
    destruct e; simpl in *; congruence.
  - intros Hframe id.
    apply (CreateOrder_keeps (fun w => stock_of w id) order (Hframe id) w).
Qed.

Lemma split_at_unique {A} (P : A -> bool) (l1 l2 l1' l2' : list A) (a a' : A) :
  Forall (fun x => P x = false) l1 ->
  Forall (fun x => P x = false) l2 ->
  P a' = true ->
  l1 ++ a :: l2 = l1' ++ a' :: l2' ->
  l1' = l1 /\ a' = a /\ l2' = l2.
Proof.
  intros H1 H2 Ha'. revert l1'.
  induction H1 as [|x l1 Hx H1 IH]; intros [|y l1']; simpl; intros Heq.
  - injection Heq as -> ->. auto.
  - injection Heq as -> ->. exfalso.
    apply Forall_app in H2. destruct H2 as [_ H2].
    apply Forall_cons in H2. destruct H2 as [H2 _]. congruence.
  - injection Heq as -> _. congruence.
  - injection Heq as -> Heq. destruct (IH l1' Heq) as (-> & -> & ->). auto.
Qed.

(** Once the order repository has accepted the order, no later call
    goes to the order repository or writes a product, and a failure of any
    later call makes CreateOrder return NotFound or Internal; a success
    means every later call and the serialization succeeded, and an error
    without a failed call is a failed serialization. *)
Lemma CreateOrder_after_write (order submitted reply : Order.t) (w : W)
      (before rest : list (event bytes)) :
  calls (CreateOrder (W := W) (bytes := bytes) order w)
  = before ++ Call_CreateOrder submitted (Ok reply) :: rest ->
  let r := CreateOrder (W := W) (bytes := bytes) order w in
  Forall (fun e => is_order_call e = false /\ is_product_write e = false) rest
  /\ (Exists (fun e => call_failed e = true) rest ->
      (value r).2 = Err ErrDataNotFound \/ (value r).2 = Err ErrInternal)
  /\ (forall created,
         (value r).2 = Ok created ->
         Forall (fun e => call_failed e = false) rest
         /\ is_ok (SerializeOrder created) = true)
  /\ (forall e,
         (value r).2 = Err e ->
         Forall (fun e => call_failed e = false) rest ->
         e = ErrInternal /\ exists o err, SerializeOrder o = Err err).
Proof.
  intros Hcalls. cbv zeta.
  pose proof (CreateOrder_unfold order w) as Hu. cbv zeta in Hu.
  pose proof (validate_calls (bytes := bytes) (Order.Products order) 0%nat order 0%float w) as Hreads.
  remember (CreateOrder (W := W) (bytes := bytes) order w) as r eqn:Hr.
  assert (Hnone : calls r = calls (validate (W := W) (bytes := bytes) 0
                                     (Order.Products order) order 0 w) -> False).
  { intros Hc. rewrite Hc in Hcalls. rewrite Hcalls in Hreads.
    apply Forall_app in Hreads. destruct Hreads as [_ Hreads].
    apply Forall_cons in Hreads. destruct Hreads as [(id & rp & Hbad) _]. discriminate. }
  assert (Hfree : Forall (fun e : event bytes => is_order_call e = false)
                    (calls (validate (W := W) (bytes := bytes) 0
                              (Order.Products order) order 0 w))).
  { eapply Forall_impl; [exact Hreads|]. intros e (id & rp & ->). reflexivity. }
  destruct ((value (validate 0 (Order.Products order) order 0 w)).2) as [total|e].
  2:{ destruct Hu as (_ & Hc & _). destruct (Hnone Hc). }
  destruct (Order.TotalPaid _ <? total).
  { destruct Hu as (_ & Hc & _). destruct (Hnone Hc). }
  destruct (port.CreateOrder _ _) as [[created0|err] w1]; cbn [fst snd] in Hu.
  - destruct Hu as (Hval & Hc & _).
    pose proof (after_persist_calls created0 w1) as Htail.
    rewrite Hc in Hcalls.
    apply split_at_unique with (P := is_order_call) in Hcalls; [| exact Hfree | | reflexivity].
    2:{ eapply Forall_impl; [exact Htail|]. intros e [_ He]. exact He. }
    destruct Hcalls as (_ & Hev & ->). injection Hev as _ ->.
    split; [|split; [|split]].
    + eapply Forall_impl; [exact Htail|]. intros e [Hcall He]. split; [exact He|].
      destruct Hcall as [Hl | [(o & rp & ->) | [(rp & ->) | (k & v & rp & ->)]]];
        try reflexivity.
      destruct e; simpl in *; congruence.
    + intros Hex. rewrite Hval. cbn [snd].
      destruct (value (after_persist created0 w1)) as [o|e] eqn:Ht.
      * exfalso. destruct (after_persist_ok created0 o w1 Ht)
          as (_ & _ & _ & _ & _ & _ & _ & _ & _ & _ & Hclean).
        apply Exists_exists in Hex. destruct Hex as (e & Hin & Hfail).
        rewrite Forall_forall in Hclean. rewrite (Hclean e Hin) in Hfail. discriminate.
      * destruct (after_persist_err created0 w1 e Ht) as [-> | ->]; auto.
    + intros created Hok. rewrite Hval in Hok. cbn [snd] in Hok.
      destruct (after_persist_ok created0 created w1 Hok)
        as (_ & _ & _ & ser & _ & _ & _ & Hser & _ & _ & Hclean).
      split; [exact Hclean|]. rewrite Hser. reflexivity.
    + intros e Herr Hclean. rewrite Hval in Herr. cbn [snd] in Herr.
      destruct (after_persist_fails created0 w1 e Herr) as [Hex|Hser]; [|exact Hser].
      exfalso. apply Exists_exists in Hex. destruct Hex as (ev & Hin & Hfail).
      rewrite Forall_forall in Hclean. rewrite (Hclean ev Hin) in Hfail. discriminate.
  - destruct Hu as (_ & Hc & _). exfalso.
    rewrite Hc in Hcalls.
    apply split_at_unique with (P := is_order_call) in Hcalls;
      [| exact Hfree | constructor | reflexivity].
    destruct Hcalls as (_ & Hev & _). discriminate.
Qed.

(** *** Validation against a product repository with pure reads *)

Lemma validate_over_stock (Hpure : pure_product_reads (W := W))
      (op : OrderProduct.t) (post : list OrderProduct.t) (p : Product.t) (w : W) :
  (GetProductByID (OrderProduct.ProductID op) w).1 = Ok p ->
  (Product.Stock p < OrderProduct.Quantity op)%Z ->
  forall (pre : list OrderProduct.t) (i : nat) (order : Order.t) (total : float),
  exists e : error,
    (value (validate (W := W) (bytes := bytes) i (pre ++ op :: post) order total w)).2 = Err e
    /\ (e = ErrInsufficientStock \/ e = ErrDataNotFound \/ e = ErrInternal)
    /\ ((forall op', In op' pre ->
                     is_ok (GetProductByID (OrderProduct.ProductID op') w).1 = true) ->
        e = ErrInsufficientStock).
Proof.
  intros Hget Hover.
  induction pre as [|a pre IH]; intros i order total.
  - simpl.
    unfold bind, invoke. simpl. rewrite Hget. simpl.
    apply Z.ltb_lt in Hover. rewrite Hover. simpl.
    exists ErrInsufficientStock. auto.
  - cbn [app validate]. unfold bind at 1. unfold invoke at 1. cbn [value final calls fst snd].
    pose proof (Hpure (OrderProduct.ProductID a) w) as Hsame. simpl in Hsame.
    destruct (GetProductByID (OrderProduct.ProductID a) w) as [[pa|err] w1] eqn:Ha;
      simpl in *.
    + destruct (Product.Stock pa <? OrderProduct.Quantity a)%Z; simpl.
      * exists ErrInsufficientStock. auto.
      * subst w1.
        destruct (IH (S i)
                     (Order.set_Products
                        (alter (OrderProduct.set_TotalPrice
                                  (Product.Price pa
                                   * float64_of_int64 (OrderProduct.Quantity a)))
                               i (Order.Products order)) order)
                     (total + line_total
                                (Order.set_Products
                                   (alter (OrderProduct.set_TotalPrice
                                             (Product.Price pa
                                              * float64_of_int64 (OrderProduct.Quantity a)))
                                          i (Order.Products order)) order) i))
          as (e & He & Hcases & Honly).
        exists e. split; [rewrite Ha; exact He|]. split; [exact Hcases|].
        intros Hall. apply Honly. intros op' Hin. apply Hall. right. exact Hin.
    + exists (not_found_or_internal err). split; [reflexivity|]. split.
      * destruct (not_found_or_internal_cases err) as [-> | ->]; auto.
      * intros Hall. specialize (Hall a (or_introl eq_refl)).
        rewrite Ha in Hall. discriminate.
Qed.

Lemma validate_in_stock (Hpure : pure_product_reads (W := W)) (w : W)
      (items : list OrderProduct.t) :
  (forall op, In op items ->
              exists p, (GetProductByID (OrderProduct.ProductID op) w).1 = Ok p
                        /\ (OrderProduct.Quantity op <= Product.Stock p)%Z) ->
  forall (i : nat) (order : Order.t) (total : float),
  exists t : float,
    (value (validate (W := W) (bytes := bytes) i items order total w)).2 = Ok t.
Proof.
  induction items as [|a items IH]; intros Hall i order total.
  - simpl. eauto.
  - cbn [app validate]. unfold bind at 1. unfold invoke at 1. cbn [value final calls fst snd].
    pose proof (Hpure (OrderProduct.ProductID a) w) as Hsame. simpl in Hsame.
    destruct (Hall a (or_introl eq_refl)) as (p & Hget & Hq).
    destruct (GetProductByID (OrderProduct.ProductID a) w) as [reply w1] eqn:Ha;
      simpl in *. subst reply w1.
    apply Z.ltb_ge in Hq. rewrite Hq. simpl. rewrite Ha. cbn [snd].
    apply IH. intros op Hin. apply Hall. right. exact Hin.
Qed.

(** C10.  CreateOrder writes into the caller's order while it validates.
    There are products [ps], those fetched for the line items that passed
    the stock check, such that in the caller's object the first
    [length ps] lines carry price * quantity as their total and the
    remaining lines are untouched.  When the call fails with
    InsufficientPayment every line has been written, and when it fails on
    a later line (stock or fetch) the lines before it have; in both cases
    the run consists of product reads only, so against pure reads the
    world is unchanged. *)
Theorem CreateOrder_writes_line_totals (order : Order.t) (w : W) :
  let r := CreateOrder (W := W) (bytes := bytes) order w in
  let lines := Order.Products order in
  exists ps : list Product.t,
    (length ps <= length lines)%nat
    /\ Forall2 in_stock (take (length ps) lines) ps
    /\ Order.Products (value r).1 = zip_with priced lines ps ++ drop (length ps) lines
    /\ fetches lines ps `prefix_of` calls r
    /\ ((value r).2 = Err ErrInsufficientPayment ->
        length ps = length lines /\ calls r = fetches lines ps)
    /\ ((length ps < length lines)%nat ->
        exists op reply,
          lines !! length ps = Some op
          /\ calls r = fetches lines ps
                       ++ [Call_GetProductByID (OrderProduct.ProductID op) reply]
          /\ ((exists err, reply = Err err
                           /\ (value r).2 = Err (not_found_or_internal err))
              \/ (exists p, reply = Ok p
                            /\ (Product.Stock p < OrderProduct.Quantity op)%Z
                            /\ (value r).2 = Err ErrInsufficientStock)))
    /\ (pure_product_reads (W := W) ->
        (value r).2 = Err ErrInsufficientPayment \/ (length ps < length lines)%nat ->
        final r = w).
Proof.
  cbv zeta.
  pose proof (CreateOrder_unfold order w) as Hu. cbv zeta in Hu.
  destruct (validate_spec (bytes := bytes) (Order.Products order) [] order 0 w eq_refl)
    as (ps & Hlen & Hstock & Hcaller & Hout).
  cbv zeta in Hcaller, Hout. simpl in Hlen, Hstock, Hcaller, Hout.
  remember (CreateOrder (W := W) (bytes := bytes) order w) as r eqn:Hr.
  assert (Hkeep : pure_product_reads (W := W) ->
                  final (validate (W := W) (bytes := bytes) 0
                           (Order.Products order) order 0 w) = w).
  { intros Hpure.
    apply (validate_keeps (bytes := bytes) (fun w => w) (Order.Products order) Hpure). }
  exists ps. split; [exact Hlen|]. split; [exact Hstock|].
  destruct Hout as [(Hall & Hcalls & Hval)
                   | (op & reply & Hlook & Hcalls & Hwhy)].
  - rewrite Hval in Hu.
    destruct (Order.TotalPaid _ <? _) eqn:Hpaid.
    + destruct Hu as (Hr1 & Hc & Hf). rewrite Hr1, Hc, Hcalls. cbn [fst snd].
      split; [rewrite Hcaller; reflexivity|]. split; [exists []; rewrite app_nil_r; reflexivity|].
      split; [auto|]. split; [lia|]. intros Hpure _. rewrite Hf. auto.
    + assert (Hshape : Order.Products (value r).1
                       = zip_with priced (Order.Products order) ps
                         ++ drop (length ps) (Order.Products order)
                       /\ fetches (Order.Products order) ps `prefix_of` calls r
                       /\ (value r).2 <> Err ErrInsufficientPayment).
      { destruct (port.CreateOrder _ _) as [[created|err] w1]; cbn [fst snd] in Hu;
          destruct Hu as (Hr1 & Hc & _); rewrite Hr1, Hc, Hcalls; cbn [fst snd].
        - split; [rewrite Hcaller; reflexivity|]. split; [eexists; reflexivity|].
          intros Hbad. apply after_persist_err in Hbad. destruct Hbad; discriminate.
        - split; [rewrite Hcaller; reflexivity|]. split; [eexists; reflexivity|].
          discriminate. }
      destruct Hshape as (Hp & Hpre & Hnot).
      split; [exact Hp|]. split; [exact Hpre|].
      split; [intros Hbad; destruct (Hnot Hbad)|]. split; [lia|].
      intros _ [Hbad | Hlt]; [destruct (Hnot Hbad) | lia].
  - assert (Hlt : (length ps < length (Order.Products order))%nat)
      by (eapply lookup_lt_Some; exact Hlook).
    assert (Herr : exists e, (value (validate (W := W) (bytes := bytes) 0
                                       (Order.Products order) order 0 w)).2 = Err e
                             /\ e <> ErrInsufficientPayment).
    { destruct Hwhy as [(err & _ & Hv) | (p & _ & _ & Hv)]; rewrite Hv.
      - eexists. split; [reflexivity|].
        destruct (not_found_or_internal_cases err) as [-> | ->]; discriminate.
      - eexists. split; [reflexivity|]. discriminate. }
    destruct Herr as (e & He & Hne).
    rewrite He in Hu, Hwhy. destruct Hu as (Hr1 & Hc & Hf).
    rewrite Hr1, Hc, Hcalls. cbn [fst snd].
    split; [rewrite Hcaller; reflexivity|]. split; [eexists; reflexivity|].
    split; [intros [= Hbad]; destruct (Hne Hbad)|]. split.
    + intros _. exists op, reply. split; [exact Hlook|]. split; [reflexivity|].
      destruct Hwhy as [(err & Hrep & [= ->]) | (p & Hrep & Hs & [= ->])];
        [left; eauto | right; eauto].
    + intros Hpure _. rewrite Hf. auto.
Qed.

End Create.

(** C5.  CreateOrder can leave an order durably persisted and still
    return an error.  In the shop with the cache server down, a valid
    order is written by the order repository, the reads that follow
    succeed, the prefix deletion fails, and CreateOrder returns Internal
    while the order stays in the orders table.  In general, once the
    order repository has accepted the order, no later call goes back to
    the order repository, so the committed order is left in place, and a
    failure of any later call (a user, payment, product or category read,
    the prefix deletion, the cache write) makes CreateOrder return
    NotFound or Internal; success requires every later call and the
    serialization to succeed, and an error after calls that all
    succeeded is the Internal of a failed serialization. *)
Theorem CreateOrder_partial_success :
  (let r := service.CreateOrder (bytes := mem.blob) shop.o_exact shop.w_cache_down in
   (value r).2 = Err ErrInternal
   /\ calls r = Call_GetProductByID 1 (Ok shop.tea)
                :: Call_CreateOrder (value r).1 (Ok shop.persisted_exact)
                :: shop.calls_after_write
   /\ last (calls r) = Some (Call_CacheDeleteByPrefix "orders:*" (Some mem.cache_down))
   /\ mem.orders shop.w_cache_down !! Order.ID shop.persisted_exact = None
   /\ mem.orders (final r) !! Order.ID shop.persisted_exact = Some shop.persisted_exact)
  /\ (forall (W bytes : Type)
             (products : ProductRepository W) (orders : OrderRepository W)
             (categories : CategoryRepository W) (users : UserRepository W)
             (payments : PaymentRepository W) (cache : CacheRepository W bytes)
             (codec : Codec bytes)
             (order submitted reply : Order.t) (w : W)
             (before rest : list (event bytes)),
         let r := service.CreateOrder (W := W) (bytes := bytes) order w in
         calls r = before ++ Call_CreateOrder submitted (Ok reply) :: rest ->
         Forall (fun e => is_order_call e = false /\ is_product_write e = false) rest
         /\ (Exists (fun e => call_failed e = true) rest ->
             (value r).2 = Err ErrDataNotFound \/ (value r).2 = Err ErrInternal)
         /\ (forall created,
                (value r).2 = Ok created ->
                Forall (fun e => call_failed e = false) rest
                /\ is_ok (SerializeOrder created) = true)
         /\ (forall e,
                (value r).2 = Err e ->
                Forall (fun e => call_failed e = false) rest ->
                e = ErrInternal /\ exists o err, SerializeOrder o = Err err)).
Proof.
  split.
  - vm_compute. repeat split; auto.
  - intros W bytes products orders categories users payments cache codec
           order submitted reply w before rest r Hcalls.
    exact (CreateOrder_after_write order submitted reply w before rest Hcalls).
Qed.

Lemma CreateOrder_partial_success_witness :
  let r := service.CreateOrder (bytes := mem.blob) shop.o_exact shop.w_cache_down in
  (value r).2 = Err ErrDataNotFound \/ (value r).2 = Err ErrInternal.
Proof.
  destruct CreateOrder_partial_success as [_ Hgen].
  refine (proj1 (proj2 (Hgen mem.store mem.blob _ _ _ _ _ _ _ shop.o_exact
                              (value (service.CreateOrder (bytes := mem.blob)
                                        shop.o_exact shop.w_cache_down)).1
                              shop.persisted_exact shop.w_cache_down
                              [Call_GetProductByID 1 (Ok shop.tea)]
                              shop.calls_after_write _)) _).
  - vm_compute. reflexivity.
  - vm_compute. do 4 apply Exists_cons_tl. constructor. reflexivity.
Defined.

(** ** Concrete runs in the shop *)

Lemma mem_pure_product_reads : pure_product_reads (W := mem.store).
Proof. intros id w. reflexivity. Defined.

Lemma mem_product_frame : product_frame (W := mem.store) (bytes := mem.blob).
Proof.
  intros id. repeat split; intros; intros w; simpl; try reflexivity;
    destruct (mem.cache_up w); reflexivity.
Defined.

Lemma CreateOrder_leaves_stock_witness :
  stock_of (final (service.CreateOrder (bytes := mem.blob) shop.o_change shop.w0)) 1
  = stock_of shop.w0 1
  /\ stock_of shop.w0 1 = Some 5.
Proof.
  split.
  - exact (proj2 (CreateOrder_leaves_stock shop.o_change shop.w0) mem_product_frame 1).
  - vm_compute. reflexivity.
Defined.

(** C1 as the specification words it does not hold on this order: its
    second line asks for six units against a stock of five, yet
    CreateOrder fails with NotFound, the error of the first line's
    missing product. *)
Lemma CreateOrder_over_stock_not_found :
  let r := service.CreateOrder (bytes := mem.blob) shop.o_missing_then_over shop.w0 in
  (exists op p,
      In op (Order.Products shop.o_missing_then_over)
      /\ (GetProductByID (OrderProduct.ProductID op) shop.w0).1 = Ok p
      /\ (Product.Stock p < OrderProduct.Quantity op)%Z)
  /\ (value r).2 = Err ErrDataNotFound
  /\ (value r).2 <> Err ErrInsufficientStock.
Proof.
  cbv zeta. split; [|split].
  - exists (shop.line 1 6), shop.tea. split; [right; left; reflexivity|].
    split; [vm_compute; reflexivity | vm_compute; reflexivity].
  - vm_compute. reflexivity.
  - vm_compute. discriminate.
Qed.

Lemma CreateOrder_writes_line_totals_witness :
  let r := service.CreateOrder (bytes := mem.blob) shop.o_short shop.w0 in
  (value r).2 = Err ErrInsufficientPayment
  /\ Order.Products shop.o_short = [shop.line 1 3]
  /\ Order.Products (value r).1 = shop.priced_lines
  /\ final r = shop.w0.
Proof.
  cbv zeta.
  assert (Hfail : (value (service.CreateOrder (bytes := mem.blob) shop.o_short shop.w0)).2
                  = Err ErrInsufficientPayment) by (vm_compute; reflexivity).
  destruct (CreateOrder_writes_line_totals shop.o_short shop.w0)
    as (ps & _ & _ & _ & _ & _ & _ & Hworld).
  split; [exact Hfail|]. split; [reflexivity|]. split; [vm_compute; reflexivity|].
  apply Hworld; [exact mem_pure_product_reads | left; exact Hfail].
Defined.

(** ** The scenarios of the specification, run in the shop *)

(** Stock 5, quantity 6: InsufficientStock, one product read, the shop
    unchanged. *)
Example scenario_over_stock :
  let r := shop.run_create shop.o_over in
  (value r).2 = Err ErrInsufficientStock
  /\ calls r = [Call_GetProductByID 1 (Ok shop.tea)]
  /\ final r = shop.w0.
Proof. cbv zeta. repeat split; vm_compute; reflexivity. Qed.

(** Stock 5, quantity 3, price 10, paid 40: created with total 30 and
    change 10; the cached first page of the order list is gone and the
    order is cached under its id. *)
Example scenario_change :
  let r := shop.run_create shop.o_change in
  (value r).2 = Ok shop.created_change
  /\ Order.TotalPrice shop.created_change = 30%float
  /\ Order.TotalReturn shop.created_change = 10%float
  /\ mem.cache (final r) !! "orders:1-10"%string = None
  /\ mem.cache (final r) !! "order:1"%string = Some (mem.BOrder shop.created_change)
  /\ stock_of (final r) 1 = Some 5.
Proof. cbv zeta. repeat split; vm_compute; reflexivity. Qed.

(** Paid exactly 30: created, with change zero.  Quantity equal to the
    stock: created as well. *)
Example scenario_boundaries :
  (exists o, (value (shop.run_create shop.o_exact)).2 = Ok o
             /\ Order.TotalReturn o = 0%float)
  /\ is_ok (value (shop.run_create shop.o_all_stock)).2 = true.
Proof.
  split.
  - eexists. split; vm_compute; reflexivity.
  - vm_compute. reflexivity.
Qed.

(** A cache entry under an order key that does not deserialize to an
    order: Internal, and the order repository is not consulted. *)
Example scenario_garbled_cache :
  let r := service.GetOrder 7 shop.w_garbled in
  value r = Err ErrInternal
  /\ calls r = [Call_CacheGet "order:7" (Ok (mem.BCategory shop.drinks))].
Proof. cbv zeta. split; vm_compute; reflexivity. Qed.

(** Renaming a category to a new name goes through: one repository
    write, then the three cache calls. *)
Example scenario_rename :
  let r := service.UpdateCategory (bytes := mem.blob) (Category.Build 1 "hot drinks") shop.w0 in
  value r = Ok (Category.Build 1 "hot drinks")
  /\ map is_mutation (calls r) = [false; true; true; true; true].
Proof. cbv zeta. split; vm_compute; reflexivity. Qed.

(** ** Further properties of CreateOrder *)

Section CreateMore.
Context {W bytes : Type}.
Context `{!ProductRepository W, !OrderRepository W, !CategoryRepository W,
          !UserRepository W, !PaymentRepository W,
          !CacheRepository W bytes, !Codec bytes}.
Import service.
Local Open Scope float_scope.

(** The enrichment loop, exactly: on success it has read, line by line,
    the product and then its category, and attached them. *)
Lemma enrich_products_trace (items pre : list OrderProduct.t) :
  forall (order o : Order.t) (w : W),
    Order.Products order = pre ++ items ->
    value (enrich_products (W := W) (bytes := bytes) (length pre) items order w) = Ok o ->
    exists pcs : list (Product.t * Category.t),
      length pcs = length items
      /\ o = Order.set_Products (pre ++ zip_with attached items pcs) order
      /\ calls (enrich_products (W := W) (bytes := bytes) (length pre) items order w)
         = enrichment_calls items pcs.
Proof.
  revert pre.
  induction items as [|op rest IH]; intros pre order o w Hprod; simpl.
  - intros [= <-]. exists []. simpl. split; [reflexivity|]. split; [|reflexivity].
    rewrite app_nil_r in Hprod |- *. rewrite <- Hprod. destruct order; reflexivity.
  - unfold bind, invoke. simpl.
    destruct (GetProductByID (OrderProduct.ProductID op) w) as [[p|err] w1]; simpl;
      [|discriminate].
    destruct (GetCategoryByID (Product.CategoryID p) w1) as [[c|err] w2]; simpl;
      [|discriminate].
    rewrite Hprod, alter_middle. simpl. rewrite alter_middle. simpl.
    set (order1 := Order.set_Products (pre ++ _ :: rest) _).
    intros Hval.
    specialize (IH (pre ++ [attached op (p, c)]) order1 o w2).
    rewrite length_app in IH. simpl in IH.
    replace (length pre + 1)%nat with (S (length pre)) in IH by lia.
    destruct IH as (pcs & Hlen & Ho & Hcalls).
    { unfold order1. simpl. rewrite <- app_assoc. reflexivity. }
    { exact Hval. }
    exists ((p, c) :: pcs). simpl. split; [lia|]. split.
    + rewrite Ho. unfold order1. simpl. rewrite <- app_assoc. reflexivity.
    + rewrite Hcalls. reflexivity.
Qed.

Lemma enrichment_calls_length (items : list OrderProduct.t)
      (pcs : list (Product.t * Category.t)) :
  length pcs = length items ->
  length (enrichment_calls (bytes := bytes) items pcs) = (2 * length items)%nat.
Proof.
  revert pcs. induction items as [|op items IH]; intros [|pc pcs]; simpl;
    try discriminate; auto.
  intros [= Hlen]. unfold enrichment_calls in IH. rewrite (IH pcs Hlen). lia.
Qed.

(** The user, payment and product reads, exactly, when they succeed. *)
Lemma enrich_trace (order o : Order.t) (w : W) :
  value (enrich (W := W) (bytes := bytes) order w) = Ok o ->
  exists (u : User.t) (pay : Payment.t) (pcs : list (Product.t * Category.t)),
    length pcs = length (Order.Products order)
    /\ o = Order.set_Products (zip_with attached (Order.Products order) pcs)
             (Order.set_Payment (Some pay) (Order.set_User (Some u) order))
    /\ calls (enrich (W := W) (bytes := bytes) order w)
       = Call_GetUserByID (Order.UserID order) (Ok u)
         :: Call_GetPaymentByID (Order.PaymentID order) (Ok pay)
         :: enrichment_calls (Order.Products order) pcs.
Proof.
  unfold enrich. unfold bind at 1 2. unfold invoke at 1 2. simpl.
  destruct (GetUserByID (Order.UserID order) w) as [[u|err] w1]; simpl; [|discriminate].
  destruct (GetPaymentByID (Order.PaymentID order) w1) as [[pay|err] w2]; simpl;
    [|discriminate].
  intros Hval.
  destruct (enrich_products_trace (Order.Products order) []
              (Order.set_Payment (Some pay) (Order.set_User (Some u) order)) o w2
              eq_refl Hval) as (pcs & Hlen & Ho & Hcalls).
  exists u, pay, pcs. split; [exact Hlen|]. split; [exact Ho|].
  simpl in Hcalls. rewrite Hcalls. reflexivity.
Qed.

Lemma enrich_err (order : Order.t) (w : W) (e : error) :
  value (enrich (W := W) (bytes := bytes) order w) = Err e ->
  e = ErrDataNotFound \/ e = ErrInternal.
Proof.
  unfold enrich. unfold bind at 1 2. unfold invoke at 1 2. simpl.
  destruct (GetUserByID (Order.UserID order) w) as [[u|err] w1]; simpl;
    [|intros [= <-]; apply not_found_or_internal_cases].
  destruct (GetPaymentByID (Order.PaymentID order) w1) as [[pay|err] w2]; simpl;
    [|intros [= <-]; apply not_found_or_internal_cases].
  apply enrich_products_err.
Qed.

(** The tail of a successful CreateOrder, exactly, with the world it
    ends in: the world the cache write left. *)
Lemma after_persist_trace (reply created : Order.t) (w : W) :
  value (after_persist (W := W) (bytes := bytes) reply w) = Ok created ->
  exists (u : User.t) (pay : Payment.t) (pcs : list (Product.t * Category.t))
         (serialized : bytes) (w' : W),
    length pcs = length (Order.Products reply)
    /\ created = Order.set_Products (zip_with attached (Order.Products reply) pcs)
                   (Order.set_Payment (Some pay) (Order.set_User (Some u) reply))
    /\ SerializeOrder created = Ok serialized
    /\ calls (after_persist (W := W) (bytes := bytes) reply w)
       = Call_GetUserByID (Order.UserID reply) (Ok u)
         :: Call_GetPaymentByID (Order.PaymentID reply) (Ok pay)
         :: enrichment_calls (Order.Products reply) pcs
         ++ [Call_CacheDeleteByPrefix "orders:*" None;
             Call_CacheSet (GenerateCacheKey "order" (Order.ID created)) serialized 0 None]
    /\ (CacheSet (GenerateCacheKey "order" (Order.ID created)) serialized 0 w').1 = None
    /\ final (after_persist (W := W) (bytes := bytes) reply w)
       = (CacheSet (GenerateCacheKey "order" (Order.ID created)) serialized 0 w').2.
Proof.
  unfold after_persist, bind.
  pose proof (enrich_trace reply) as Htrace.
  destruct (enrich (bytes := bytes) reply w) as [[enriched|err] w3 cs] eqn:Hrun;
    cbn [value final calls]; [|discriminate].
  destruct (Htrace enriched w) as (u & pay & pcs & Hlen & Ho & Hcs).
  { rewrite Hrun. reflexivity. }
  rewrite Hrun in Hcs. simpl in Hcs.
  unfold publish, bind, invoke. simpl.
  destruct (CacheDeleteByPrefix "orders:*" w3) as [[err|] w4]; simpl; [discriminate|].
  destruct (SerializeOrder enriched) as [serialized|err] eqn:Hser; simpl; [|discriminate].
  destruct (CacheSet (GenerateCacheKey "order" (Order.ID enriched)) serialized 0 w4)
    as [[err|] w5] eqn:Hset; simpl; [discriminate|].
  intros [= <-].
  exists u, pay, pcs, serialized, w4.
  split; [exact Hlen|]. split; [exact Ho|]. split; [exact Hser|].
  rewrite Hset, Hcs. simpl. auto.
Qed.

(** X1.  Whatever the ports answer, an error returned by CreateOrder is
    one of InsufficientStock, InsufficientPayment, NotFound and Internal:
    Conflict, NoUpdatedData and the adapters' own errors never reach the
    caller. *)
Theorem CreateOrder_errors (order : Order.t) (w : W) (e : error) :
  (value (CreateOrder (W := W) (bytes := bytes) order w)).2 = Err e ->
  e = ErrInsufficientStock \/ e = ErrInsufficientPayment
  \/ e = ErrDataNotFound \/ e = ErrInternal.
Proof.
  intros Herr.
  pose proof (CreateOrder_unfold order w) as Hu. cbv zeta in Hu.
  destruct (validate_spec (bytes := bytes) (Order.Products order) [] order 0 w eq_refl)
    as (ps & _ & _ & _ & Hout).
  cbv zeta in Hout. simpl in Hout.
  remember (CreateOrder (W := W) (bytes := bytes) order w) as r eqn:Hr.
  destruct ((value (validate 0 (Order.Products order) order 0 w)).2) as [total|e0].
  - destruct (Order.TotalPaid _ <? total).
    + destruct Hu as (Hval & _). rewrite Hval in Herr. injection Herr as <-. auto.
    + destruct (port.CreateOrder _ _) as [[created|err] w1]; cbn [fst snd] in Hu;
        destruct Hu as (Hval & _); rewrite Hval in Herr; cbn [snd] in Herr.
      * apply after_persist_err in Herr. destruct Herr; auto.
      * injection Herr as <-. auto.
  - destruct Hu as (Hval & _). rewrite Hval in Herr. injection Herr as <-.
    destruct Hout as [(_ & _ & Hbad) | (op & reply & _ & _ & [(err & _ & Hv) | (p & _ & _ & Hv)])].
    + discriminate.
    + injection Hv as ->. destruct (not_found_or_internal_cases err) as [-> | ->]; auto.
    + injection Hv as ->. auto.
Qed.

(** X2.  When the order repository rejects the order, with whatever
    error (a conflict and NotFound included), CreateOrder returns
    Internal and stops: the rejected write is the last call, so nothing
    is read for enrichment and the cache is not touched; the calls
    before it are the successful product reads of the validation. *)
Theorem CreateOrder_write_failure (order submitted : Order.t) (err : error) (w : W)
        (before rest : list (event bytes)) :
  calls (CreateOrder (W := W) (bytes := bytes) order w)
  = before ++ Call_CreateOrder submitted (Err err) :: rest ->
  let r := CreateOrder (W := W) (bytes := bytes) order w in
  rest = []
  /\ value r = (submitted, Err ErrInternal)
  /\ Forall (fun e => exists id p, e = Call_GetProductByID id (Ok p)) before.
Proof.
  intros Hcalls. cbv zeta.
  pose proof (CreateOrder_unfold order w) as Hu. cbv zeta in Hu.
  pose proof (validate_calls (bytes := bytes) (Order.Products order) 0%nat order 0%float w)
    as Hreads.
  remember (CreateOrder (W := W) (bytes := bytes) order w) as r eqn:Hr.
  destruct (value (validate 0 (Order.Products order) order 0 w)) as [caller res] eqn:Hv.
  assert (Hnone : calls r = calls (validate (W := W) (bytes := bytes) 0
                                     (Order.Products order) order 0 w) -> False).
  { intros Hc. rewrite Hc in Hcalls. rewrite Hcalls in Hreads.
    apply Forall_app in Hreads. destruct Hreads as [_ Hreads].
    apply Forall_cons in Hreads. destruct Hreads as [(id & rp & Hbad) _]. discriminate. }
  assert (Hfree : Forall (fun e : event bytes => is_order_call e = false)
                    (calls (validate (W := W) (bytes := bytes) 0
                              (Order.Products order) order 0 w))).
  { eapply Forall_impl; [exact Hreads|]. intros e (id & rp & ->). reflexivity. }
  cbn [fst snd] in Hu.
  destruct res as [total|e].
  2:{ destruct Hu as (_ & Hc & _). destruct (Hnone Hc). }
  destruct (validate_ok order caller total w Hv) as (ps & _ & _ & _ & Hfetch & _).
  destruct (Order.TotalPaid _ <? total).
  { destruct Hu as (_ & Hc & _). destruct (Hnone Hc). }
  destruct (port.CreateOrder _ _) as [[created0|err0] w1]; cbn [fst snd] in Hu.
  - destruct Hu as (_ & Hc & _). exfalso.
    pose proof (after_persist_calls created0 w1) as Htail.
    rewrite Hc in Hcalls.
    apply split_at_unique with (P := is_order_call) in Hcalls; [| exact Hfree | | reflexivity].
    2:{ eapply Forall_impl; [exact Htail|]. intros e [_ He]. exact He. }
    destruct Hcalls as (_ & Hev & _). discriminate.
  - destruct Hu as (Hval & Hc & _).
    rewrite Hc in Hcalls.
    apply split_at_unique with (P := is_order_call) in Hcalls;
      [| exact Hfree | constructor | reflexivity].
    destruct Hcalls as (-> & Hev & ->). injection Hev as -> _.
    split; [reflexivity|]. split; [exact Hval|].
    rewrite Hfetch. apply fetches_reads.
Qed.

(** X3.  The calls of a successful CreateOrder, exactly and in order: one
    product read per line (validation), the order write, the user read,
    the payment read, then per line the product read again and the
    category read (enrichment), the prefix deletion and the cache write.
    That is 3 n + 5 calls for n lines. *)
Theorem CreateOrder_trace (order created : Order.t) (w : W) :
  (value (CreateOrder (W := W) (bytes := bytes) order w)).2 = Ok created ->
  let r := CreateOrder (W := W) (bytes := bytes) order w in
  exists (ps : list Product.t) (reply : Order.t) (u : User.t) (pay : Payment.t)
         (pcs : list (Product.t * Category.t)) (serialized : bytes),
    length ps = length (Order.Products order)
    /\ length pcs = length (Order.Products reply)
    /\ calls r
       = fetches (Order.Products order) ps
         ++ Call_CreateOrder (value r).1 (Ok reply)
         :: Call_GetUserByID (Order.UserID reply) (Ok u)
         :: Call_GetPaymentByID (Order.PaymentID reply) (Ok pay)
         :: enrichment_calls (Order.Products reply) pcs
         ++ [Call_CacheDeleteByPrefix "orders:*" None;
             Call_CacheSet (GenerateCacheKey "order" (Order.ID created)) serialized 0 None]
    /\ length (calls r)
       = (length (Order.Products order) + 2 * length (Order.Products reply) + 5)%nat.
Proof.
  intros Hok. cbv zeta.
  destruct (CreateOrder_ok order created w Hok)
    as (ps & w1 & reply & Hlen & _ & _ & Hsub & Htail & Hcalls).
  cbv zeta in Hsub, Hcalls.
  destruct (after_persist_trace reply created w1 Htail)
    as (u & pay & pcs & serialized & w' & Hpcs & _ & _ & Ht & _ & _).
  exists ps, reply, u, pay, pcs, serialized.
  split; [exact Hlen|]. split; [exact Hpcs|].
  assert (Hc : calls (CreateOrder (W := W) (bytes := bytes) order w)
               = fetches (Order.Products order) ps
                 ++ Call_CreateOrder (value (CreateOrder (W := W) (bytes := bytes) order w)).1
                      (Ok reply)
                 :: Call_GetUserByID (Order.UserID reply) (Ok u)
                 :: Call_GetPaymentByID (Order.PaymentID reply) (Ok pay)
                 :: enrichment_calls (Order.Products reply) pcs
                 ++ [Call_CacheDeleteByPrefix "orders:*" None;
                     Call_CacheSet (GenerateCacheKey "order" (Order.ID created))
                                   serialized 0 None]).
  { rewrite Hsub, Hcalls, Ht. reflexivity. }
  split; [exact Hc|].
  rewrite Hc. rewrite length_app. unfold fetches. rewrite length_zip_with. simpl.
  rewrite length_app, (enrichment_calls_length _ _ Hpcs). simpl. lia.
Qed.

End CreateMore.

Lemma CreateOrder_errors_witness :
  ErrInsufficientPayment = ErrInsufficientStock
  \/ ErrInsufficientPayment = ErrInsufficientPayment
  \/ ErrInsufficientPayment = ErrDataNotFound \/ ErrInsufficientPayment = ErrInternal.
Proof.
  apply (CreateOrder_errors (bytes := mem.blob) shop.o_short shop.w0).
  vm_compute. reflexivity.
Defined.

(** ** The stock check *)

Section StockCheck.
Context {W bytes : Type}.
Context `{!ProductRepository W, !OrderRepository W, !CategoryRepository W,
          !UserRepository W, !PaymentRepository W,
          !CacheRepository W bytes, !Codec bytes}.
Import service.
Local Open Scope float_scope.

(** Against pure reads the validation stops at the first line, in line
    order, whose product cannot be fetched or is short of stock; the
    products of the lines before it were fetched and were in stock. *)
Lemma validate_first_failure (Hpure : pure_product_reads (W := W))
      (op : OrderProduct.t) (post : list OrderProduct.t) (p : Product.t) (w : W) :
  (GetProductByID (OrderProduct.ProductID op) w).1 = Ok p ->
  (Product.Stock p < OrderProduct.Quantity op)%Z ->
  forall (pre : list OrderProduct.t) (i : nat) (order : Order.t) (total : float),
  exists (passed : list OrderProduct.t) (ps : list Product.t)
         (bad : OrderProduct.t) (rest : list OrderProduct.t),
    pre ++ op :: post = passed ++ bad :: rest
    /\ (length passed <= length pre)%nat
    /\ Forall2 (fun op' p' =>
                  (GetProductByID (OrderProduct.ProductID op') w).1 = Ok p'
                  /\ in_stock op' p') passed ps
    /\ calls (validate (W := W) (bytes := bytes) i (pre ++ op :: post) order total w)
       = fetches passed ps
         ++ [Call_GetProductByID (OrderProduct.ProductID bad)
                                 (GetProductByID (OrderProduct.ProductID bad) w).1]
    /\ ((exists q, (GetProductByID (OrderProduct.ProductID bad) w).1 = Ok q
                   /\ (Product.Stock q < OrderProduct.Quantity bad)%Z
                   /\ (value (validate (W := W) (bytes := bytes) i (pre ++ op :: post)
                                       order total w)).2 = Err ErrInsufficientStock)
        \/ (exists err, (GetProductByID (OrderProduct.ProductID bad) w).1 = Err err
                        /\ (value (validate (W := W) (bytes := bytes) i (pre ++ op :: post)
                                            order total w)).2
                           = Err (not_found_or_internal err))).
Proof.
  intros Hget Hover.
  induction pre as [|a pre IH]; intros i order total.
  - exists [], [], op, post. simpl.
    unfold bind, invoke. simpl. rewrite Hget. simpl.
    pose proof Hover as Hlt. apply Z.ltb_lt in Hlt. rewrite Hlt. simpl.
    split; [reflexivity|]. split; [lia|]. split; [constructor|]. split; [reflexivity|].
    left. exists p. auto.
  - cbn [app validate]. unfold bind, invoke. cbn [value final calls fst snd].
    pose proof (Hpure (OrderProduct.ProductID a) w) as Hsame. simpl in Hsame.
    destruct (GetProductByID (OrderProduct.ProductID a) w) as [[pa|err] w1] eqn:Ha;
      simpl in *.
    + destruct (Product.Stock pa <? OrderProduct.Quantity a)%Z eqn:Hstock; simpl.
      * exists [], [], a, (pre ++ op :: post). simpl. rewrite Ha. simpl.
        split; [reflexivity|]. split; [lia|]. split; [constructor|]. split; [reflexivity|].
        left. exists pa. split; [reflexivity|]. split; [lia|reflexivity].
      * subst w1.
        destruct (IH (S i)
                     (Order.set_Products
                        (alter (OrderProduct.set_TotalPrice
                                  (Product.Price pa
                                   * float64_of_int64 (OrderProduct.Quantity a)))
                               i (Order.Products order)) order)
                     (total + line_total
                                (Order.set_Products
                                   (alter (OrderProduct.set_TotalPrice
                                             (Product.Price pa
                                              * float64_of_int64 (OrderProduct.Quantity a)))
                                          i (Order.Products order)) order) i))
          as (passed & ps & bad & rest & Hsplit & Hlen & Hall & Hcalls & Hwhy).
        exists (a :: passed), (pa :: ps), bad, rest. simpl.
        split; [rewrite Hsplit; reflexivity|]. split; [lia|].
        split; [constructor; [split; [rewrite Ha; reflexivity | unfold in_stock; lia]
                             | exact Hall]|].
        split; [rewrite Hcalls; reflexivity|]. exact Hwhy.
    + exists [], [], a, (pre ++ op :: post). simpl. rewrite Ha. simpl.
      split; [reflexivity|]. split; [lia|]. split; [constructor|]. split; [reflexivity|].
      right. exists err. auto.
Qed.

(** C1, as the code has it.  Against a product repository whose reads
    are pure: when the order has a line item whose quantity strictly
    exceeds the stock of its product, CreateOrder fails, ends in the world
    it started in, and has made only product reads, so no order is
    persisted and no cache entry is written or invalidated.  The run
    stops at the first line item, in line order, whose product cannot be
    fetched or whose quantity exceeds the stock: the lines before it were
    fetched and in stock, its read is the last call, and the error is
    InsufficientStock when its product was fetched, and otherwise
    NotFound when that fetch reported NotFound and Internal when it
    reported anything else.  So the error is InsufficientStock when the
    product of every line item before an over-stock line can be fetched.
    When every line's quantity is at most the stock (equality included),
    CreateOrder does not fail with InsufficientStock. *)
Theorem CreateOrder_insufficient_stock (order : Order.t) (w : W) :
  pure_product_reads (W := W) ->
  let r := CreateOrder (W := W) (bytes := bytes) order w in
  (forall (pre post : list OrderProduct.t) (op : OrderProduct.t) (p : Product.t),
      Order.Products order = pre ++ op :: post ->
      (GetProductByID (OrderProduct.ProductID op) w).1 = Ok p ->
      (Product.Stock p < OrderProduct.Quantity op)%Z ->
      (exists (passed : list OrderProduct.t) (ps : list Product.t)
              (bad : OrderProduct.t) (rest : list OrderProduct.t),
          Order.Products order = passed ++ bad :: rest
          /\ (length passed <= length pre)%nat
          /\ Forall2 (fun op' p' =>
                        (GetProductByID (OrderProduct.ProductID op') w).1 = Ok p'
                        /\ in_stock op' p') passed ps
          /\ calls r
             = fetches passed ps
               ++ [Call_GetProductByID (OrderProduct.ProductID bad)
                                       (GetProductByID (OrderProduct.ProductID bad) w).1]
          /\ ((exists q, (GetProductByID (OrderProduct.ProductID bad) w).1 = Ok q
                         /\ (Product.Stock q < OrderProduct.Quantity bad)%Z
                         /\ (value r).2 = Err ErrInsufficientStock)
              \/ (exists err,
                     (GetProductByID (OrderProduct.ProductID bad) w).1 = Err err
                     /\ (err = ErrDataNotFound -> (value r).2 = Err ErrDataNotFound)
                     /\ (err <> ErrDataNotFound -> (value r).2 = Err ErrInternal))))
      /\ ((forall op', In op' pre ->
                       is_ok (GetProductByID (OrderProduct.ProductID op') w).1 = true) ->
          (value r).2 = Err ErrInsufficientStock)
      /\ final r = w
      /\ Forall (fun e => exists id reply, e = Call_GetProductByID id reply) (calls r)
      /\ Forall (fun e => is_mutation e = false) (calls r))
  /\ ((forall op, In op (Order.Products order) ->
                  exists p, (GetProductByID (OrderProduct.ProductID op) w).1 = Ok p
                            /\ (OrderProduct.Quantity op <= Product.Stock p)%Z) ->
      (value r).2 <> Err ErrInsufficientStock).
Proof.
  intros Hpure. cbv zeta.
  pose proof (CreateOrder_unfold (bytes := bytes) order w) as Hu. cbv zeta in Hu.
  remember (CreateOrder (W := W) (bytes := bytes) order w) as r eqn:Hr.
  split.
  - intros pre post op p Hlines Hget Hover.
    destruct (validate_over_stock (bytes := bytes) Hpure op post p w Hget Hover pre
                                  0%nat order 0)
      as (e & He & Hcases & Honly).
    destruct (validate_first_failure Hpure op post p w Hget Hover pre 0%nat order 0)
      as (passed & ps & bad & rest & Hsplit & Hlen & Hall & Hcalls & Hwhy).
    rewrite <- Hlines in He, Hcalls, Hwhy, Hsplit.
    rewrite He in Hu, Hwhy. destruct Hu as (Hval & Hc & Hf).
    split; [|split; [|split; [|split]]].
    + exists passed, ps, bad, rest.
      split; [exact Hsplit|]. split; [exact Hlen|]. split; [exact Hall|].
      split; [rewrite Hc; exact Hcalls|].
      rewrite Hval. cbn [snd].
      destruct Hwhy as [(q & Hq & Hlt & Hv) | (err & Herr & Hv)].
      * left. exists q. split; [exact Hq|]. split; [exact Hlt|].
        injection Hv as ->. reflexivity.
      * right. exists err. split; [exact Herr|]. injection Hv as ->.
        unfold not_found_or_internal.
        destruct (decide (err = ErrDataNotFound)) as [->|Hne];
          split; intros H'; congruence.
    + intros Hall'. rewrite Hval, (Honly Hall'). reflexivity.
    + rewrite Hf.
      apply (validate_keeps (bytes := bytes) (fun w => w) (Order.Products order) Hpure).
    + rewrite Hc. apply validate_calls.
    + rewrite Hc. eapply Forall_impl; [apply validate_calls|].
      intros ev (id & reply & ->). reflexivity.
  - intros Hall Hbad.
    destruct (validate_in_stock (bytes := bytes) Hpure w (Order.Products order) Hall
                                0%nat order 0)
      as (t & Ht).
    rewrite Ht in Hu.
    destruct (Order.TotalPaid _ <? t).
    { destruct Hu as (Hval & _). rewrite Hval in Hbad. discriminate. }
    destruct (port.CreateOrder _ _) as [[created|err] w1]; cbn [fst snd] in Hu.
    + destruct Hu as (Hval & _). rewrite Hval in Hbad. cbn [snd] in Hbad.
      apply after_persist_err in Hbad. destruct Hbad; discriminate.
    + destruct Hu as (Hval & _). rewrite Hval in Hbad. discriminate.
Qed.

End StockCheck.

Lemma CreateOrder_insufficient_stock_witness :
  let r := service.CreateOrder (bytes := mem.blob) shop.o_over_missing_over shop.w0 in
  (Order.Products shop.o_over_missing_over
   = [shop.line 1 6; shop.line 99 1] ++ shop.line 1 6 :: []
   /\ (GetProductByID 1 shop.w0).1 = Ok shop.tea
   /\ (Product.Stock shop.tea < 6)%Z)
  /\ (value r).2 = Err ErrInsufficientStock
  /\ calls r = [Call_GetProductByID 1 (Ok shop.tea)]
  /\ final r = shop.w0
  /\ exists (passed : list OrderProduct.t) (ps : list Product.t)
            (bad : OrderProduct.t) (rest : list OrderProduct.t),
      Order.Products shop.o_over_missing_over = passed ++ bad :: rest
      /\ (length passed <= 2)%nat
      /\ Forall2 (fun op' p' =>
                    (GetProductByID (OrderProduct.ProductID op') shop.w0).1 = Ok p'
                    /\ in_stock op' p') passed ps
      /\ calls r
         = fetches passed ps
           ++ [Call_GetProductByID (OrderProduct.ProductID bad)
                 (GetProductByID (OrderProduct.ProductID bad) shop.w0).1]
      /\ ((exists q, (GetProductByID (OrderProduct.ProductID bad) shop.w0).1 = Ok q
                     /\ (Product.Stock q < OrderProduct.Quantity bad)%Z
                     /\ (value r).2 = Err ErrInsufficientStock)
          \/ (exists err,
                 (GetProductByID (OrderProduct.ProductID bad) shop.w0).1 = Err err
                 /\ (err = ErrDataNotFound -> (value r).2 = Err ErrDataNotFound)
                 /\ (err <> ErrDataNotFound -> (value r).2 = Err ErrInternal))).
Proof.
  cbv zeta.
  assert (Hlines : Order.Products shop.o_over_missing_over
                   = [shop.line 1 6; shop.line 99 1] ++ shop.line 1 6 :: [])
    by reflexivity.
  assert (Hget : (GetProductByID 1 shop.w0).1 = Ok shop.tea) by (vm_compute; reflexivity).
  assert (Hover : (Product.Stock shop.tea < 6)%Z) by (vm_compute; reflexivity).
  destruct (CreateOrder_insufficient_stock shop.o_over_missing_over shop.w0
              mem_pure_product_reads) as [Hstops _].
  destruct (Hstops [shop.line 1 6; shop.line 99 1] [] (shop.line 1 6) shop.tea
                   Hlines Hget Hover) as (Hfirst & _ & Hfinal & _).
  split; [auto|]. split; [vm_compute; reflexivity|]. split; [vm_compute; reflexivity|].
  split; [exact Hfinal | exact Hfirst].
Defined.

(** ** Line totals and the order total *)

Section Totals.
Context {W bytes : Type}.
Context `{!ProductRepository W, !OrderRepository W, !CategoryRepository W,
          !UserRepository W, !PaymentRepository W,
          !CacheRepository W bytes, !Codec bytes}.
Import service.
Local Open Scope float_scope.

(** The sum of the line totals depends on the totals only. *)
Lemma sum_from_map (l l' : list OrderProduct.t) :
  map OrderProduct.TotalPrice l = map OrderProduct.TotalPrice l' ->
  forall acc : float, sum_from acc l = sum_from acc l'.
Proof.
  revert l'. induction l as [|a l IH]; intros [|a' l']; simpl; try discriminate;
    [reflexivity|].
  intros [= Ha Hl] acc. rewrite Ha. apply IH. exact Hl.
Qed.

Lemma sum_totals_map (l l' : list OrderProduct.t) :
  map OrderProduct.TotalPrice l = map OrderProduct.TotalPrice l' ->
  sum_totals l = sum_totals l'.
Proof. intros H. apply sum_from_map. exact H. Qed.

Lemma priced_totals (lines : list OrderProduct.t) (ps : list Product.t) :
  map OrderProduct.TotalPrice (zip_with priced lines ps)
  = zip_with (fun op p => Product.Price p * float64_of_int64 (OrderProduct.Quantity op))
             lines ps.
Proof.
  revert ps. induction lines as [|op lines IH]; intros [|p ps]; simpl; try reflexivity.
  rewrite IH. reflexivity.
Qed.

(** C3.  Every run of CreateOrder reads, line by line and in line order,
    the product of each line item, up to the first line whose product
    cannot be fetched or is short of stock, where it stops with an
    error; the lines it has passed carry, in the caller's order, the
    fetched price times the quantity as their total.  When no line
    stops it, either totalPaid is below the sum of the line totals and
    it fails with InsufficientPayment, or the order is handed to the
    order repository with that sum, accumulated in line order, as its
    totalPrice.  So for every successfully created order there is, for
    each line item, the product that the i-th call fetched for it, the
    line's total in the order handed to the repository is that product's
    price times the line's quantity, the order's totalPrice is the sum
    of these line totals, and the order returned to the caller carries
    the totals of the record the repository gave back: when that record
    has the totals the repository was handed, the returned order's line
    totals are the fetched prices times the quantities and its
    totalPrice is their sum. *)
Theorem CreateOrder_totals (order : Order.t) (w : W) :
  let r := CreateOrder (W := W) (bytes := bytes) order w in
  let lines := Order.Products order in
  exists ps : list Product.t,
    (length ps <= length lines)%nat
    /\ fetches lines ps `prefix_of` calls r
    /\ Order.Products (value r).1 = zip_with priced lines ps ++ drop (length ps) lines
    /\ ((length ps < length lines)%nat ->
        is_ok (value r).2 = false
        /\ exists op reply,
            lines !! length ps = Some op
            /\ calls r = fetches lines ps
                         ++ [Call_GetProductByID (OrderProduct.ProductID op) reply]
            /\ ((exists err, reply = Err err)
                \/ (exists p, reply = Ok p
                              /\ (Product.Stock p < OrderProduct.Quantity op)%Z)))
    /\ (length ps = length lines ->
        ((Order.TotalPaid order <? sum_totals (zip_with priced lines ps)) = true
         /\ (value r).2 = Err ErrInsufficientPayment
         /\ calls r = fetches lines ps)
        \/ ((Order.TotalPaid order <? sum_totals (zip_with priced lines ps)) = false
            /\ exists reply rest,
                calls r = fetches lines ps ++ Call_CreateOrder (value r).1 reply :: rest
                /\ Order.Products (value r).1 = zip_with priced lines ps
                /\ Order.TotalPrice (value r).1
                   = sum_totals (Order.Products (value r).1)))
    /\ (forall created : Order.t,
           (value r).2 = Ok created ->
           exists (submitted reply : Order.t) (rest : list (event bytes)),
             submitted = (value r).1
             /\ calls r
                = fetches lines ps ++ Call_CreateOrder submitted (Ok reply) :: rest
             /\ length ps = length lines
             /\ length (Order.Products submitted) = length lines
             /\ (forall (i : nat) (op : OrderProduct.t),
                    lines !! i = Some op ->
                    exists (p : Product.t) (priced_line : OrderProduct.t),
                      ps !! i = Some p
                      /\ calls r !! i
                         = Some (Call_GetProductByID (OrderProduct.ProductID op) (Ok p))
                      /\ Order.Products submitted !! i = Some priced_line
                      /\ OrderProduct.TotalPrice priced_line
                         = Product.Price p * float64_of_int64 (OrderProduct.Quantity op)
                      /\ OrderProduct.ProductID priced_line = OrderProduct.ProductID op
                      /\ OrderProduct.Quantity priced_line = OrderProduct.Quantity op)
             /\ Order.TotalPrice submitted = sum_totals (Order.Products submitted)
             /\ Order.TotalPrice created = Order.TotalPrice reply
             /\ map OrderProduct.TotalPrice (Order.Products created)
                = map OrderProduct.TotalPrice (Order.Products reply)
             /\ (Order.TotalPrice reply = Order.TotalPrice submitted ->
                 map OrderProduct.TotalPrice (Order.Products reply)
                 = map OrderProduct.TotalPrice (Order.Products submitted) ->
                 Order.TotalPrice created = sum_totals (Order.Products created)
                 /\ map OrderProduct.TotalPrice (Order.Products created)
                    = zip_with (fun op p =>
                                  Product.Price p
                                  * float64_of_int64 (OrderProduct.Quantity op))
                               lines ps)).
Proof.
  cbv zeta.
  pose proof (CreateOrder_unfold (bytes := bytes) order w) as Hu. cbv zeta in Hu.
  destruct (validate_spec (bytes := bytes) (Order.Products order) [] order 0 w eq_refl)
    as (ps & Hlen & Hstock & Hcaller & Hout).
  cbv zeta in Hcaller, Hout. simpl in Hlen, Hstock, Hcaller, Hout.
  remember (CreateOrder (W := W) (bytes := bytes) order w) as r eqn:Hr.
  exists ps. split; [exact Hlen|].
  destruct Hout as [(Hall & Hcalls & Hval)
                   | (op & reply & Hlook & Hcalls & Hwhy)].
  - rewrite Hval in Hu.
    assert (Hpaid : Order.TotalPaid
                      (value (validate (W := W) (bytes := bytes) 0
                                (Order.Products order) order 0 w)).1
                    = Order.TotalPaid order) by (rewrite Hcaller; reflexivity).
    assert (Hlines : Order.Products
                       (value (validate (W := W) (bytes := bytes) 0
                                 (Order.Products order) order 0 w)).1
                     = zip_with priced (Order.Products order) ps).
    { rewrite Hcaller, Hall, drop_all, app_nil_r. reflexivity. }
    rewrite Hpaid in Hu.
    change (sum_from 0 (zip_with priced (Order.Products order) ps))
      with (sum_totals (zip_with priced (Order.Products order) ps)) in Hu.
    destruct (Order.TotalPaid order <? _) eqn:Hlt.
    + destruct Hu as (Hr1 & Hc & _). rewrite Hr1, Hc, Hcalls. cbn [fst snd].
      split; [exists []; rewrite app_nil_r; reflexivity|].
      split; [rewrite Hcaller; reflexivity|].
      split; [lia|]. split; [intros _; left; auto|]. discriminate.
    + destruct (port.CreateOrder _ _) as [[reply|err] w1]; cbn [fst snd] in Hu;
        destruct Hu as (Hr1 & Hc & _); rewrite Hr1, Hc, Hcalls; cbn [fst snd].
      * split; [eexists; reflexivity|].
        split; [cbn; rewrite Hcaller; reflexivity|].
        split; [lia|]. split.
        { intros _. right. split; [reflexivity|]. eexists _, _.
          split; [reflexivity|]. cbn. rewrite Hlines. split; reflexivity. }
        intros created Hok.
        destruct (after_persist_ok (bytes := bytes) reply created w1 Hok)
          as (u & pay & pcs & _ & _ & Hpcs & Hcreated & _).
        eexists _, reply, _. split; [reflexivity|]. split; [reflexivity|].
        split; [exact Hall|]. split; [|split; [|split; [|split; [|split]]]].
        -- cbn. rewrite Hlines, length_zip_with. lia.
        -- intros i op Hop.
           destruct (lookup_lt_is_Some_2 ps i) as [p Hp].
           { rewrite Hall. eapply lookup_lt_Some. exact Hop. }
           exists p, (priced op p).
           split; [exact Hp|].
           split; [|split; [|split; [reflexivity|split; reflexivity]]].
           ++ rewrite lookup_app_l.
              ** unfold fetches. rewrite lookup_zip_with, Hop. simpl. rewrite Hp.
                 reflexivity.
              ** unfold fetches. rewrite length_zip_with.
                 apply lookup_lt_Some in Hop. lia.
           ++ cbn. rewrite Hlines, lookup_zip_with, Hop. simpl. rewrite Hp. reflexivity.
        -- cbn. rewrite Hlines. reflexivity.
        -- rewrite Hcreated. reflexivity.
        -- rewrite Hcreated. simpl. apply totals_attached. exact Hpcs.
        -- cbn. rewrite Hlines. intros Hprice Hmap.
           assert (Hsame : map OrderProduct.TotalPrice (Order.Products created)
                           = map OrderProduct.TotalPrice
                                 (zip_with priced (Order.Products order) ps)).
           { rewrite Hcreated. simpl. rewrite totals_attached by exact Hpcs. exact Hmap. }
           split.
           ++ rewrite (sum_totals_map _ _ Hsame), Hcreated. simpl. exact Hprice.
           ++ rewrite Hsame. apply priced_totals.
      * split; [eexists; reflexivity|].
        split; [cbn; rewrite Hcaller; reflexivity|].
        split; [lia|]. split; [|discriminate].
        intros _. right. split; [reflexivity|]. eexists _, _.
        split; [reflexivity|]. cbn. rewrite Hlines. split; reflexivity.
  - assert (Hshort : (length ps < length (Order.Products order))%nat)
      by (eapply lookup_lt_Some; exact Hlook).
    assert (Herr : exists e, (value (validate (W := W) (bytes := bytes) 0
                                       (Order.Products order) order 0 w)).2 = Err e).
    { destruct Hwhy as [(err & _ & Hv) | (p & _ & _ & Hv)]; rewrite Hv; eauto. }
    destruct Herr as (e & He).
    rewrite He in Hu. destruct Hu as (Hr1 & Hc & _).
    rewrite Hr1, Hc, Hcalls. cbn [fst snd].
    split; [eexists; reflexivity|]. split; [rewrite Hcaller; reflexivity|].
    split; [|split; [lia|discriminate]].
    intros _. split; [reflexivity|]. exists op, reply.
    split; [exact Hlook|]. split; [reflexivity|].
    destruct Hwhy as [(err & Hrep & _) | (p & Hrep & Hs & _)]; [left|right]; eauto.
Qed.

End Totals.

Lemma CreateOrder_totals_witness :
  let r := service.CreateOrder (bytes := mem.blob) shop.o_change shop.w0 in
  ((value r).2 = Ok shop.created_change
   /\ (value r).1 = shop.submitted_change
   /\ Order.TotalPrice shop.created_change = 30%float
   /\ map OrderProduct.TotalPrice (Order.Products shop.created_change) = [30%float])
  /\ exists (submitted reply : Order.t) (rest : list (event mem.blob)),
      submitted = (value r).1
      /\ calls r
         = fetches (Order.Products shop.o_change) [shop.tea]
           ++ Call_CreateOrder submitted (Ok reply) :: rest
      /\ (forall (i : nat) (op : OrderProduct.t),
             Order.Products shop.o_change !! i = Some op ->
             exists (p : Product.t) (priced_line : OrderProduct.t),
               [shop.tea] !! i = Some p
               /\ calls r !! i
                  = Some (Call_GetProductByID (OrderProduct.ProductID op) (Ok p))
               /\ Order.Products submitted !! i = Some priced_line
               /\ OrderProduct.TotalPrice priced_line
                  = PrimFloat.mul (Product.Price p)
                                  (float64_of_int64 (OrderProduct.Quantity op))
               /\ OrderProduct.ProductID priced_line = OrderProduct.ProductID op
               /\ OrderProduct.Quantity priced_line = OrderProduct.Quantity op)
      /\ Order.TotalPrice submitted = sum_totals (Order.Products submitted)
      /\ Order.TotalPrice shop.created_change = Order.TotalPrice reply
      /\ map OrderProduct.TotalPrice (Order.Products shop.created_change)
         = map OrderProduct.TotalPrice (Order.Products reply)
      /\ Order.TotalPrice shop.created_change
         = sum_totals (Order.Products shop.created_change)
      /\ map OrderProduct.TotalPrice (Order.Products shop.created_change)
         = zip_with (fun op p =>
                       PrimFloat.mul (Product.Price p)
                                     (float64_of_int64 (OrderProduct.Quantity op)))
                    (Order.Products shop.o_change) [shop.tea].
Proof.
  cbv zeta.
  assert (Hok : (value (service.CreateOrder (bytes := mem.blob) shop.o_change shop.w0)).2
                = Ok shop.created_change) by (vm_compute; reflexivity).
  split; [split; [exact Hok|repeat split; vm_compute; reflexivity]|].
  destruct (CreateOrder_totals shop.o_change shop.w0)
    as (ps & _ & Hprefix & _ & _ & _ & Hsuccess).
  destruct (Hsuccess shop.created_change Hok)
    as (submitted & reply & rest & Hsub & Hcalls & Hlen & _ & Hlines & Hsum & Htot & Hmap
        & Hecho).
  assert (Hps : ps = [shop.tea]).
  { destruct ps as [|p [|p' ps]]; try discriminate Hlen.
    destruct (Hlines 0%nat (shop.line 1 3) eq_refl) as (p0 & _ & Hp0 & Hcall & _).
    simpl in Hp0. injection Hp0 as <-.
    vm_compute in Hcall. injection Hcall as <-. reflexivity. }
  subst ps.
  destruct Hecho as (Hprice & Hpriced).
  { rewrite <- Htot, Hsub. vm_compute. reflexivity. }
  { rewrite <- Hmap, Hsub. vm_compute. reflexivity. }
  exists submitted, reply, rest.
  split; [exact Hsub|]. split; [exact Hcalls|]. split; [exact Hlines|].
  split; [exact Hsum|]. split; [exact Htot|]. split; [exact Hmap|].
  split; [exact Hprice|exact Hpriced].
Defined.

(** ** What a successful CreateOrder publishes *)

Section Publish.
Context {W bytes : Type}.
Context `{!ProductRepository W, !OrderRepository W, !CategoryRepository W,
          !UserRepository W, !PaymentRepository W,
          !CacheRepository W bytes, !Codec bytes}.
Import service.
Local Open Scope float_scope.

Lemma enrichment_calls_lookups (items : list OrderProduct.t)
      (pcs : list (Product.t * Category.t)) :
  Forall (fun e : event bytes => is_lookup e = true) (enrichment_calls items pcs).
Proof.
  revert pcs. induction items as [|op items IH]; intros [|pc pcs]; simpl;
    try constructor; [reflexivity|]. constructor; [reflexivity|]. apply IH.
Qed.

(** C6.  A CreateOrder that returns success has made, after the
    validation reads and the order write and in this order: the read of
    the user and of the payment method of the record the repository
    returned, for each of its lines the read of the product and of the
    product's category, the deletion of every cache entry under the
    pattern "orders:*", and the cache write with TTL 0, under the key of
    the order's id, of the serialization of the order it returns.  That
    order is the repository's record with exactly what those reads
    returned attached: the user, the payment method, and on every line
    the product carrying its category.  Both cache calls succeeded and
    no cache write precedes them. *)
Theorem CreateOrder_success_publishes (order created : Order.t) (w : W) :
  (value (CreateOrder (W := W) (bytes := bytes) order w)).2 = Ok created ->
  let r := CreateOrder (W := W) (bytes := bytes) order w in
  exists (ps : list Product.t) (reply : Order.t) (u : User.t) (pay : Payment.t)
         (pcs : list (Product.t * Category.t)) (serialized : bytes),
    let before :=
      fetches (Order.Products order) ps
      ++ Call_CreateOrder (value r).1 (Ok reply)
      :: Call_GetUserByID (Order.UserID reply) (Ok u)
      :: Call_GetPaymentByID (Order.PaymentID reply) (Ok pay)
      :: enrichment_calls (Order.Products reply) pcs in
    calls r
    = before ++ [Call_CacheDeleteByPrefix "orders:*" None;
                 Call_CacheSet (GenerateCacheKey "order" (Order.ID created))
                               serialized 0 None]
    /\ length ps = length (Order.Products order)
    /\ length pcs = length (Order.Products reply)
    /\ created = Order.set_Products (zip_with attached (Order.Products reply) pcs)
                   (Order.set_Payment (Some pay) (Order.set_User (Some u) reply))
    /\ Order.ID created = Order.ID reply
    /\ SerializeOrder created = Ok serialized
    /\ is_enriched created = true
    /\ Forall (fun e => is_cache_write e = false) before.
Proof.
  intros Hok. cbv zeta.
  destruct (CreateOrder_ok (bytes := bytes) order created w Hok)
    as (ps & w1 & reply & Hlen & _ & _ & Hsub & Htail & Hcalls).
  cbv zeta in Hsub, Hcalls.
  destruct (after_persist_trace (bytes := bytes) reply created w1 Htail)
    as (u & pay & pcs & serialized & w' & Hpcs & Hcreated & Hser & Ht & _ & _).
  exists ps, reply, u, pay, pcs, serialized.
  split; [|split; [exact Hlen|split; [exact Hpcs|split; [exact Hcreated|]]]].
  { rewrite Hsub, Hcalls, Ht. rewrite <- app_assoc. reflexivity. }
  split; [rewrite Hcreated; reflexivity|]. split; [exact Hser|]. split.
  - rewrite Hcreated. unfold is_enriched. simpl. rewrite forallb_attached. reflexivity.
  - apply Forall_app. split.
    + eapply Forall_impl; [apply fetches_reads|]. intros e (id & p & ->). reflexivity.
    + constructor; [reflexivity|]. constructor; [reflexivity|].
      constructor; [reflexivity|].
      eapply Forall_impl; [apply enrichment_calls_lookups|].
      intros e He. destruct e; simpl in *; congruence.
Qed.

End Publish.

Lemma CreateOrder_success_publishes_witness :
  let r := service.CreateOrder (bytes := mem.blob) shop.o_change shop.w0 in
  ((value r).2 = Ok shop.created_change
   /\ shop.created_change
      = Order.Build 1 1 1 "bob" 30 40 10 (Some shop.alice) (Some shop.cash)
          [OrderProduct.Build 1 3 30
             (Some (Product.set_Category (Some shop.drinks) shop.tea))]
   /\ calls r
      = [Call_GetProductByID 1 (Ok shop.tea);
         Call_CreateOrder shop.submitted_change (Ok shop.stored_change);
         Call_GetUserByID 1 (Ok shop.alice);
         Call_GetPaymentByID 1 (Ok shop.cash);
         Call_GetProductByID 1 (Ok shop.tea);
         Call_GetCategoryByID 1 (Ok shop.drinks);
         Call_CacheDeleteByPrefix "orders:*" None;
         Call_CacheSet "order:1" (mem.BOrder shop.created_change) 0 None])
  /\ exists (ps : list Product.t) (reply : Order.t) (u : User.t) (pay : Payment.t)
            (pcs : list (Product.t * Category.t)) (serialized : mem.blob),
      let before :=
        fetches (Order.Products shop.o_change) ps
        ++ Call_CreateOrder (value r).1 (Ok reply)
        :: Call_GetUserByID (Order.UserID reply) (Ok u)
        :: Call_GetPaymentByID (Order.PaymentID reply) (Ok pay)
        :: enrichment_calls (Order.Products reply) pcs in
      calls r
      = before ++ [Call_CacheDeleteByPrefix "orders:*" None;
                   Call_CacheSet (GenerateCacheKey "order" (Order.ID shop.created_change))
                                 serialized 0 None]
      /\ length ps = length (Order.Products shop.o_change)
      /\ length pcs = length (Order.Products reply)
      /\ shop.created_change
         = Order.set_Products (zip_with attached (Order.Products reply) pcs)
             (Order.set_Payment (Some pay) (Order.set_User (Some u) reply))
      /\ Order.ID shop.created_change = Order.ID reply
      /\ SerializeOrder shop.created_change = Ok serialized
      /\ is_enriched shop.created_change = true
      /\ Forall (fun e => is_cache_write e = false) before.
Proof.
  cbv zeta.
  assert (Hok : (value (service.CreateOrder (bytes := mem.blob) shop.o_change shop.w0)).2
                = Ok shop.created_change) by (vm_compute; reflexivity).
  split; [split; [exact Hok|split; vm_compute; reflexivity]|].
  exact (CreateOrder_success_publishes shop.o_change shop.created_change shop.w0 Hok).
Defined.

(** ** The payment check *)

Section PaymentCheck.
Context {W bytes : Type}.
Context `{!ProductRepository W, !OrderRepository W, !CategoryRepository W,
          !UserRepository W, !PaymentRepository W,
          !CacheRepository W bytes, !Codec bytes}.
Import service.
Local Open Scope float_scope.





End PaymentCheck.



(** ** Further properties of GetOrder *)

Section GetMore.
Context {W bytes : Type}.
Context `{!ProductRepository W, !OrderRepository W, !CategoryRepository W,
          !UserRepository W, !PaymentRepository W,
          !CacheRepository W bytes, !Codec bytes}.
Import service.

Lemma enrich_calls (order : Order.t) (w : W) :
  Forall (fun e : event bytes => is_lookup e = true)
         (calls (enrich (W := W) (bytes := bytes) order w)).
Proof.
  unfold enrich. unfold bind at 1 2. unfold invoke at 1 2. simpl.
  destruct (GetUserByID (Order.UserID order) w) as [[u|err] w1]; simpl;
    [|repeat constructor].
  destruct (GetPaymentByID (Order.PaymentID order) w1) as [[pay|err] w2]; simpl;
    [|repeat constructor].
  constructor; [reflexivity|]. constructor; [reflexivity|].
  apply enrich_products_calls.
Qed.

(** GetOrder laid out along its returns. *)
Lemma GetOrder_unfold (id : Z) (w : W) :
  let key := GenerateCacheKey "order" id in
  let c := CacheGet (bytes := bytes) key w in
  let r := GetOrder (W := W) (bytes := bytes) id w in
  match c.1 with
  | Ok cached =>
      value r = match DeserializeOrder cached with
                | Ok o => Ok o
                | Err _ => Err ErrInternal
                end
      /\ calls r = [Call_CacheGet key (Ok cached)] /\ final r = c.2
  | Err miss =>
      let g := GetOrderByID id c.2 in
      match g.1 with
      | Err err =>
          value r = Err (not_found_or_internal err)
          /\ calls r = [Call_CacheGet key (Err miss); Call_GetOrderByID id (Err err)]
          /\ final r = g.2
      | Ok stored =>
          let t := enrich (W := W) (bytes := bytes) stored g.2 in
          match value t with
          | Err e =>
              value r = Err e
              /\ calls r = Call_CacheGet key (Err miss)
                           :: Call_GetOrderByID id (Ok stored) :: calls t
              /\ final r = final t
          | Ok o =>
              match SerializeOrder o with
              | Err _ =>
                  value r = Err ErrInternal
                  /\ calls r = Call_CacheGet key (Err miss)
                               :: Call_GetOrderByID id (Ok stored) :: calls t
                  /\ final r = final t
              | Ok serialized =>
                  let s := CacheSet key serialized 0 (final t) in
                  value r = (if failed s.1 then Err ErrInternal else Ok o)
                  /\ calls r = Call_CacheGet key (Err miss)
                               :: Call_GetOrderByID id (Ok stored)
                               :: calls t ++ [Call_CacheSet key serialized 0 s.1]
                  /\ final r = s.2
              end
          end
      end
  end.
Proof.
  cbv zeta. unfold GetOrder, bind, invoke. cbn [value final calls].
  destruct (CacheGet (GenerateCacheKey "order" id) w) as [[cached|miss] w1];
    cbn [fst snd].
  - destruct (DeserializeOrder cached); simpl; auto.
  - destruct (GetOrderByID id w1) as [[stored|err] w2]; cbn [fst snd value final calls].
    + destruct (enrich (bytes := bytes) stored w2) as [[o|e] w3 cs];
        cbn [value final calls].
      * destruct (SerializeOrder o) as [serialized|e]; cbn [value final calls].
        -- destruct (CacheSet (GenerateCacheKey "order" id) serialized 0 w3)
             as [[e|] w4]; simpl; auto.
        -- simpl. rewrite app_nil_r. auto.
      * simpl. rewrite app_nil_r. auto.
    + simpl. auto.
Qed.

Lemma Forall_removelast {A} (P : A -> Prop) (l : list A) :
  Forall P l -> Forall P (removelast l).
Proof.
  induction 1 as [|x l Hx Hl IH]; simpl; [constructor|].
  destruct l; [constructor|]. constructor; assumption.
Qed.

(** X4.  GetOrder, whatever the ports answer: it calls nothing but the
    cache Get, the order read, the by-id reads of the enrichment and the
    cache Set; every call before the last one is a read, so the only
    thing it can write is the order's cache entry, as its last step; and
    an error it returns is NotFound or Internal. *)
Theorem GetOrder_writes_only_cache (id : Z) (w : W) :
  let r := GetOrder (W := W) (bytes := bytes) id w in
  Forall GetOrder_call (calls r)
  /\ Forall (fun e => is_mutation e = false) (removelast (calls r))
  /\ (forall e, value r = Err e -> e = ErrDataNotFound \/ e = ErrInternal).
Proof.
  cbv zeta.
  pose proof (GetOrder_unfold id w) as Hu. cbv zeta in Hu.
  remember (GetOrder (W := W) (bytes := bytes) id w) as r eqn:Hr.
  set (key := GenerateCacheKey "order" id) in *.
  set (w1 := (CacheGet (bytes := bytes) key w).2) in *.
  destruct ((CacheGet (bytes := bytes) key w).1) as [cached|miss].
  { destruct Hu as (Hval & Hc & _). rewrite Hc, Hval. split; [|split].
    - constructor; [|constructor]. right. left. eauto.
    - constructor.
    - destruct (DeserializeOrder cached); [discriminate|]. intros e' [= <-]. auto. }
  set (w2 := (GetOrderByID id w1).2) in *.
  destruct ((GetOrderByID id w1).1) as [stored|err].
  2:{ destruct Hu as (Hval & Hc & _). rewrite Hc, Hval. split; [|split].
      - constructor; [right; left; eauto|]. constructor; [|constructor].
        right. right. left. eauto.
      - simpl. constructor; [reflexivity|constructor].
      - intros e [= <-]. apply not_found_or_internal_cases. }
  pose proof (enrich_calls stored w2) as Hcs.
  pose proof (enrich_err (bytes := bytes) stored w2) as Herr.
  set (t := enrich (W := W) (bytes := bytes) stored w2) in *.
  assert (Hcall : Forall GetOrder_call (calls t)).
  { eapply Forall_impl; [exact Hcs|]. intros e He. left. exact He. }
  assert (Hread : Forall (fun e : event bytes => is_mutation e = false) (calls t)).
  { eapply Forall_impl; [exact Hcs|]. intros e He. destruct e; simpl in *; congruence. }
  assert (Hhead : forall cs : list (event bytes),
             Forall GetOrder_call cs ->
             Forall GetOrder_call
                    (Call_CacheGet key (Err miss) :: Call_GetOrderByID id (Ok stored) :: cs)).
  { intros cs H. constructor; [right; left; eauto|].
    constructor; [right; right; left; eauto | exact H]. }
  assert (Hheadr : Forall (fun e : event bytes => is_mutation e = false)
                     (Call_CacheGet key (Err miss)
                      :: Call_GetOrderByID id (Ok stored) :: calls t)).
  { constructor; [reflexivity|]. constructor; [reflexivity | exact Hread]. }
  destruct (value t) as [o|e0].
  2:{ destruct Hu as (Hval & Hc & _). rewrite Hc, Hval. split; [|split].
      - apply Hhead. exact Hcall.
      - apply Forall_removelast. exact Hheadr.
      - intros e [= <-]. apply Herr. reflexivity. }
  destruct (SerializeOrder o) as [serialized|e0].
  2:{ destruct Hu as (Hval & Hc & _). rewrite Hc, Hval. split; [|split].
      - apply Hhead. exact Hcall.
      - apply Forall_removelast. exact Hheadr.
      - intros e [= <-]. auto. }
  destruct Hu as (Hval & Hc & _). rewrite Hc, Hval. split; [|split].
  - apply Hhead. apply Forall_app. split; [exact Hcall|].
    constructor; [|constructor]. right. right. right. eauto.
  - rewrite !app_comm_cons, removelast_last. exact Hheadr.
  - destruct (failed _); [|discriminate]. intros e [= <-]. auto.
Qed.

(** X5.  A GetOrder that misses the cache and succeeds has made, exactly
    and in order: the cache Get, the order read, the user read, the
    payment read, per line the product and category reads, and the cache
    Set of the serialized result with TTL 0 under the key of the id it was
    asked for.  What it returns is the stored order with user, payment
    and every line's product and category attached. *)
Theorem GetOrder_miss_trace (id : Z) (w : W) (miss : error) (o : Order.t) :
  (CacheGet (bytes := bytes) (GenerateCacheKey "order" id) w).1 = Err miss ->
  value (GetOrder (W := W) (bytes := bytes) id w) = Ok o ->
  exists (stored : Order.t) (u : User.t) (pay : Payment.t)
         (pcs : list (Product.t * Category.t)) (serialized : bytes),
    length pcs = length (Order.Products stored)
    /\ o = Order.set_Products (zip_with attached (Order.Products stored) pcs)
             (Order.set_Payment (Some pay) (Order.set_User (Some u) stored))
    /\ is_enriched o = true
    /\ SerializeOrder o = Ok serialized
    /\ calls (GetOrder (W := W) (bytes := bytes) id w)
       = Call_CacheGet (GenerateCacheKey "order" id) (Err miss)
         :: Call_GetOrderByID id (Ok stored)
         :: Call_GetUserByID (Order.UserID stored) (Ok u)
         :: Call_GetPaymentByID (Order.PaymentID stored) (Ok pay)
         :: enrichment_calls (Order.Products stored) pcs
         ++ [Call_CacheSet (GenerateCacheKey "order" id) serialized 0 None].
Proof.
  intros Hmiss Hok.
  pose proof (GetOrder_unfold id w) as Hu. cbv zeta in Hu.
  remember (GetOrder (W := W) (bytes := bytes) id w) as r eqn:Hr.
  rewrite Hmiss in Hu.
  destruct ((GetOrderByID id _).1) as [stored|err].
  2:{ destruct Hu as (Hval & _). rewrite Hval in Hok. discriminate. }
  pose proof (enrich_trace (bytes := bytes) stored) as Htrace.
  destruct (value (enrich stored _)) as [o'|e0] eqn:Hen.
  2:{ destruct Hu as (Hval & _). rewrite Hval in Hok. discriminate. }
  destruct (Htrace o' _ Hen) as (u & pay & pcs & Hlen & Ho & Hcs).
  destruct (SerializeOrder o') as [serialized|e0] eqn:Hser.
  2:{ destruct Hu as (Hval & _). rewrite Hval in Hok. discriminate. }
  destruct Hu as (Hval & Hc & _). rewrite Hval in Hok.
  destruct ((CacheSet _ serialized 0 _).1) as [e0|]; simpl in Hok; [discriminate|].
  injection Hok as <-.
  exists stored, u, pay, pcs, serialized.
  split; [exact Hlen|]. split; [exact Ho|]. split; [|split; [exact Hser|]].
  - rewrite Ho. unfold is_enriched. simpl. rewrite forallb_attached. reflexivity.
  - rewrite Hc, Hcs. reflexivity.
Qed.

(** X6.  While the cache server is unreachable GetOrder never succeeds:
    the failed Get falls back to the repository, but the failed Set of
    the result turns every order that was read into Internal. *)
Theorem GetOrder_cache_unreachable (id : Z) (w : W) :
  cache_unreachable (W := W) (bytes := bytes) ->
  is_ok (value (GetOrder (W := W) (bytes := bytes) id w)) = false.
Proof.
  intros [Hget Hset].
  pose proof (GetOrder_unfold id w) as Hu. cbv zeta in Hu.
  specialize (Hget (GenerateCacheKey "order" id) w).
  destruct ((CacheGet (GenerateCacheKey "order" id) w).1) as [cached|miss];
    [discriminate|].
  destruct ((GetOrderByID id _).1) as [stored|err].
  2:{ destruct Hu as (-> & _). reflexivity. }
  destruct (value (enrich stored _)) as [o|e0].
  2:{ destruct Hu as (-> & _). reflexivity. }
  destruct (SerializeOrder o) as [serialized|e0].
  2:{ destruct Hu as (-> & _). reflexivity. }
  destruct Hu as (-> & _). rewrite Hset. reflexivity.
Qed.

(** X7.  Read after create.  With a cache that gives back what was
    stored and a codec that round-trips orders, GetOrder of the id of an
    order that CreateOrder has just returned gives that same order, from
    the cache alone: its one call is the cache Get. *)
Theorem GetOrder_after_CreateOrder (order created : Order.t) (w : W) :
  cache_set_get (W := W) (bytes := bytes) ->
  order_round_trip (bytes := bytes) ->
  (value (CreateOrder (W := W) (bytes := bytes) order w)).2 = Ok created ->
  let g := GetOrder (W := W) (bytes := bytes) (Order.ID created)
                    (final (CreateOrder (W := W) (bytes := bytes) order w)) in
  value g = Ok created
  /\ exists serialized,
      calls g = [Call_CacheGet (GenerateCacheKey "order" (Order.ID created))
                               (Ok serialized)].
Proof.
  intros Hcache Hcodec Hok. cbv zeta.
  pose proof (CreateOrder_unfold order w) as Hu. cbv zeta in Hu.
  remember (CreateOrder (W := W) (bytes := bytes) order w) as r eqn:Hr.
  assert (Hworld : exists reply w1,
             value (after_persist (W := W) (bytes := bytes) reply w1) = Ok created
             /\ final r = final (after_persist (W := W) (bytes := bytes) reply w1)).
  { destruct ((value (validate 0 (Order.Products order) order 0 w)).2) as [total|e].
    2:{ destruct Hu as (Hval & _). rewrite Hval in Hok. discriminate. }
    destruct (PrimFloat.ltb _ total).
    { destruct Hu as (Hval & _). rewrite Hval in Hok. discriminate. }
    destruct (port.CreateOrder _ _) as [[reply|err] w1]; cbn [fst snd] in Hu.
    2:{ destruct Hu as (Hval & _). rewrite Hval in Hok. discriminate. }
    destruct Hu as (Hval & _ & Hf). rewrite Hval in Hok. eauto. }
  destruct Hworld as (reply & w1 & Htail & ->).
  destruct (after_persist_trace reply created w1 Htail)
    as (_ & _ & _ & serialized & w' & _ & _ & Hser & _ & Hset & ->).
  pose proof (GetOrder_unfold (Order.ID created)
                (CacheSet (GenerateCacheKey "order" (Order.ID created)) serialized 0 w').2)
    as Hg.
  cbv zeta in Hg. rewrite (Hcache _ _ _ _ Hset) in Hg.
  destruct Hg as (Hval & Hc & _).
  rewrite Hval, (Hcodec _ _ Hser). split; [reflexivity|]. eauto.
Qed.

(** X8.  Read after read.  Under the same two contracts, a GetOrder
    that missed the cache and succeeded is followed by a GetOrder of the
    same id that returns the same order from the cache alone. *)
Theorem GetOrder_twice (id : Z) (w : W) (miss : error) (o : Order.t) :
  cache_set_get (W := W) (bytes := bytes) ->
  order_round_trip (bytes := bytes) ->
  (CacheGet (bytes := bytes) (GenerateCacheKey "order" id) w).1 = Err miss ->
  value (GetOrder (W := W) (bytes := bytes) id w) = Ok o ->
  let g := GetOrder (W := W) (bytes := bytes) id
                    (final (GetOrder (W := W) (bytes := bytes) id w)) in
  value g = Ok o
  /\ exists serialized, calls g = [Call_CacheGet (GenerateCacheKey "order" id) (Ok serialized)].
Proof.
  intros Hcache Hcodec Hmiss Hok. cbv zeta.
  pose proof (GetOrder_unfold id w) as Hu. cbv zeta in Hu.
  remember (GetOrder (W := W) (bytes := bytes) id w) as r eqn:Hr.
  rewrite Hmiss in Hu.
  destruct ((GetOrderByID id _).1) as [stored|err].
  2:{ destruct Hu as (Hval & _). rewrite Hval in Hok. discriminate. }
  destruct (value (enrich stored _)) as [o'|e0].
  2:{ destruct Hu as (Hval & _). rewrite Hval in Hok. discriminate. }
  destruct (SerializeOrder o') as [serialized|e0] eqn:Hser.
  2:{ destruct Hu as (Hval & _). rewrite Hval in Hok. discriminate. }
  destruct Hu as (Hval & _ & Hf). rewrite Hval in Hok.
  destruct ((CacheSet _ serialized 0 _).1) as [e0|] eqn:Hset; simpl in Hok;
    [discriminate|].
  injection Hok as <-. rewrite Hf.
  pose proof (GetOrder_unfold id
                (CacheSet (GenerateCacheKey "order" id) serialized 0
                   (final (enrich (bytes := bytes) stored
                             (GetOrderByID id (CacheGet (bytes := bytes)
                                (GenerateCacheKey "order" id) w).2).2))).2) as Hg.
  cbv zeta in Hg. rewrite (Hcache _ _ _ _ Hset) in Hg.
  destruct Hg as (Hval2 & Hc & _).
  rewrite Hval2, (Hcodec _ _ Hser). split; [reflexivity|]. eauto.
Qed.

End GetMore.

(** ** The in-memory implementation keeps the contracts *)

Lemma memx_cache_set_get : cache_set_get (W := memx.store) (bytes := memx.blob).
Proof.
  intros k v ttl w. simpl. destruct (memx.cache_up w) eqn:Hup; simpl; [|discriminate].
  intros _. rewrite Hup. rewrite lookup_insert_eq. reflexivity.
Qed.

Lemma memx_order_round_trip : order_round_trip (bytes := memx.blob).
Proof. intros o b [= <-]. reflexivity. Qed.

Lemma memx_unreachable :
  cache_unreachable (W := memx.store) (bytes := memx.blob)
                    (CacheRepository0 := memx.unreachable).
Proof. split; reflexivity. Qed.

Lemma CreateOrder_write_failure_witness :
  let r := service.CreateOrder (bytes := memx.blob) shop.o_change shopx.w_read_only in
  @nil (event memx.blob) = []
  /\ value r = (shopx.submitted_change, Err ErrInternal)
  /\ Forall (fun e : event memx.blob => exists id p, e = Call_GetProductByID id (Ok p))
            [Call_GetProductByID 1 (Ok shop.tea)].
Proof.
  apply (CreateOrder_write_failure shop.o_change shopx.submitted_change
           memx.read_only_error shopx.w_read_only
           [Call_GetProductByID 1 (Ok shop.tea)] []).
  vm_compute. reflexivity.
Defined.

Lemma CreateOrder_trace_witness :
  let r := service.CreateOrder (bytes := memx.blob) shop.o_change shopx.w0 in
  exists (ps : list Product.t) (reply : Order.t) (u : User.t) (pay : Payment.t)
         (pcs : list (Product.t * Category.t)) (serialized : memx.blob),
    length ps = length (Order.Products shop.o_change)
    /\ length pcs = length (Order.Products reply)
    /\ calls r
       = fetches (Order.Products shop.o_change) ps
         ++ Call_CreateOrder (value r).1 (Ok reply)
         :: Call_GetUserByID (Order.UserID reply) (Ok u)
         :: Call_GetPaymentByID (Order.PaymentID reply) (Ok pay)
         :: enrichment_calls (Order.Products reply) pcs
         ++ [Call_CacheDeleteByPrefix "orders:*" None;
             Call_CacheSet (GenerateCacheKey "order" (Order.ID shopx.created_change))
                           serialized 0 None]
    /\ length (calls r)
       = (length (Order.Products shop.o_change) + 2 * length (Order.Products reply) + 5)%nat.
Proof.
  apply (CreateOrder_trace shop.o_change shopx.created_change shopx.w0).
  vm_compute. reflexivity.
Defined.

Lemma GetOrder_miss_trace_witness :
  exists (stored : Order.t) (u : User.t) (pay : Payment.t)
         (pcs : list (Product.t * Category.t)) (serialized : memx.blob),
    length pcs = length (Order.Products stored)
    /\ shopx.first_order
       = Order.set_Products (zip_with attached (Order.Products stored) pcs)
           (Order.set_Payment (Some pay) (Order.set_User (Some u) stored))
    /\ is_enriched shopx.first_order = true
    /\ SerializeOrder shopx.first_order = Ok serialized
    /\ calls (service.GetOrder (bytes := memx.blob) 1 shopx.w0)
       = Call_CacheGet (GenerateCacheKey "order" 1) (Err shopx.miss)
         :: Call_GetOrderByID 1 (Ok stored)
         :: Call_GetUserByID (Order.UserID stored) (Ok u)
         :: Call_GetPaymentByID (Order.PaymentID stored) (Ok pay)
         :: enrichment_calls (Order.Products stored) pcs
         ++ [Call_CacheSet (GenerateCacheKey "order" 1) serialized 0 None].
Proof.
  apply (GetOrder_miss_trace (bytes := memx.blob) 1 shopx.w0 shopx.miss shopx.first_order);
    vm_compute; reflexivity.
Defined.

Lemma GetOrder_cache_unreachable_witness :
  is_ok (value (service.GetOrder (bytes := memx.blob) (CacheRepository0 := memx.unreachable)
                                 1 shopx.w0)) = false.
Proof.
  apply (GetOrder_cache_unreachable (bytes := memx.blob)
           (CacheRepository0 := memx.unreachable) 1 shopx.w0).
  exact memx_unreachable.
Defined.

Lemma GetOrder_after_CreateOrder_witness :
  let g := service.GetOrder (bytes := memx.blob) (Order.ID shopx.created_change)
             (final (service.CreateOrder (bytes := memx.blob) shop.o_change shopx.w0)) in
  value g = Ok shopx.created_change
  /\ exists serialized,
      calls g = [Call_CacheGet (GenerateCacheKey "order" (Order.ID shopx.created_change))
                               (Ok serialized)].
Proof.
  apply (GetOrder_after_CreateOrder (bytes := memx.blob) shop.o_change
           shopx.created_change shopx.w0).
  - exact memx_cache_set_get.
  - exact memx_order_round_trip.
  - vm_compute. reflexivity.
Defined.

Lemma GetOrder_twice_witness :
  let g := service.GetOrder (bytes := memx.blob) 1
             (final (service.GetOrder (bytes := memx.blob) 1 shopx.w0)) in
  value g = Ok shopx.first_order
  /\ exists serialized, calls g = [Call_CacheGet (GenerateCacheKey "order" 1) (Ok serialized)].
Proof.
  apply (GetOrder_twice (bytes := memx.blob) 1 shopx.w0 shopx.miss shopx.first_order).
  - exact memx_cache_set_get.
  - exact memx_order_round_trip.
  - vm_compute. reflexivity.
  - vm_compute. reflexivity.
Defined.

(** ** Properties of the category service *)

Ltac ext_step :=
  unfold ext.bind, ext.port, ext.invoke, ext.ret;
  cbn [ext.value ext.final ext.calls fst snd app failed].

Ltac each_call :=
  repeat (constructor;
          [cbn; first [reflexivity | discriminate | intros _; reflexivity] |]);
  constructor.

Ltac svc_step :=
  unfold bind, invoke, ret;
  cbn [value final calls fst snd app failed orb].

Lemma prefix_empty (s : string) : String.prefix "" s = true.
Proof. destruct s; reflexivity. Qed.

Section Categories.
Context {W bytes : Type}.
Context `{!CategoryRepository W, !ext.CategoryRepositoryRest W,
          !CacheRepository W bytes, !Codec bytes, !ext.CodecRest bytes}.
Import service.

(** The key of a single category is outside the pattern of the list
    pages, and the key of every list page is inside it. *)
Lemma category_key_outside (id : Z) :
  String.prefix (mem.glob_prefix "categories:*") (GenerateCacheKey "category" id) = false.
Proof. reflexivity. Qed.

Lemma categories_key_inside (skip limit : Z) :
  String.prefix (mem.glob_prefix "categories:*")
                (ext.GenerateListKey "categories" (ext.GenerateCacheKeyParams skip limit))
  = true.
Proof. unfold ext.GenerateListKey. simpl. apply prefix_empty. Qed.

(** CreateCategory laid out along its returns. *)
Lemma CreateCategory_unfold (category : Category.t) (w : W) :
  let r := CategoryService.CreateCategory (W := W) (bytes := bytes) category w in
  let c := ext.CreateCategory category w in
  match c.1 with
  | Err err =>
      ext.value r = Err (if decide (err = ErrConflictingData) then err else ErrInternal)
      /\ ext.calls r = [ext.Call_CreateCategory category (Err err)]
      /\ ext.final r = c.2
  | Ok created =>
      let key := GenerateCacheKey "category" (Category.ID created) in
      match SerializeCategory created with
      | Err _ =>
          ext.value r = Err ErrInternal
          /\ ext.calls r = [ext.Call_CreateCategory category (Ok created)]
          /\ ext.final r = c.2
      | Ok serialized =>
          let s := CacheSet key serialized 0 c.2 in
          match s.1 with
          | Some e =>
              ext.value r = Err ErrInternal
              /\ ext.calls r = [ext.Call_CreateCategory category (Ok created);
                                ext.Port (Call_CacheSet key serialized 0 (Some e))]
              /\ ext.final r = s.2
          | None =>
              let d := CacheDeleteByPrefix (bytes := bytes) "categories:*" s.2 in
              ext.value r = (if failed d.1 then Err ErrInternal else Ok created)
              /\ ext.calls r = [ext.Call_CreateCategory category (Ok created);
                                ext.Port (Call_CacheSet key serialized 0 None);
                                ext.Port (Call_CacheDeleteByPrefix "categories:*" d.1)]
              /\ ext.final r = d.2
          end
      end
  end.
Proof.
  cbv zeta. unfold CategoryService.CreateCategory. ext_step.
  destruct (ext.CreateCategory category w) as [[created|err] w1]; ext_step; [|auto].
  destruct (SerializeCategory created) as [serialized|err]; ext_step; [|auto].
  destruct (CacheSet _ serialized 0 w1) as [[err|] w2]; ext_step; [auto|].
  destruct (CacheDeleteByPrefix "categories:*" w2) as [[err|] w3]; ext_step; auto.
Qed.

(** A successful CreateCategory, with the world it ends in. *)
Lemma CreateCategory_ok (category created : Category.t) (w : W) :
  ext.value (CategoryService.CreateCategory (W := W) (bytes := bytes) category w)
  = Ok created ->
  (ext.CreateCategory category w).1 = Ok created
  /\ exists (serialized : bytes) (w1 : W),
      SerializeCategory created = Ok serialized
      /\ (CacheSet (GenerateCacheKey "category" (Category.ID created)) serialized 0 w1).1
         = None
      /\ (CacheDeleteByPrefix (bytes := bytes) "categories:*"
            (CacheSet (GenerateCacheKey "category" (Category.ID created))
                      serialized 0 w1).2).1 = None
      /\ ext.final (CategoryService.CreateCategory (W := W) (bytes := bytes) category w)
         = (CacheDeleteByPrefix (bytes := bytes) "categories:*"
              (CacheSet (GenerateCacheKey "category" (Category.ID created))
                        serialized 0 w1).2).2
      /\ ext.calls (CategoryService.CreateCategory (W := W) (bytes := bytes) category w)
         = [ext.Call_CreateCategory category (Ok created);
            ext.Port (Call_CacheSet (GenerateCacheKey "category" (Category.ID created))
                                    serialized 0 None);
            ext.Port (Call_CacheDeleteByPrefix "categories:*" None)].
Proof.
  intros Hok.
  pose proof (CreateCategory_unfold category w) as Hu. cbv zeta in Hu.
  destruct ((ext.CreateCategory category w).1) as [c|err].
  2:{ destruct Hu as (Hv & _). rewrite Hv in Hok. discriminate. }
  destruct (SerializeCategory c) as [serialized|err] eqn:Hser.
  2:{ destruct Hu as (Hv & _). rewrite Hv in Hok. discriminate. }
  destruct ((CacheSet _ serialized 0 _).1) as [err|] eqn:Hset.
  { destruct Hu as (Hv & _). rewrite Hv in Hok. discriminate. }
  destruct Hu as (Hv & Hc & Hf). rewrite Hv in Hok.
  destruct ((CacheDeleteByPrefix "categories:*" _).1) as [err|] eqn:Hdel; simpl in Hok;
    [discriminate|].
  injection Hok as <-. split; [reflexivity|].
  exists serialized, (ext.CreateCategory category w).2.
  rewrite Hser. auto.
Qed.

(** X9.  A successful CreateCategory returns the record the repository
    replied with (not the one submitted) and has made exactly three
    calls: the repository write, the cache Set of the serialized reply
    with TTL 0 under category:<id of the reply>, and the deletion of the
    keys categories:*. *)
Theorem CreateCategory_trace (category created : Category.t) (w : W) :
  let r := CategoryService.CreateCategory (W := W) (bytes := bytes) category w in
  ext.value r = Ok created ->
  (ext.CreateCategory category w).1 = Ok created
  /\ exists serialized : bytes,
      SerializeCategory created = Ok serialized
      /\ ext.calls r
         = [ext.Call_CreateCategory category (Ok created);
            ext.Port (Call_CacheSet (GenerateCacheKey "category" (Category.ID created))
                                    serialized 0 None);
            ext.Port (Call_CacheDeleteByPrefix "categories:*" None)].
Proof.
  cbv zeta. intros Hok.
  destruct (CreateCategory_ok category created w Hok)
    as (Hrepo & serialized & w1 & Hser & _ & _ & _ & Hc).
  split; [exact Hrepo|]. exists serialized. auto.
Qed.

(** X10.  An error returned by CreateCategory is Conflict or Internal.
    It is Conflict only when the repository itself reported a conflict,
    in which case the cache was not touched; and it is Internal whenever
    the repository accepted the category but a later step failed, though
    the category is then stored. *)
Theorem CreateCategory_errors (category : Category.t) (w : W) (e : error) :
  let r := CategoryService.CreateCategory (W := W) (bytes := bytes) category w in
  ext.value r = Err e ->
  (e = ErrConflictingData
   /\ ext.calls r = [ext.Call_CreateCategory category (Err ErrConflictingData)])
  \/ (e = ErrInternal
      /\ exists reply rest, ext.calls r = ext.Call_CreateCategory category reply :: rest
                            /\ Forall (fun c => ext.on_cache c = true) rest
                            /\ reply <> Err ErrConflictingData).
Proof.
  cbv zeta. intros Herr.
  pose proof (CreateCategory_unfold category w) as Hu. cbv zeta in Hu.
  destruct ((ext.CreateCategory category w).1) as [c|err].
  2:{ destruct Hu as (Hv & Hc & _). rewrite Hv in Herr. injection Herr as <-.
      destruct (decide (err = ErrConflictingData)) as [->|Hne]; [left; auto|].
      right. split; [reflexivity|]. exists (Err err), []. split; [exact Hc|].
      split; [constructor|]. intros [= ->]. auto. }
  right.
  destruct (SerializeCategory c) as [serialized|err].
  2:{ destruct Hu as (Hv & Hc & _). rewrite Hv in Herr. injection Herr as <-.
      split; [reflexivity|]. exists (Ok c), []. split; [exact Hc|].
      split; [constructor|discriminate]. }
  destruct ((CacheSet _ serialized 0 _).1) as [err|].
  { destruct Hu as (Hv & Hc & _). rewrite Hv in Herr. injection Herr as <-.
    split; [reflexivity|]. eexists (Ok c), _. split; [exact Hc|].
    split; [repeat constructor|discriminate]. }
  destruct Hu as (Hv & Hc & _). rewrite Hv in Herr.
  destruct ((CacheDeleteByPrefix "categories:*" _).1) as [err|]; simpl in Herr;
    [|discriminate].
  injection Herr as <-.
  split; [reflexivity|]. eexists (Ok c), _. split; [exact Hc|].
  split; [repeat constructor|discriminate].
Qed.

(** GetCategory on a cache hit, and the first two calls on a miss. *)
Lemma GetCategory_hit (id : Z) (w : W) (cached : bytes) :
  (CacheGet (bytes := bytes) (GenerateCacheKey "category" id) w).1 = Ok cached ->
  let r := CategoryService.GetCategory (W := W) (bytes := bytes) id w in
  ext.value r = match ext.DeserializeCategory cached with
                | Ok c => Ok c
                | Err _ => Err ErrInternal
                end
  /\ ext.calls r = [ext.Port (Call_CacheGet (GenerateCacheKey "category" id) (Ok cached))].
Proof.
  intros Hhit. cbv zeta. unfold CategoryService.GetCategory. ext_step. rewrite Hhit.
  destruct (ext.DeserializeCategory cached); ext_step; auto.
Qed.

Lemma GetCategory_miss (id : Z) (w : W) :
  is_ok (CacheGet (bytes := bytes) (GenerateCacheKey "category" id) w).1 = false ->
  exists miss reply rest,
    ext.calls (CategoryService.GetCategory (W := W) (bytes := bytes) id w)
    = ext.Port (Call_CacheGet (GenerateCacheKey "category" id) (Err miss))
      :: ext.Port (Call_GetCategoryByID id reply) :: rest.
Proof.
  intros Hmiss. unfold CategoryService.GetCategory. ext_step.
  destruct ((CacheGet (GenerateCacheKey "category" id) w).1) as [cached|miss];
    [discriminate|].
  ext_step. eauto.
Qed.

(** X11.  GetCategory makes at most three calls, never writes to the
    repository (its only write is the cache Set, as the last call), and
    an error it returns is NotFound or Internal. *)
Theorem GetCategory_reads (id : Z) (w : W) :
  let r := CategoryService.GetCategory (W := W) (bytes := bytes) id w in
  Forall (fun c => ext.writes c = false) (removelast (ext.calls r))
  /\ Forall (fun c => ext.writes c = true -> ext.on_cache c = true) (ext.calls r)
  /\ (length (ext.calls r) <= 3)%nat
  /\ (forall e, ext.value r = Err e -> e = ErrDataNotFound \/ e = ErrInternal).
Proof.
  cbv zeta. unfold CategoryService.GetCategory. ext_step.
  destruct (CacheGet (GenerateCacheKey "category" id) w) as [[cached|miss] w1]; ext_step.
  { destruct (ext.DeserializeCategory cached) as [c|err]; ext_step;
      cbn [removelast length];
      (split; [each_call|]); (split; [each_call|]);
      (split; [lia|]); intros e He; inversion He; auto. }
  destruct (GetCategoryByID id w1) as [[c|err] w2]; ext_step.
  2:{ cbn [removelast length]. split; [each_call|]. split; [each_call|].
      split; [lia|]. intros e [= <-]. apply not_found_or_internal_cases. }
  destruct (SerializeCategory c) as [serialized|err]; ext_step.
  2:{ cbn [removelast length]. split; [each_call|]. split; [each_call|].
      split; [lia|]. intros e [= <-]. auto. }
  destruct (CacheSet _ serialized 0 w2) as [[err|] w3]; ext_step;
    cbn [removelast length];
    (split; [each_call|]); (split; [each_call|]);
    (split; [lia|]); intros e He; inversion He; auto.
Qed.

(** X12.  Read after create.  With a cache that gives back what was
    stored and leaves alone the keys outside a deleted pattern, and a
    codec that round-trips categories, GetCategory of the id of the
    category CreateCategory just returned gives that category with a
    single call, the cache Get. *)
Theorem GetCategory_after_CreateCategory (category created : Category.t) (w : W) :
  cache_set_get (W := W) (bytes := bytes) ->
  cache_prefix_keeps (W := W) (bytes := bytes) ->
  category_round_trip (bytes := bytes) ->
  ext.value (CategoryService.CreateCategory (W := W) (bytes := bytes) category w)
  = Ok created ->
  let g := CategoryService.GetCategory (W := W) (bytes := bytes) (Category.ID created)
             (ext.final (CategoryService.CreateCategory (W := W) (bytes := bytes)
                                                        category w)) in
  ext.value g = Ok created
  /\ exists serialized,
      ext.calls g = [ext.Port (Call_CacheGet
                                 (GenerateCacheKey "category" (Category.ID created))
                                 (Ok serialized))].
Proof.
  intros Hget Hkeeps Hcodec Hok. cbv zeta.
  destruct (CreateCategory_ok category created w Hok)
    as (_ & serialized & w1 & Hser & Hset & _ & -> & _).
  destruct (GetCategory_hit (Category.ID created)
              (CacheDeleteByPrefix (bytes := bytes) "categories:*"
                 (CacheSet (GenerateCacheKey "category" (Category.ID created))
                           serialized 0 w1).2).2 serialized) as (Hv & Hc).
  { rewrite Hkeeps by apply category_key_outside. apply Hget. exact Hset. }
  rewrite Hv, Hc, (Hcodec _ _ Hser). split; [reflexivity|]. eauto.
Qed.

(** UpdateCategory when it succeeds, with the world it ends in. *)
Lemma UpdateCategory_ok (category updated : Category.t) (w : W) :
  value (UpdateCategory (W := W) (bytes := bytes) category w) = Ok updated ->
  updated = category
  /\ exists (existing reply : Category.t) (serialized : bytes) (w1 : W),
      Category.Name category <> ""%string
      /\ Category.Name existing <> Category.Name category
      /\ SerializeCategory category = Ok serialized
      /\ (CacheSet (GenerateCacheKey "category" (Category.ID category)) serialized 0 w1).1
         = None
      /\ (CacheDeleteByPrefix (bytes := bytes) "categories:*"
            (CacheSet (GenerateCacheKey "category" (Category.ID category))
                      serialized 0 w1).2).1 = None
      /\ final (UpdateCategory (W := W) (bytes := bytes) category w)
         = (CacheDeleteByPrefix (bytes := bytes) "categories:*"
              (CacheSet (GenerateCacheKey "category" (Category.ID category))
                        serialized 0 w1).2).2
      /\ calls (UpdateCategory (W := W) (bytes := bytes) category w)
         = [Call_GetCategoryByID (Category.ID category) (Ok existing);
            Call_UpdateCategory category (Ok reply);
            Call_CacheDelete (GenerateCacheKey "category" (Category.ID category)) None;
            Call_CacheSet (GenerateCacheKey "category" (Category.ID category))
                          serialized 0 None;
            Call_CacheDeleteByPrefix "categories:*" None].
Proof.
  unfold UpdateCategory. svc_step.
  destruct (GetCategoryByID (Category.ID category) w) as [[existing|err] w1]; svc_step;
    [|discriminate].
  destruct (bool_decide (Category.Name category = ""%string)) eqn:Hempty; svc_step;
    [discriminate|].
  destruct (bool_decide (Category.Name existing = Category.Name category)) eqn:Hsame;
    svc_step; [discriminate|].
  apply bool_decide_eq_false in Hempty, Hsame.
  destruct (port.UpdateCategory category w1) as [[reply|err] w2]; svc_step;
    [|discriminate].
  destruct (CacheDelete (GenerateCacheKey "category" (Category.ID category)) w2)
    as [[err|] w3]; svc_step; [discriminate|].
  destruct (SerializeCategory category) as [serialized|err]; svc_step; [|discriminate].
  destruct (CacheSet (GenerateCacheKey "category" (Category.ID category)) serialized 0 w3)
    as [[err|] w4] eqn:Hset; svc_step; [discriminate|].
  destruct (CacheDeleteByPrefix "categories:*" w4) as [[err|] w5] eqn:Hdel; svc_step;
    [discriminate|].
  intros [= <-]. split; [reflexivity|].
  exists existing, reply, serialized, w3. rewrite Hset. cbn [fst snd]. rewrite Hdel.
  repeat split; auto.
Qed.

(** X13.  A successful UpdateCategory returns the category that was
    submitted, whatever record the repository replied with, after
    exactly five calls: the read of the existing category, the
    repository update, the cache Delete of category:<id>, the cache Set
    of the serialized submitted category under the same key, and the
    deletion of the keys categories:*.  The submitted name is neither
    empty nor the stored one. *)
Theorem UpdateCategory_trace (category updated : Category.t) (w : W) :
  let r := UpdateCategory (W := W) (bytes := bytes) category w in
  value r = Ok updated ->
  updated = category
  /\ exists (existing reply : Category.t) (serialized : bytes),
      Category.Name category <> ""%string
      /\ Category.Name existing <> Category.Name category
      /\ SerializeCategory category = Ok serialized
      /\ calls r
         = [Call_GetCategoryByID (Category.ID category) (Ok existing);
            Call_UpdateCategory category (Ok reply);
            Call_CacheDelete (GenerateCacheKey "category" (Category.ID category)) None;
            Call_CacheSet (GenerateCacheKey "category" (Category.ID category))
                          serialized 0 None;
            Call_CacheDeleteByPrefix "categories:*" None].
Proof.
  cbv zeta. intros Hok.
  destruct (UpdateCategory_ok category updated w Hok)
    as (Heq & existing & reply & serialized & w1 & Hne & Hdiff & Hser & _ & _ & _ & Hc).
  split; [exact Heq|]. exists existing, reply, serialized. auto.
Qed.

(** X14.  An error returned by UpdateCategory is NotFound,
    NoUpdatedData, Conflict or Internal.  The cache is touched only
    after the repository has accepted the update: without an accepted
    update every call is a repository call; and once the update is
    accepted the only error left is Internal. *)
Theorem UpdateCategory_errors (category : Category.t) (w : W) :
  let r := UpdateCategory (W := W) (bytes := bytes) category w in
  (forall e, value r = Err e ->
             e = ErrDataNotFound \/ e = ErrNoUpdatedData
             \/ e = ErrConflictingData \/ e = ErrInternal)
  /\ ((forall reply, ~ In (Call_UpdateCategory category (Ok reply)) (calls r)) ->
      Forall (fun e : event bytes => is_repo_call e = true) (calls r))
  /\ (forall reply e, In (Call_UpdateCategory category (Ok reply)) (calls r) ->
                      value r = Err e -> e = ErrInternal).
Proof.
  cbv zeta. unfold UpdateCategory. svc_step.
  destruct (GetCategoryByID (Category.ID category) w) as [[existing|err] w1]; svc_step.
  2:{ split; [|split].
      - intros e [= <-]. destruct (not_found_or_internal_cases err) as [-> | ->]; auto.
      - intros _. repeat constructor.
      - intros reply e [Hin|[]]. discriminate. }
  destruct (bool_decide (Category.Name category = ""%string)
            || bool_decide (Category.Name existing = Category.Name category)); svc_step.
  { split; [|split].
    - intros e [= <-]. auto.
    - intros _. repeat constructor.
    - intros reply e [Hin|[]]. discriminate. }
  destruct (port.UpdateCategory category w1) as [[reply|err] w2]; svc_step.
  2:{ split; [|split].
      - intros e [= <-]. destruct (decide (err = ErrConflictingData)) as [->|]; auto.
      - intros _. repeat constructor.
      - intros reply e [Hin|[Hin|[]]]; discriminate. }
  assert (Hacc : forall l : list (event bytes),
             (forall reply0, ~ In (Call_UpdateCategory category (Ok reply0))
                               (Call_GetCategoryByID (Category.ID category) (Ok existing)
                                :: Call_UpdateCategory category (Ok reply) :: l)) ->
             Forall (fun e : event bytes => is_repo_call e = true)
                    (Call_GetCategoryByID (Category.ID category) (Ok existing)
                     :: Call_UpdateCategory category (Ok reply) :: l)).
  { intros l Hno. destruct (Hno reply). right. left. reflexivity. }
  destruct (CacheDelete (GenerateCacheKey "category" (Category.ID category)) w2)
    as [[err|] w3]; svc_step.
  { split; [|split]; [intros e [= <-]; auto | apply Hacc | intros reply0 e _ [= <-]; auto]. }
  destruct (SerializeCategory category) as [serialized|err]; svc_step.
  2:{ split; [|split]; [intros e [= <-]; auto | apply Hacc
                        | intros reply0 e _ [= <-]; auto]. }
  destruct (CacheSet (GenerateCacheKey "category" (Category.ID category)) serialized 0 w3)
    as [[err|] w4]; svc_step.
  { split; [|split]; [intros e [= <-]; auto | apply Hacc | intros reply0 e _ [= <-]; auto]. }
  destruct (CacheDeleteByPrefix "categories:*" w4) as [[err|] w5]; svc_step.
  { split; [|split]; [intros e [= <-]; auto | apply Hacc | intros reply0 e _ [= <-]; auto]. }
  split; [|split]; [discriminate | apply Hacc | discriminate].
Qed.

(** X15.  Read after update.  Under the contracts of X12, GetCategory of
    the id of a category that UpdateCategory has just updated returns the
    category as it was submitted, with a single call, the cache Get. *)
Theorem GetCategory_after_UpdateCategory (category updated : Category.t) (w : W) :
  cache_set_get (W := W) (bytes := bytes) ->
  cache_prefix_keeps (W := W) (bytes := bytes) ->
  category_round_trip (bytes := bytes) ->
  value (UpdateCategory (W := W) (bytes := bytes) category w) = Ok updated ->
  let g := CategoryService.GetCategory (W := W) (bytes := bytes) (Category.ID category)
             (final (UpdateCategory (W := W) (bytes := bytes) category w)) in
  ext.value g = Ok category
  /\ exists serialized,
      ext.calls g = [ext.Port (Call_CacheGet
                                 (GenerateCacheKey "category" (Category.ID category))
                                 (Ok serialized))].
Proof.
  intros Hget Hkeeps Hcodec Hok. cbv zeta.
  destruct (UpdateCategory_ok category updated w Hok)
    as (_ & existing & reply & serialized & w1 & _ & _ & Hser & Hset & _ & -> & _).
  destruct (GetCategory_hit (Category.ID category)
              (CacheDeleteByPrefix (bytes := bytes) "categories:*"
                 (CacheSet (GenerateCacheKey "category" (Category.ID category))
                           serialized 0 w1).2).2 serialized) as (Hv & Hc).
  { rewrite Hkeeps by apply category_key_outside. apply Hget. exact Hset. }
  rewrite Hv, Hc, (Hcodec _ _ Hser). split; [reflexivity|]. eauto.
Qed.

(** DeleteCategory laid out along its returns. *)
Lemma DeleteCategory_unfold (id : Z) (w : W) :
  let r := CategoryService.DeleteCategory (W := W) (bytes := bytes) id w in
  let key := GenerateCacheKey "category" id in
  let g := GetCategoryByID id w in
  match g.1 with
  | Err err =>
      ext.value r = Some (not_found_or_internal err)
      /\ ext.calls r = [ext.Port (Call_GetCategoryByID id (Err err))]
  | Ok existing =>
      let d := CacheDelete (bytes := bytes) key g.2 in
      match d.1 with
      | Some e =>
          ext.value r = Some ErrInternal
          /\ ext.calls r = [ext.Port (Call_GetCategoryByID id (Ok existing));
                            ext.Port (Call_CacheDelete key (Some e))]
      | None =>
          let p := CacheDeleteByPrefix (bytes := bytes) "categories:*" d.2 in
          match p.1 with
          | Some e =>
              ext.value r = Some ErrInternal
              /\ ext.calls r = [ext.Port (Call_GetCategoryByID id (Ok existing));
                                ext.Port (Call_CacheDelete key None);
                                ext.Port (Call_CacheDeleteByPrefix "categories:*" (Some e))]
          | None =>
              let x := ext.DeleteCategory id p.2 in
              ext.value r = x.1
              /\ ext.calls r = [ext.Port (Call_GetCategoryByID id (Ok existing));
                                ext.Port (Call_CacheDelete key None);
                                ext.Port (Call_CacheDeleteByPrefix "categories:*" None);
                                ext.Call_DeleteCategory id x.1]
              /\ ext.final r = x.2
          end
      end
  end.
Proof.
  cbv zeta. unfold CategoryService.DeleteCategory. ext_step.
  destruct (GetCategoryByID id w) as [[existing|err] w1]; ext_step; [|auto].
  destruct (CacheDelete (GenerateCacheKey "category" id) w1) as [[err|] w2]; ext_step;
    [auto|].
  destruct (CacheDeleteByPrefix "categories:*" w2) as [[err|] w3]; ext_step; auto.
Qed.

(** X16.  DeleteCategory either stops before the repository delete, with
    NotFound or Internal and without any repository write, or it has
    made exactly four calls (the read of the category, the cache Delete
    of category:<id>, the deletion of the keys categories:*, the
    repository delete) and returns whatever the repository delete
    replied, error included, as it is: this one error is not mapped to
    Internal. *)
Theorem DeleteCategory_result (id : Z) (w : W) :
  let r := CategoryService.DeleteCategory (W := W) (bytes := bytes) id w in
  (exists (existing : Category.t) (reply : option error),
      ext.calls r
      = [ext.Port (Call_GetCategoryByID id (Ok existing));
         ext.Port (Call_CacheDelete (GenerateCacheKey "category" id) None);
         ext.Port (Call_CacheDeleteByPrefix "categories:*" None);
         ext.Call_DeleteCategory id reply]
      /\ ext.value r = reply)
  \/ ((ext.value r = Some ErrDataNotFound \/ ext.value r = Some ErrInternal)
      /\ Forall (fun c => ext.writes c = true -> ext.on_cache c = true) (ext.calls r)).
Proof.
  cbv zeta.
  pose proof (DeleteCategory_unfold id w) as Hu. cbv zeta in Hu.
  destruct ((GetCategoryByID id w).1) as [existing|err].
  2:{ right. destruct Hu as (-> & ->). split.
      - destruct (not_found_or_internal_cases err) as [-> | ->]; auto.
      - each_call. }
  destruct ((CacheDelete _ _).1) as [err|].
  { right. destruct Hu as (-> & ->). split; [auto|]. each_call. }
  destruct ((CacheDeleteByPrefix _ _).1) as [err|].
  { right. destruct Hu as (-> & ->). split; [auto|]. each_call. }
  left. destruct Hu as (-> & -> & _). eauto.
Qed.

(** X17.  No stale read after delete.  With a cache whose Delete removes
    the key and whose deletion by pattern leaves the other keys alone,
    and a repository delete that does not write to the cache, GetCategory
    of an id that DeleteCategory has just deleted misses the cache and
    goes to the repository. *)
Theorem GetCategory_after_DeleteCategory (id : Z) (w : W) :
  cache_delete_removes (W := W) (bytes := bytes) ->
  cache_prefix_keeps (W := W) (bytes := bytes) ->
  delete_keeps_cache (W := W) (bytes := bytes) ->
  ext.value (CategoryService.DeleteCategory (W := W) (bytes := bytes) id w) = None ->
  exists miss reply rest,
    ext.calls (CategoryService.GetCategory (W := W) (bytes := bytes) id
                 (ext.final (CategoryService.DeleteCategory (W := W) (bytes := bytes) id w)))
    = ext.Port (Call_CacheGet (GenerateCacheKey "category" id) (Err miss))
      :: ext.Port (Call_GetCategoryByID id reply) :: rest.
Proof.
  intros Hdel Hkeeps Hrepo Hok.
  pose proof (DeleteCategory_unfold id w) as Hu. cbv zeta in Hu.
  destruct ((GetCategoryByID id w).1) as [existing|err].
  2:{ destruct Hu as (Hv & _). rewrite Hv in Hok. discriminate. }
  destruct ((CacheDelete _ _).1) as [err|] eqn:Hd.
  { destruct Hu as (Hv & _). rewrite Hv in Hok. discriminate. }
  destruct ((CacheDeleteByPrefix _ _).1) as [err|].
  { destruct Hu as (Hv & _). rewrite Hv in Hok. discriminate. }
  destruct Hu as (_ & _ & ->).
  apply GetCategory_miss.
  rewrite Hrepo, Hkeeps by apply category_key_outside.
  apply Hdel. exact Hd.
Qed.

(** ListCategories laid out along its returns. *)
Lemma ListCategories_unfold (skip limit : Z) (w : W) :
  let r := CategoryService.ListCategories (W := W) (bytes := bytes) skip limit w in
  let key := ext.GenerateListKey "categories" (ext.GenerateCacheKeyParams skip limit) in
  let c := CacheGet (bytes := bytes) key w in
  match c.1 with
  | Ok cached =>
      ext.value r = match ext.DeserializeCategories cached with
                    | Ok l => Ok l
                    | Err _ => Err ErrInternal
                    end
      /\ ext.calls r = [ext.Port (Call_CacheGet key (Ok cached))]
  | Err miss =>
      let l := ext.ListCategories skip limit c.2 in
      match l.1 with
      | Err err =>
          ext.value r = Err ErrInternal
          /\ ext.calls r = [ext.Port (Call_CacheGet key (Err miss));
                            ext.Call_ListCategories skip limit (Err err)]
      | Ok categories =>
          match ext.SerializeCategories categories with
          | Err _ =>
              ext.value r = Err ErrInternal
              /\ ext.calls r = [ext.Port (Call_CacheGet key (Err miss));
                                ext.Call_ListCategories skip limit (Ok categories)]
          | Ok serialized =>
              let s := CacheSet key serialized 0 l.2 in
              ext.value r = (if failed s.1 then Err ErrInternal else Ok categories)
              /\ ext.calls r = [ext.Port (Call_CacheGet key (Err miss));
                                ext.Call_ListCategories skip limit (Ok categories);
                                ext.Port (Call_CacheSet key serialized 0 s.1)]
          end
      end
  end.
Proof.
  cbv zeta. unfold CategoryService.ListCategories. ext_step.
  destruct (CacheGet _ w) as [[cached|miss] w1]; ext_step.
  { destruct (ext.DeserializeCategories cached); ext_step; auto. }
  destruct (ext.ListCategories skip limit w1) as [[l|err] w2]; ext_step; [|auto].
  destruct (ext.SerializeCategories l) as [serialized|err]; ext_step; [|auto].
  destruct (CacheSet _ serialized 0 w2) as [[err|] w3]; ext_step; auto.
Qed.

(** X18.  ListCategories returns no error but Internal (a NotFound of
    the repository included), never writes to the repository, and when
    it succeeds the page comes either from the cache alone (one call) or
    from the repository, in which case it is stored in the cache under
    categories:<skip>-<limit> as the third and last call. *)
Theorem ListCategories_outcomes (skip limit : Z) (w : W) :
  let r := CategoryService.ListCategories (W := W) (bytes := bytes) skip limit w in
  let key := ext.GenerateListKey "categories" (ext.GenerateCacheKeyParams skip limit) in
  (forall e, ext.value r = Err e -> e = ErrInternal)
  /\ Forall (fun c => ext.writes c = true -> ext.on_cache c = true) (ext.calls r)
  /\ (forall l, ext.value r = Ok l ->
        (exists cached,
            ext.DeserializeCategories cached = Ok l
            /\ ext.calls r = [ext.Port (Call_CacheGet key (Ok cached))])
        \/ (exists miss serialized,
               ext.SerializeCategories l = Ok serialized
               /\ ext.calls r = [ext.Port (Call_CacheGet key (Err miss));
                                 ext.Call_ListCategories skip limit (Ok l);
                                 ext.Port (Call_CacheSet key serialized 0 None)])).
Proof.
  cbv zeta.
  pose proof (ListCategories_unfold skip limit w) as Hu. cbv zeta in Hu.
  destruct ((CacheGet _ w).1) as [cached|miss].
  { destruct Hu as (-> & ->). split; [|split].
    - destruct (ext.DeserializeCategories cached) as [l0|err]; [discriminate|].
      intros e [= <-]. auto.
    - each_call.
    - intros l Hl. left. exists cached. split; [|reflexivity].
      destruct (ext.DeserializeCategories cached) as [l0|err]; [congruence|discriminate]. }
  destruct ((ext.ListCategories skip limit _).1) as [l|err].
  2:{ destruct Hu as (-> & ->). split; [|split].
      - intros e [= <-]. auto.
      - each_call.
      - discriminate. }
  destruct (ext.SerializeCategories l) as [serialized|err] eqn:Hser.
  2:{ destruct Hu as (-> & ->). split; [|split].
      - intros e [= <-]. auto.
      - each_call.
      - discriminate. }
  destruct Hu as (-> & ->). split; [|split].
  - destruct (failed _); [|discriminate]. intros e [= <-]. auto.
  - each_call.
  - intros l'. destruct ((CacheSet _ serialized 0 _).1) as [err|]; simpl; [discriminate|].
    intros [= <-]. right. exists miss, serialized. auto.
Qed.

Lemma ListCategories_miss (skip limit : Z) (w : W) :
  is_ok (CacheGet (bytes := bytes)
           (ext.GenerateListKey "categories" (ext.GenerateCacheKeyParams skip limit)) w).1
  = false ->
  exists miss reply rest,
    ext.calls (CategoryService.ListCategories (W := W) (bytes := bytes) skip limit w)
    = ext.Port (Call_CacheGet
                  (ext.GenerateListKey "categories" (ext.GenerateCacheKeyParams skip limit))
                  (Err miss))
      :: ext.Call_ListCategories skip limit reply :: rest.
Proof.
  intros Hmiss.
  pose proof (ListCategories_unfold skip limit w) as Hu. cbv zeta in Hu.
  destruct ((CacheGet _ w).1) as [cached|miss]; [discriminate|].
  destruct ((ext.ListCategories skip limit _).1) as [l|err].
  2:{ destruct Hu as (_ & ->). eauto. }
  destruct (ext.SerializeCategories l) as [serialized|err].
  2:{ destruct Hu as (_ & ->). eauto. }
  destruct Hu as (_ & ->). eauto.
Qed.

(** X19.  No stale page after a write.  With a cache whose deletion by
    pattern removes the keys inside the pattern, and a repository delete
    that does not write to the cache: in the world a successful
    CreateCategory, UpdateCategory or DeleteCategory ends in, every
    ListCategories, whatever the page, misses the cache and reads the
    page from the repository. *)
Theorem ListCategories_after_write (skip limit : Z) (w' : W) :
  cache_prefix_removes (W := W) (bytes := bytes) ->
  delete_keeps_cache (W := W) (bytes := bytes) ->
  (exists category created w,
      ext.value (CategoryService.CreateCategory (W := W) (bytes := bytes) category w)
      = Ok created
      /\ w' = ext.final (CategoryService.CreateCategory (W := W) (bytes := bytes)
                                                        category w))
  \/ (exists category updated w,
         value (UpdateCategory (W := W) (bytes := bytes) category w) = Ok updated
         /\ w' = final (UpdateCategory (W := W) (bytes := bytes) category w))
  \/ (exists id w,
         ext.value (CategoryService.DeleteCategory (W := W) (bytes := bytes) id w) = None
         /\ w' = ext.final (CategoryService.DeleteCategory (W := W) (bytes := bytes) id w)) ->
  exists miss reply rest,
    ext.calls (CategoryService.ListCategories (W := W) (bytes := bytes) skip limit w')
    = ext.Port (Call_CacheGet
                  (ext.GenerateListKey "categories" (ext.GenerateCacheKeyParams skip limit))
                  (Err miss))
      :: ext.Call_ListCategories skip limit reply :: rest.
Proof.
  intros Hremoves Hrepo Hwrite. apply ListCategories_miss.
  destruct Hwrite as [(category & created & w & Hok & ->)
                     | [(category & updated & w & Hok & ->) | (id & w & Hok & ->)]].
  - destruct (CreateCategory_ok category created w Hok)
      as (_ & serialized & w1 & _ & _ & Hdel & -> & _).
    apply Hremoves; [apply categories_key_inside | exact Hdel].
  - destruct (UpdateCategory_ok category updated w Hok)
      as (_ & existing & reply & serialized & w1 & _ & _ & _ & _ & Hdel & -> & _).
    apply Hremoves; [apply categories_key_inside | exact Hdel].
  - pose proof (DeleteCategory_unfold id w) as Hu. cbv zeta in Hu.
    destruct ((GetCategoryByID id w).1) as [existing|err].
    2:{ destruct Hu as (Hv & _). rewrite Hv in Hok. discriminate. }
    destruct ((CacheDelete _ _).1) as [err|].
    { destruct Hu as (Hv & _). rewrite Hv in Hok. discriminate. }
    destruct ((CacheDeleteByPrefix _ _).1) as [err|] eqn:Hdel.
    { destruct Hu as (Hv & _). rewrite Hv in Hok. discriminate. }
    destruct Hu as (_ & _ & ->). rewrite Hrepo.
    apply Hremoves; [apply categories_key_inside | exact Hdel].
Qed.

End Categories.

(** ** Properties of ListOrders *)

Lemma insert_middle {A} (x : A) (pre : list A) (a : A) (post : list A) :
  <[length pre := x]> (pre ++ a :: post) = pre ++ x :: post.
Proof. induction pre as [|b pre IH]; simpl; [reflexivity|]. f_equal. exact IH. Qed.

Section Listing.
Context {W bytes : Type}.
Context `{!ProductRepository W, !OrderRepository W, !ext.OrderRepositoryRest W,
          !CategoryRepository W, !UserRepository W, !PaymentRepository W,
          !CacheRepository W bytes, !Codec bytes, !ext.CodecRest bytes}.
Import service.

Lemma attach_parties_err (items : list Order.t) :
  forall (i : nat) (orders : list Order.t) (w : W) (e : error),
    ext.value (OrderService.attach_parties (W := W) (bytes := bytes) i items orders w)
    = Err e ->
    e = ErrDataNotFound \/ e = ErrInternal.
Proof.
  induction items as [|o rest IH]; intros i orders w e; simpl; [discriminate|].
  ext_step.
  destruct (GetUserByID (Order.UserID o) w) as [[u|err] w1]; ext_step;
    [|intros [= <-]; apply not_found_or_internal_cases].
  destruct (GetPaymentByID (Order.PaymentID o) w1) as [[pay|err] w2]; ext_step;
    [|intros [= <-]; apply not_found_or_internal_cases].
  apply IH.
Qed.

Lemma attach_parties_calls (items : list Order.t) :
  forall (i : nat) (orders : list Order.t) (w : W),
    Forall (fun c => ext.writes c = false)
           (ext.calls (OrderService.attach_parties (W := W) (bytes := bytes)
                         i items orders w)).
Proof.
  induction items as [|o rest IH]; intros i orders w; simpl; [constructor|].
  ext_step.
  destruct (GetUserByID (Order.UserID o) w) as [[u|err] w1]; ext_step; [|each_call].
  destruct (GetPaymentByID (Order.PaymentID o) w1) as [[pay|err] w2]; ext_step;
    [|each_call].
  constructor; [reflexivity|]. constructor; [reflexivity|]. apply IH.
Qed.

Lemma attach_products_err (items : list Order.t) :
  forall (i : nat) (orders : list Order.t) (w : W) (e : error),
    ext.value (OrderService.attach_products (W := W) (bytes := bytes) i items orders w)
    = Err e ->
    e = ErrDataNotFound \/ e = ErrInternal.
Proof.
  induction items as [|o rest IH]; intros i orders w e; simpl; [discriminate|].
  unfold ext.outer_value, ext.outer_final.
  pose proof (enrich_products_err (bytes := bytes) (Order.Products o) 0%nat o w) as Herr.
  destruct (value (enrich_products 0 (Order.Products o) o w)) as [o'|err].
  - apply IH.
  - ext_step. intros [= <-]. apply Herr. reflexivity.
Qed.

Lemma attach_products_calls (items : list Order.t) :
  forall (i : nat) (orders : list Order.t) (w : W),
    Forall (fun c => ext.writes c = false)
           (ext.calls (OrderService.attach_products (W := W) (bytes := bytes)
                         i items orders w)).
Proof.
  induction items as [|o rest IH]; intros i orders w; simpl; [constructor|].
  unfold ext.outer_value, ext.outer_final, ext.outer_calls.
  pose proof (enrich_products_calls (bytes := bytes) (Order.Products o) 0%nat o w) as Hreads.
  apply Forall_app. split.
  - apply Forall_fmap. eapply Forall_impl; [exact Hreads|].
    intros e He. simpl. destruct e; simpl in *; congruence.
  - destruct (value (enrich_products 0 (Order.Products o) o w)) as [o'|err];
      [apply IH | constructor].
Qed.

Lemma listed_enriched (o s : Order.t) : listed o s -> is_enriched o = true.
Proof.
  intros (u & pay & pcs & _ & ->). unfold is_enriched. simpl.
  rewrite forallb_attached. reflexivity.
Qed.

(** ListOrders laid out along its returns. *)
Lemma ListOrders_unfold (skip limit : Z) (w : W) :
  let r := OrderService.ListOrders (W := W) (bytes := bytes) skip limit w in
  let key := ext.GenerateListKey "orders" (ext.GenerateCacheKeyParams skip limit) in
  let c := CacheGet (bytes := bytes) key w in
  match c.1 with
  | Ok cached =>
      ext.value r = match ext.DeserializeOrders cached with
                    | Ok l => Ok l
                    | Err _ => Err ErrInternal
                    end
      /\ ext.calls r = [ext.Port (Call_CacheGet key (Ok cached))]
  | Err miss =>
      let l := ext.ListOrders skip limit c.2 in
      match l.1 with
      | Err err =>
          ext.value r = Err ErrInternal
          /\ ext.calls r = [ext.Port (Call_CacheGet key (Err miss));
                            ext.Call_ListOrders skip limit (Err err)]
      | Ok stored =>
          let a := OrderService.attach_parties (W := W) (bytes := bytes)
                     0 stored stored l.2 in
          match ext.value a with
          | Err e =>
              ext.value r = Err e
              /\ ext.calls r = ext.Port (Call_CacheGet key (Err miss))
                               :: ext.Call_ListOrders skip limit (Ok stored) :: ext.calls a
          | Ok l1 =>
              let b := OrderService.attach_products (W := W) (bytes := bytes)
                         0 l1 l1 (ext.final a) in
              match ext.value b with
              | Err e =>
                  ext.value r = Err e
                  /\ ext.calls r = ext.Port (Call_CacheGet key (Err miss))
                                   :: ext.Call_ListOrders skip limit (Ok stored)
                                   :: ext.calls a ++ ext.calls b
              | Ok l2 =>
                  match ext.SerializeOrders l2 with
                  | Err _ =>
                      ext.value r = Err ErrInternal
                      /\ ext.calls r = ext.Port (Call_CacheGet key (Err miss))
                                       :: ext.Call_ListOrders skip limit (Ok stored)
                                       :: ext.calls a ++ ext.calls b
                  | Ok serialized =>
                      let s := CacheSet key serialized 0 (ext.final b) in
                      ext.value r = (if failed s.1 then Err ErrInternal else Ok l2)
                      /\ ext.calls r = ext.Port (Call_CacheGet key (Err miss))
                                       :: ext.Call_ListOrders skip limit (Ok stored)
                                       :: ext.calls a ++ ext.calls b
                                       ++ [ext.Port (Call_CacheSet key serialized 0 s.1)]
                  end
              end
          end
      end
  end.
Proof.
  cbv zeta. unfold OrderService.ListOrders. ext_step.
  destruct (CacheGet _ w) as [[cached|miss] w1]; ext_step.
  { destruct (ext.DeserializeOrders cached) as [l|err]; ext_step; auto. }
  destruct (ext.ListOrders skip limit w1) as [[stored|err] w2]; ext_step; [|auto].
  destruct (OrderService.attach_parties 0 stored stored w2) as [[l1|e] w3 cs1];
    ext_step; [|rewrite app_nil_r; auto].
  destruct (OrderService.attach_products 0 l1 l1 w3) as [[l2|e] w4 cs2];
    ext_step; [|rewrite app_nil_r; auto].
  destruct (ext.SerializeOrders l2) as [serialized|e]; ext_step;
    [|rewrite app_nil_r; auto].
  destruct (CacheSet _ serialized 0 w4) as [[e|] w5]; ext_step; auto.
Qed.

(** X21.  ListOrders never writes to a repository: every call before
    its last one is a read, and a write it makes is a cache write; and an
    error it returns is NotFound or Internal. *)
Theorem ListOrders_reads (skip limit : Z) (w : W) :
  let r := OrderService.ListOrders (W := W) (bytes := bytes) skip limit w in
  Forall (fun c => ext.writes c = false) (removelast (ext.calls r))
  /\ Forall (fun c => ext.writes c = true -> ext.on_cache c = true) (ext.calls r)
  /\ (forall e, ext.value r = Err e -> e = ErrDataNotFound \/ e = ErrInternal).
Proof.
  cbv zeta.
  pose proof (ListOrders_unfold skip limit w) as Hu. cbv zeta in Hu.
  set (key := ext.GenerateListKey "orders" (ext.GenerateCacheKeyParams skip limit)) in *.
  assert (Hweak : forall cs : list (ext.call bytes),
             Forall (fun c => ext.writes c = false) cs ->
             Forall (fun c => ext.writes c = true -> ext.on_cache c = true) cs).
  { intros cs Hcs. eapply Forall_impl; [exact Hcs|]. intros c Hc Hw. congruence. }
  destruct ((CacheGet key w).1) as [cached|miss].
  { destruct Hu as (-> & ->). cbn [removelast]. split; [constructor|]. split; [each_call|].
    destruct (ext.DeserializeOrders cached) as [l|err]; [discriminate|].
    intros e [= <-]. auto. }
  destruct (ext.ListOrders skip limit _) as [[stored|err] w2]; cbn [fst snd] in Hu.
  2:{ destruct Hu as (-> & ->). cbn [removelast]. split; [each_call|]. split; [each_call|].
      intros e [= <-]. auto. }
  pose proof (attach_parties_calls stored 0%nat stored w2) as Hc1.
  pose proof (attach_parties_err stored 0%nat stored w2) as He1.
  destruct (OrderService.attach_parties 0 stored stored w2) as [[l1|e1] w3 cs1];
    cbn [ext.value ext.final ext.calls] in *.
  2:{ destruct Hu as (-> & ->).
      assert (Hall : Forall (fun c : ext.call bytes => ext.writes c = false)
                       (ext.Port (Call_CacheGet key (Err miss))
                        :: ext.Call_ListOrders skip limit (Ok stored) :: cs1)).
      { constructor; [reflexivity|]. constructor; [reflexivity|exact Hc1]. }
      split; [apply Forall_removelast; exact Hall|]. split; [apply Hweak; exact Hall|].
      intros e [= <-]. apply He1. reflexivity. }
  pose proof (attach_products_calls l1 0%nat l1 w3) as Hc2.
  pose proof (attach_products_err l1 0%nat l1 w3) as He2.
  destruct (OrderService.attach_products 0 l1 l1 w3) as [[l2|e2] w4 cs2];
    cbn [ext.value ext.final ext.calls] in *.
  2:{ destruct Hu as (-> & ->).
      assert (Hall : Forall (fun c : ext.call bytes => ext.writes c = false)
                       (ext.Port (Call_CacheGet key (Err miss))
                        :: ext.Call_ListOrders skip limit (Ok stored) :: cs1 ++ cs2)).
      { constructor; [reflexivity|]. constructor; [reflexivity|].
        apply Forall_app. split; assumption. }
      split; [apply Forall_removelast; exact Hall|]. split; [apply Hweak; exact Hall|].
      intros e [= <-]. apply He2. reflexivity. }
  assert (Hall : Forall (fun c : ext.call bytes => ext.writes c = false)
                   (ext.Port (Call_CacheGet key (Err miss))
                    :: ext.Call_ListOrders skip limit (Ok stored) :: cs1 ++ cs2)).
  { constructor; [reflexivity|]. constructor; [reflexivity|].
    apply Forall_app. split; assumption. }
  destruct (ext.SerializeOrders l2) as [serialized|err].
  2:{ destruct Hu as (-> & ->).
      split; [apply Forall_removelast; exact Hall|]. split; [apply Hweak; exact Hall|].
      intros e [= <-]. auto. }
  destruct Hu as (-> & ->). split; [|split].
  - rewrite !app_comm_cons, app_assoc, removelast_last. exact Hall.
  - rewrite !app_comm_cons, app_assoc. apply Forall_app. split; [apply Hweak; exact Hall|].
    each_call.
  - destruct (failed _); [|discriminate]. intros e [= <-]. auto.
Qed.

Lemma ListOrders_miss (skip limit : Z) (w : W) :
  is_ok (CacheGet (bytes := bytes)
           (ext.GenerateListKey "orders" (ext.GenerateCacheKeyParams skip limit)) w).1
  = false ->
  exists miss reply rest,
    ext.calls (OrderService.ListOrders (W := W) (bytes := bytes) skip limit w)
    = ext.Port (Call_CacheGet
                  (ext.GenerateListKey "orders" (ext.GenerateCacheKeyParams skip limit))
                  (Err miss))
      :: ext.Call_ListOrders skip limit reply :: rest.
Proof.
  intros Hmiss.
  pose proof (ListOrders_unfold skip limit w) as Hu. cbv zeta in Hu.
  destruct ((CacheGet _ w).1) as [cached|miss]; [discriminate|].
  destruct ((ext.ListOrders skip limit _).1) as [stored|err].
  2:{ destruct Hu as (_ & ->). eauto. }
  destruct (ext.value (OrderService.attach_parties 0 stored stored _)) as [l1|e].
  2:{ destruct Hu as (_ & ->). eauto. }
  destruct (ext.value (OrderService.attach_products 0 l1 l1 _)) as [l2|e].
  2:{ destruct Hu as (_ & ->). eauto. }
  destruct (ext.SerializeOrders l2) as [serialized|e].
  2:{ destruct Hu as (_ & ->). eauto. }
  destruct Hu as (_ & ->). eauto.
Qed.

Lemma orders_key_inside (skip limit : Z) :
  String.prefix (mem.glob_prefix "orders:*")
                (ext.GenerateListKey "orders" (ext.GenerateCacheKeyParams skip limit))
  = true.
Proof. unfold ext.GenerateListKey. simpl. apply prefix_empty. Qed.

Lemma order_key_is_no_page (id skip limit : Z) :
  GenerateCacheKey "order" id
  <> ext.GenerateListKey "orders" (ext.GenerateCacheKeyParams skip limit).
Proof. unfold GenerateCacheKey, ext.GenerateListKey. simpl. intros [=]. Qed.

(** The world a successful CreateOrder ends in: the one left by the
    deletion of the list pages followed by the cache write. *)
Lemma after_persist_world (reply created : Order.t) (w : W) :
  value (after_persist (W := W) (bytes := bytes) reply w) = Ok created ->
  exists (serialized : bytes) (w3 : W),
    (CacheDeleteByPrefix (bytes := bytes) "orders:*" w3).1 = None
    /\ final (after_persist (W := W) (bytes := bytes) reply w)
       = (CacheSet (GenerateCacheKey "order" (Order.ID created)) serialized 0
            (CacheDeleteByPrefix (bytes := bytes) "orders:*" w3).2).2.
Proof.
  unfold after_persist, bind.
  destruct (enrich (bytes := bytes) reply w) as [[enriched|err] w3 cs];
    cbn [value final calls]; [|discriminate].
  unfold publish, bind, invoke. simpl.
  destruct (CacheDeleteByPrefix "orders:*" w3) as [[err|] w4] eqn:Hdel; simpl;
    [discriminate|].
  destruct (SerializeOrder enriched) as [serialized|err]; simpl; [|discriminate].
  destruct (CacheSet (GenerateCacheKey "order" (Order.ID enriched)) serialized 0 w4)
    as [[err|] w5] eqn:Hset; simpl; [discriminate|].
  intros [= <-]. exists serialized, w3. rewrite Hdel. simpl. rewrite Hset. auto.
Qed.

Lemma CreateOrder_final (order created : Order.t) (w : W) :
  (value (CreateOrder (W := W) (bytes := bytes) order w)).2 = Ok created ->
  exists reply w1,
    value (after_persist (W := W) (bytes := bytes) reply w1) = Ok created
    /\ final (CreateOrder (W := W) (bytes := bytes) order w)
       = final (after_persist (W := W) (bytes := bytes) reply w1).
Proof.
  intros Hok.
  pose proof (CreateOrder_unfold order w) as Hu. cbv zeta in Hu.
  remember (CreateOrder (W := W) (bytes := bytes) order w) as r eqn:Hr.
  destruct ((value (validate 0 (Order.Products order) order 0 w)).2) as [total|e].
  2:{ destruct Hu as (Hval & _). rewrite Hval in Hok. discriminate. }
  destruct (PrimFloat.ltb _ total).
  { destruct Hu as (Hval & _). rewrite Hval in Hok. discriminate. }
  destruct (port.CreateOrder _ _) as [[reply|err] w1]; cbn [fst snd] in Hu.
  2:{ destruct Hu as (Hval & _). rewrite Hval in Hok. discriminate. }
  destruct Hu as (Hval & _ & Hf). rewrite Hval in Hok. eauto.
Qed.

(** X22.  No stale page after create.  With a cache whose deletion by
    pattern removes the keys inside the pattern and whose Set leaves the
    other keys alone: in the world a successful CreateOrder ends in,
    every ListOrders, whatever the page, misses the cache and reads the
    page from the repository. *)
Theorem ListOrders_after_CreateOrder (order created : Order.t) (skip limit : Z) (w : W) :
  cache_prefix_removes (W := W) (bytes := bytes) ->
  cache_set_keeps (W := W) (bytes := bytes) ->
  (value (CreateOrder (W := W) (bytes := bytes) order w)).2 = Ok created ->
  exists miss reply rest,
    ext.calls (OrderService.ListOrders (W := W) (bytes := bytes) skip limit
                 (final (CreateOrder (W := W) (bytes := bytes) order w)))
    = ext.Port (Call_CacheGet
                  (ext.GenerateListKey "orders" (ext.GenerateCacheKeyParams skip limit))
                  (Err miss))
      :: ext.Call_ListOrders skip limit reply :: rest.
Proof.
  intros Hremoves Hkeeps Hok.
  destruct (CreateOrder_final order created w Hok) as (reply & w1 & Htail & ->).
  destruct (after_persist_world reply created w1 Htail) as (serialized & w3 & Hdel & ->).
  apply ListOrders_miss.
  rewrite Hkeeps by apply order_key_is_no_page.
  apply Hremoves; [apply orders_key_inside | exact Hdel].
Qed.

End Listing.

(** ** The in-memory cache keeps the remaining contracts *)

Lemma memx_cache_set_keeps : cache_set_keeps (W := memx.store) (bytes := memx.blob).
Proof.
  intros k k' v ttl w Hne. simpl. destruct (memx.cache_up w) eqn:Hup; simpl; rewrite Hup;
    [|reflexivity].
  rewrite lookup_insert_ne by exact Hne. reflexivity.
Qed.

Lemma memx_cache_prefix_keeps : cache_prefix_keeps (W := memx.store) (bytes := memx.blob).
Proof.
  intros pattern k w Hout. simpl. destruct (memx.cache_up w) eqn:Hup; simpl; rewrite Hup;
    [|reflexivity].
  rewrite map_lookup_filter. destruct (memx.cache w !! k) as [b|]; simpl; [|reflexivity].
  rewrite option_guard_True by exact Hout. reflexivity.
Qed.

Lemma memx_cache_prefix_removes :
  cache_prefix_removes (W := memx.store) (bytes := memx.blob).
Proof.
  intros pattern k w Hin. simpl. destruct (memx.cache_up w) eqn:Hup; simpl; [|discriminate].
  intros _. rewrite Hup. rewrite map_lookup_filter.
  destruct (memx.cache w !! k) as [b|]; simpl; [|reflexivity].
  rewrite option_guard_False by (simpl; congruence). reflexivity.
Qed.

Lemma memx_cache_delete_removes :
  cache_delete_removes (W := memx.store) (bytes := memx.blob).
Proof.
  intros k w. simpl. destruct (memx.cache_up w) eqn:Hup; simpl; [|discriminate].
  intros _. rewrite Hup, lookup_delete_eq. reflexivity.
Qed.

Lemma memx_delete_keeps_cache : delete_keeps_cache (W := memx.store) (bytes := memx.blob).
Proof.
  intros id k w. simpl. unfold memx.deleting. destruct (memx.read_only w); reflexivity.
Qed.

Lemma memx_category_round_trip : category_round_trip (bytes := memx.blob).
Proof. intros c b [= <-]. reflexivity. Qed.

(** ** Runs of the category service and of ListOrders in the second shop *)

Lemma CreateCategory_trace_witness :
  let r := CategoryService.CreateCategory (bytes := memx.blob) shopx.juices shopx.w0 in
  (ext.CreateCategory shopx.juices shopx.w0).1 = Ok shopx.created_juices
  /\ exists serialized : memx.blob,
      SerializeCategory shopx.created_juices = Ok serialized
      /\ ext.calls r
         = [ext.Call_CreateCategory shopx.juices (Ok shopx.created_juices);
            ext.Port (Call_CacheSet
                        (GenerateCacheKey "category" (Category.ID shopx.created_juices))
                        serialized 0 None);
            ext.Port (Call_CacheDeleteByPrefix "categories:*" None)].
Proof.
  apply (CreateCategory_trace (bytes := memx.blob) shopx.juices shopx.created_juices
                              shopx.w0).
  vm_compute. reflexivity.
Defined.

Lemma CreateCategory_errors_witness :
  let r := CategoryService.CreateCategory (bytes := memx.blob) shop.drinks shopx.w0 in
  (ErrConflictingData = ErrConflictingData
   /\ ext.calls r = [ext.Call_CreateCategory shop.drinks (Err ErrConflictingData)])
  \/ (ErrConflictingData = ErrInternal
      /\ exists reply rest, ext.calls r = ext.Call_CreateCategory shop.drinks reply :: rest
                            /\ Forall (fun c => ext.on_cache c = true) rest
                            /\ reply <> Err ErrConflictingData).
Proof.
  apply (CreateCategory_errors (bytes := memx.blob) shop.drinks shopx.w0 ErrConflictingData).
  vm_compute. reflexivity.
Defined.

Lemma GetCategory_after_CreateCategory_witness :
  let g := CategoryService.GetCategory (bytes := memx.blob)
             (Category.ID shopx.created_juices)
             (ext.final (CategoryService.CreateCategory (bytes := memx.blob)
                                                        shopx.juices shopx.w0)) in
  ext.value g = Ok shopx.created_juices
  /\ exists serialized,
      ext.calls g = [ext.Port (Call_CacheGet
                                 (GenerateCacheKey "category"
                                                   (Category.ID shopx.created_juices))
                                 (Ok serialized))].
Proof.
  apply (GetCategory_after_CreateCategory (bytes := memx.blob) shopx.juices
           shopx.created_juices shopx.w0).
  - exact memx_cache_set_get.
  - exact memx_cache_prefix_keeps.
  - exact memx_category_round_trip.
  - vm_compute. reflexivity.
Defined.

Lemma UpdateCategory_trace_witness :
  let r := service.UpdateCategory (bytes := memx.blob) shopx.hot_drinks shopx.w0 in
  shopx.hot_drinks = shopx.hot_drinks
  /\ exists (existing reply : Category.t) (serialized : memx.blob),
      Category.Name shopx.hot_drinks <> ""%string
      /\ Category.Name existing <> Category.Name shopx.hot_drinks
      /\ SerializeCategory shopx.hot_drinks = Ok serialized
      /\ calls r
         = [Call_GetCategoryByID (Category.ID shopx.hot_drinks) (Ok existing);
            Call_UpdateCategory shopx.hot_drinks (Ok reply);
            Call_CacheDelete (GenerateCacheKey "category" (Category.ID shopx.hot_drinks))
                             None;
            Call_CacheSet (GenerateCacheKey "category" (Category.ID shopx.hot_drinks))
                          serialized 0 None;
            Call_CacheDeleteByPrefix "categories:*" None].
Proof.
  apply (UpdateCategory_trace (bytes := memx.blob) shopx.hot_drinks shopx.hot_drinks
                              shopx.w0).
  vm_compute. reflexivity.
Defined.

Lemma GetCategory_after_UpdateCategory_witness :
  let g := CategoryService.GetCategory (bytes := memx.blob) (Category.ID shopx.hot_drinks)
             (final (service.UpdateCategory (bytes := memx.blob)
                                            shopx.hot_drinks shopx.w0)) in
  ext.value g = Ok shopx.hot_drinks
  /\ exists serialized,
      ext.calls g = [ext.Port (Call_CacheGet
                                 (GenerateCacheKey "category"
                                                   (Category.ID shopx.hot_drinks))
                                 (Ok serialized))].
Proof.
  apply (GetCategory_after_UpdateCategory (bytes := memx.blob) shopx.hot_drinks
           shopx.hot_drinks shopx.w0).
  - exact memx_cache_set_get.
  - exact memx_cache_prefix_keeps.
  - exact memx_category_round_trip.
  - vm_compute. reflexivity.
Defined.

Lemma GetCategory_after_DeleteCategory_witness :
  exists miss reply rest,
    ext.calls (CategoryService.GetCategory (bytes := memx.blob) 2
                 (ext.final (CategoryService.DeleteCategory (bytes := memx.blob)
                                                            2 shopx.w0)))
    = ext.Port (Call_CacheGet (GenerateCacheKey "category" 2) (Err miss))
      :: ext.Port (Call_GetCategoryByID 2 reply) :: rest.
Proof.
  apply (GetCategory_after_DeleteCategory (bytes := memx.blob) 2 shopx.w0).
  - exact memx_cache_delete_removes.
  - exact memx_cache_prefix_keeps.
  - exact memx_delete_keeps_cache.
  - vm_compute. reflexivity.
Defined.

Lemma ListCategories_after_write_witness :
  exists miss reply rest,
    ext.calls (CategoryService.ListCategories (bytes := memx.blob) 1 10
                 (ext.final (CategoryService.CreateCategory (bytes := memx.blob)
                                                            shopx.juices shopx.w0)))
    = ext.Port (Call_CacheGet
                  (ext.GenerateListKey "categories" (ext.GenerateCacheKeyParams 1 10))
                  (Err miss))
      :: ext.Call_ListCategories 1 10 reply :: rest.
Proof.
  apply (ListCategories_after_write (bytes := memx.blob) 1 10
           (ext.final (CategoryService.CreateCategory (bytes := memx.blob)
                                                      shopx.juices shopx.w0))).
  - exact memx_cache_prefix_removes.
  - exact memx_delete_keeps_cache.
  - left. exists shopx.juices, shopx.created_juices, shopx.w0.
    split; vm_compute; reflexivity.
Defined.

Lemma ListOrders_after_CreateOrder_witness :
  exists miss reply rest,
    ext.calls (OrderService.ListOrders (bytes := memx.blob) 1 10
                 (final (service.CreateOrder (bytes := memx.blob) shop.o_change shopx.w0)))
    = ext.Port (Call_CacheGet
                  (ext.GenerateListKey "orders" (ext.GenerateCacheKeyParams 1 10))
                  (Err miss))
      :: ext.Call_ListOrders 1 10 reply :: rest.
Proof.
  apply (ListOrders_after_CreateOrder (bytes := memx.blob) shop.o_change
           shopx.created_change 1 10 shopx.w0).
  - exact memx_cache_prefix_removes.
  - exact memx_cache_set_keeps.
  - vm_compute. reflexivity.
Defined.

(** ** Pages of payments *)

(** X23.  The pages of ListPayments tile the table: for a positive
    limit, as long as n * limit stays below 2^64, pages 1 to n laid end
    to end are the first n * limit rows of the table, in order, with no
    row repeated or left out. *)
Theorem ListPayments_pages_tile (table : list Payment.t) (limit : Z) (n : nat) :
  0 < limit -> Z.of_nat n * limit < 2 ^ 64 ->
  concat (map (fun k => repository.ListPayments table (Z.of_nat k) limit) (seq 1 n))
  = take (n * Z.to_nat limit) table.
Proof.
  intros Hlimit. induction n as [|n IH]; intros Hfit; [reflexivity|].
  rewrite seq_S, map_app, concat_app, IH by nia. simpl.
  rewrite app_nil_r.
  unfold repository.ListPayments, repository.window, repository.ListPayments_offset,
    u64_mul, u64_sub, u64.
  replace (Z.of_nat (S n) - 1) with (Z.of_nat n) by lia.
  rewrite (Z.mod_small (Z.of_nat n)) by nia.
  rewrite Z.mod_small by nia.
  replace (Z.to_nat (Z.of_nat n * limit)) with (n * Z.to_nat limit)%nat by nia.
  rewrite take_take_drop. f_equal. lia.
Qed.

Lemma ListPayments_pages_tile_witness :
  concat (map (fun k => repository.ListPayments shop.payments_table (Z.of_nat k) 2)
              (seq 1 2))
  = take (2 * Z.to_nat 2) shop.payments_table.
Proof.
  apply (ListPayments_pages_tile shop.payments_table 2 2); lia.
Defined.

(** X24.  Page numbers alias.  Two page numbers whose difference times
    the limit is a multiple of 2^64 select the same rows: the offset is
    computed in uint64, so a large page number can return an early page
    again instead of nothing. *)
Theorem ListPayments_pages_alias (table : list Payment.t) (skip skip' limit : Z) :
  ((skip - skip') * limit) mod 2 ^ 64 = 0 ->
  repository.ListPayments table skip limit = repository.ListPayments table skip' limit.
Proof.
  intros Hmul.
  unfold repository.ListPayments, repository.ListPayments_offset, u64_mul, u64_sub, u64.
  f_equal.
  rewrite !Z.mul_mod_idemp_l by lia.
  replace ((skip - 1) * limit) with ((skip' - 1) * limit + (skip - skip') * limit) by ring.
  rewrite <- Z.add_mod_idemp_r, Hmul, Z.add_0_r by lia. reflexivity.
Qed.

Lemma ListPayments_pages_alias_witness :
  repository.ListPayments shop.payments_table (2 ^ 63 + 1) 2
  = repository.ListPayments shop.payments_table 1 2.
Proof.
  apply (ListPayments_pages_alias shop.payments_table (2 ^ 63 + 1) 1 2).
  reflexivity.
Defined.

(** ** Cached orders across a category update *)

Section Stale.
Context {W bytes : Type}.
Context `{!ProductRepository W, !OrderRepository W, !CategoryRepository W,
          !UserRepository W, !PaymentRepository W,
          !CacheRepository W bytes, !Codec bytes}.
Import service.

Lemma order_key_is_no_category (id id' : Z) :
  GenerateCacheKey "category" id' <> GenerateCacheKey "order" id.
Proof. unfold GenerateCacheKey. simpl. intros [=]. Qed.

Lemma order_key_outside_categories (id : Z) :
  String.prefix (mem.glob_prefix "categories:*") (GenerateCacheKey "order" id) = false.
Proof. reflexivity. Qed.

(** UpdateCategory leaves every cache entry other than the category's
    own and the category pages as it was. *)
Lemma UpdateCategory_keeps_key (category : Category.t) (k : string) (w : W) :
  category_repo_keeps_cache (W := W) (bytes := bytes) ->
  cache_delete_keeps (W := W) (bytes := bytes) ->
  cache_set_keeps (W := W) (bytes := bytes) ->
  cache_prefix_keeps (W := W) (bytes := bytes) ->
  GenerateCacheKey "category" (Category.ID category) <> k ->
  String.prefix (mem.glob_prefix "categories:*") k = false ->
  (CacheGet (bytes := bytes) k
            (final (UpdateCategory (W := W) (bytes := bytes) category w))).1
  = (CacheGet (bytes := bytes) k w).1.
Proof.
  intros Hrepo Hdelete Hset Hprefix Hkey Hout.
  destruct (Hrepo k) as [Hread Hwrite].
  specialize (Hread (Category.ID category) w). specialize (Hwrite category).
  unfold keeps in Hread, Hwrite.
  unfold UpdateCategory. svc_step.
  destruct (GetCategoryByID (Category.ID category) w) as [[existing|err] w1];
    cbn [fst snd] in Hread; svc_step; [|exact Hread].
  destruct (bool_decide (Category.Name category = ""%string)
            || bool_decide (Category.Name existing = Category.Name category)); svc_step;
    [exact Hread|].
  specialize (Hwrite w1).
  destruct (port.UpdateCategory category w1) as [[reply|err] w2];
    cbn [fst snd] in Hwrite; svc_step; [|congruence].
  pose proof (Hdelete _ _ w2 Hkey) as Hd.
  destruct (CacheDelete (GenerateCacheKey "category" (Category.ID category)) w2)
    as [[err|] w3]; cbn [fst snd] in Hd; svc_step; [congruence|].
  destruct (SerializeCategory category) as [serialized|err]; svc_step; [|congruence].
  pose proof (Hset _ _ serialized 0 w3 Hkey) as Hs.
  destruct (CacheSet (GenerateCacheKey "category" (Category.ID category)) serialized 0 w3)
    as [[err|] w4]; cbn [fst snd] in Hs; svc_step; [congruence|].
  pose proof (Hprefix "categories:*"%string k w4 Hout) as Hp.
  destruct (CacheDeleteByPrefix "categories:*" w4) as [[err|] w5];
    cbn [fst snd] in Hp; svc_step; congruence.
Qed.

(** X25.  UpdateCategory never invalidates cached orders.  With a cache
    whose Delete and Set leave the other keys alone and whose deletion
    by pattern leaves the keys outside the pattern alone, and a category
    repository that does not write to the cache: an order that is in the
    cache before an UpdateCategory is read back by GetOrder after it,
    whether the update succeeded or not, exactly as before it, so with
    the category names it was cached with. *)
Theorem UpdateCategory_keeps_cached_orders
        (category : Category.t) (id : Z) (cached : bytes) (w : W) :
  category_repo_keeps_cache (W := W) (bytes := bytes) ->
  cache_delete_keeps (W := W) (bytes := bytes) ->
  cache_set_keeps (W := W) (bytes := bytes) ->
  cache_prefix_keeps (W := W) (bytes := bytes) ->
  (CacheGet (bytes := bytes) (GenerateCacheKey "order" id) w).1 = Ok cached ->
  let g := GetOrder (W := W) (bytes := bytes) id
             (final (UpdateCategory (W := W) (bytes := bytes) category w)) in
  value g = value (GetOrder (W := W) (bytes := bytes) id w)
  /\ calls g = [Call_CacheGet (GenerateCacheKey "order" id) (Ok cached)].
Proof.
  intros Hrepo Hdelete Hset Hprefix Hhit. cbv zeta.
  pose proof (UpdateCategory_keeps_key category (GenerateCacheKey "order" id) w
                Hrepo Hdelete Hset Hprefix (order_key_is_no_category id _)
                (order_key_outside_categories id)) as Hsame.
  rewrite Hhit in Hsame.
  pose proof (GetOrder_unfold id w) as Hbefore. cbv zeta in Hbefore.
  rewrite Hhit in Hbefore. destruct Hbefore as (Hv & _).
  pose proof (GetOrder_unfold id (final (UpdateCategory (W := W) (bytes := bytes)
                                                         category w))) as Hafter.
  cbv zeta in Hafter. rewrite Hsame in Hafter. destruct Hafter as (Hv' & Hc' & _).
  rewrite Hv, Hv', Hc'. auto.
Qed.

End Stale.

Lemma memx_cache_delete_keeps : cache_delete_keeps (W := memx.store) (bytes := memx.blob).
Proof.
  intros k k' w Hne. simpl. destruct (memx.cache_up w) eqn:Hup; simpl; rewrite Hup;
    [|reflexivity].
  rewrite lookup_delete_ne by exact Hne. reflexivity.
Qed.

Lemma memx_category_repo_keeps_cache :
  category_repo_keeps_cache (W := memx.store) (bytes := memx.blob).
Proof.
  intros k. split.
  - intros id w. reflexivity.
  - intros c w. simpl. unfold memx.writing. destruct (memx.read_only w); [reflexivity|].
    destruct (memx.name_taken _ _ _); [reflexivity|].
    unfold memx.on_tables. simpl.
    destruct (mem.categories (memx.tables w) !! Category.ID c); reflexivity.
Qed.

Lemma UpdateCategory_keeps_cached_orders_witness :
  let g := service.GetOrder (bytes := memx.blob) 1
             (final (service.UpdateCategory (bytes := memx.blob)
                                            shopx.hot_drinks shopx.w_read)) in
  value g = value (service.GetOrder (bytes := memx.blob) 1 shopx.w_read)
  /\ calls g = [Call_CacheGet (GenerateCacheKey "order" 1) (Ok (memx.BOrder shopx.first_order))].
Proof.
  apply (UpdateCategory_keeps_cached_orders (bytes := memx.blob) shopx.hot_drinks 1
           (memx.BOrder shopx.first_order) shopx.w_read).
  - exact memx_category_repo_keeps_cache.
  - exact memx_cache_delete_keeps.
  - exact memx_cache_set_keeps.
  - exact memx_cache_prefix_keeps.
  - vm_compute. reflexivity.
Defined.

(** The update of the witness does rename the category in the
    repository, while the order read back still names it as before. *)
Example scenario_stale_category :
  let w := final (service.UpdateCategory (bytes := memx.blob) shopx.hot_drinks
                                         shopx.w_read) in
  (GetCategoryByID 1 w).1 = Ok shopx.hot_drinks
  /\ value (service.GetOrder (bytes := memx.blob) 1 w) = Ok shopx.first_order
  /\ Order.Products shopx.first_order
     = [attached (OrderProduct.Build 1 1 10%float None) (shop.tea, shop.drinks)].
Proof. vm_compute. auto. Qed.

(** ** What ListOrders returns on a miss *)

Section ListingTrace.
Context {W bytes : Type}.
Context `{!ProductRepository W, !OrderRepository W, !ext.OrderRepositoryRest W,
          !CategoryRepository W, !UserRepository W, !PaymentRepository W,
          !CacheRepository W bytes, !Codec bytes, !ext.CodecRest bytes}.
Import service.

(** The first loop, exactly, when it succeeds. *)
Lemma attach_parties_trace (items : list Order.t) :
  forall (pre orders res : list Order.t) (w : W),
    orders = pre ++ items ->
    ext.value (OrderService.attach_parties (W := W) (bytes := bytes)
                 (length pre) items orders w) = Ok res ->
    exists ups : list (User.t * Payment.t),
      length ups = length items
      /\ res = pre ++ zip_with (fun s up => Order.set_Payment (Some up.2)
                                              (Order.set_User (Some up.1) s)) items ups
      /\ ext.calls (OrderService.attach_parties (W := W) (bytes := bytes)
                      (length pre) items orders w)
         = party_calls items ups.
Proof.
  induction items as [|o rest IH]; intros pre orders res w Horders; simpl.
  - intros [= <-]. exists []. split; [reflexivity|]. split; [exact Horders|reflexivity].
  - ext_step.
    destruct (GetUserByID (Order.UserID o) w) as [[u|err] w1]; ext_step; [|discriminate].
    destruct (GetPaymentByID (Order.PaymentID o) w1) as [[pay|err] w2]; ext_step;
      [|discriminate].
    rewrite Horders, alter_middle, alter_middle.
    intros Hval.
    destruct (IH (pre ++ [Order.set_Payment (Some pay) (Order.set_User (Some u) o)])
                 (pre ++ Order.set_Payment (Some pay) (Order.set_User (Some u) o) :: rest)
                 res w2) as (ups & Hlen & Hres & Hcalls).
    { rewrite <- app_assoc. reflexivity. }
    { rewrite length_app. simpl. rewrite Nat.add_1_r. exact Hval. }
    exists ((u, pay) :: ups). simpl.
    split; [lia|]. split; [rewrite Hres, <- app_assoc; reflexivity|].
    rewrite length_app in Hcalls. simpl in Hcalls. rewrite Nat.add_1_r in Hcalls.
    rewrite Hcalls. reflexivity.
Qed.

(** The second loop, exactly, when it succeeds. *)
Lemma attach_products_trace (items : list Order.t) :
  forall (pre orders res : list Order.t) (w : W),
    orders = pre ++ items ->
    ext.value (OrderService.attach_products (W := W) (bytes := bytes)
                 (length pre) items orders w) = Ok res ->
    exists pcss : list (list (Product.t * Category.t)),
      Forall2 (fun s pcs => length pcs = length (Order.Products s)) items pcss
      /\ res = pre ++ zip_with (fun s pcs =>
                                  Order.set_Products
                                    (zip_with attached (Order.Products s) pcs) s)
                               items pcss
      /\ ext.calls (OrderService.attach_products (W := W) (bytes := bytes)
                      (length pre) items orders w)
         = product_calls items pcss.
Proof.
  induction items as [|o rest IH]; intros pre orders res w Horders; simpl.
  - intros [= <-]. exists []. split; [constructor|]. split; [exact Horders|reflexivity].
  - unfold ext.outer_value, ext.outer_final, ext.outer_calls.
    pose proof (enrich_products_trace (bytes := bytes) (Order.Products o) [] o) as Htrace.
    simpl in Htrace.
    destruct (value (enrich_products 0 (Order.Products o) o w)) as [o'|err] eqn:Hen;
      [|discriminate].
    destruct (Htrace o' w eq_refl Hen) as (pcs & Hlen & Ho & Hcs).
    rewrite Horders, insert_middle.
    intros Hval.
    destruct (IH (pre ++ [o']) (pre ++ o' :: rest) res
                 (final (enrich_products (bytes := bytes) 0 (Order.Products o) o w)))
      as (pcss & Hall & Hres & Hcalls).
    { rewrite <- app_assoc. reflexivity. }
    { rewrite length_app. simpl. rewrite Nat.add_1_r. exact Hval. }
    exists (pcs :: pcss). simpl.
    split; [constructor; [exact Hlen | exact Hall]|].
    split; [rewrite Hres, <- app_assoc, Ho; reflexivity|].
    rewrite length_app in Hcalls. simpl in Hcalls. rewrite Nat.add_1_r in Hcalls.
    rewrite Hcalls, Hcs. reflexivity.
Qed.

Lemma product_calls_parties (stored : list Order.t) :
  forall (ups : list (User.t * Payment.t)) (pcss : list (list (Product.t * Category.t))),
    length ups = length stored ->
    product_calls (bytes := bytes)
      (zip_with (fun s up => Order.set_Payment (Some up.2) (Order.set_User (Some up.1) s))
                stored ups) pcss
    = product_calls stored pcss.
Proof.
  unfold product_calls.
  induction stored as [|s stored IH]; intros [|up ups] pcss; simpl; try discriminate;
    [reflexivity|].
  intros [= Hlen]. destruct pcss as [|pcs pcss]; simpl; [reflexivity|].
  rewrite (IH ups pcss Hlen). reflexivity.
Qed.

Lemma listing_zip (stored : list Order.t) :
  forall (ups : list (User.t * Payment.t)) (pcss : list (list (Product.t * Category.t))),
    zip_with (fun s pcs => Order.set_Products (zip_with attached (Order.Products s) pcs) s)
             (zip_with (fun s up => Order.set_Payment (Some up.2)
                                      (Order.set_User (Some up.1) s)) stored ups)
             pcss
    = zip_with listing stored (zip ups pcss).
Proof.
  induction stored as [|s stored IH]; intros [|up ups] [|pcs pcss]; simpl;
    try reflexivity.
  rewrite IH. reflexivity.
Qed.

Lemma listing_listed (stored : list Order.t) :
  forall (ups : list (User.t * Payment.t)) (pcss : list (list (Product.t * Category.t))),
    length ups = length stored ->
    Forall2 (fun s pcs => length pcs = length (Order.Products s)) stored pcss ->
    Forall2 listed (zip_with listing stored (zip ups pcss)) stored.
Proof.
  induction stored as [|s stored IH]; intros [|up ups] pcss; simpl; try discriminate;
    intros Hlen Hall; inversion Hall as [|? pcs ? pcss' Hpcs Hrest]; subst; simpl;
    constructor.
  - exists up.1, up.2, pcs. split; [exact Hpcs|reflexivity].
  - apply IH; [lia | exact Hrest].
Qed.

(** X20.  A ListOrders that misses the cache and succeeds has made,
    exactly and in order: the cache Get, the repository's page read, for
    each order of the page the read of its user and of its payment
    method, then for each order and each of its lines the read of the
    product and of the product's category, and the cache Set of the
    serialized result with TTL 0 under the page's key.  It returns the
    page the repository gave, order for order and in the same order (so
    of the same length), each order with exactly what its reads
    returned attached: its user, its payment method and, on every line,
    the product carrying its category. *)
Theorem ListOrders_enriched (skip limit : Z) (w : W) (miss : error) (l : list Order.t) :
  let key := ext.GenerateListKey "orders" (ext.GenerateCacheKeyParams skip limit) in
  (CacheGet (bytes := bytes) key w).1 = Err miss ->
  ext.value (OrderService.ListOrders (W := W) (bytes := bytes) skip limit w) = Ok l ->
  exists (stored : list Order.t) (ups : list (User.t * Payment.t))
         (pcss : list (list (Product.t * Category.t))) (serialized : bytes),
    (ext.ListOrders skip limit (CacheGet (bytes := bytes) key w).2).1 = Ok stored
    /\ length ups = length stored
    /\ Forall2 (fun s pcs => length pcs = length (Order.Products s)) stored pcss
    /\ l = zip_with listing stored (zip ups pcss)
    /\ ext.SerializeOrders l = Ok serialized
    /\ ext.calls (OrderService.ListOrders (W := W) (bytes := bytes) skip limit w)
       = ext.Port (Call_CacheGet key (Err miss))
         :: ext.Call_ListOrders skip limit (Ok stored)
         :: party_calls stored ups ++ product_calls stored pcss
         ++ [ext.Port (Call_CacheSet key serialized 0 None)]
    /\ length l = length stored
    /\ Forall2 listed l stored
    /\ Forall (fun o => is_enriched o = true) l.
Proof.
  cbv zeta. intros Hmiss Hok.
  pose proof (ListOrders_unfold (bytes := bytes) skip limit w) as Hu. cbv zeta in Hu.
  rewrite Hmiss in Hu.
  destruct ((ext.ListOrders skip limit _).1) as [stored|err].
  2:{ destruct Hu as (Hv & _). rewrite Hv in Hok. discriminate. }
  pose proof (attach_parties_trace stored [] stored) as Hparties. simpl in Hparties.
  destruct (ext.value (OrderService.attach_parties 0 stored stored _)) as [l1|e] eqn:Ha.
  2:{ destruct Hu as (Hv & _). rewrite Hv in Hok. discriminate. }
  destruct (Hparties l1 _ eq_refl Ha) as (ups & Hups & -> & Hc1).
  pose proof (attach_products_trace
                (zip_with (fun s up => Order.set_Payment (Some up.2)
                                         (Order.set_User (Some up.1) s)) stored ups) [])
    as Hproducts.
  simpl in Hproducts.
  destruct (ext.value (OrderService.attach_products 0 _ _ _)) as [l2|e] eqn:Hb.
  2:{ destruct Hu as (Hv & _). rewrite Hv in Hok. discriminate. }
  destruct (Hproducts _ l2 _ eq_refl Hb) as (pcss & Hall & -> & Hc2).
  rewrite listing_zip in Hu.
  destruct (ext.SerializeOrders _) as [serialized|e] eqn:Hser.
  2:{ destruct Hu as (Hv & _). rewrite Hv in Hok. discriminate. }
  destruct Hu as (Hv & Hc). rewrite Hv in Hok.
  destruct ((CacheSet _ serialized 0 _).1) as [e|]; cbn [failed] in Hok, Hc;
    [discriminate|].
  injection Hok as <-.
  assert (Hshape : Forall2 (fun s pcs => length pcs = length (Order.Products s))
                           stored pcss).
  { clear -Hall Hups. revert ups pcss Hups Hall.
    induction stored as [|s stored IH]; intros [|up ups] pcss; simpl; try discriminate;
      intros Hlen Hall; inversion Hall as [|? pcs ? pcss' Hpcs Hrest]; subst;
      constructor; [exact Hpcs|].
    eapply IH; [|exact Hrest]. lia. }
  pose proof (listing_listed stored ups pcss Hups Hshape) as Hlisted.
  exists stored, ups, pcss, serialized.
  split; [reflexivity|]. split; [exact Hups|]. split; [exact Hshape|].
  split; [reflexivity|]. split; [exact Hser|]. split.
  { rewrite Hc, Hc1, Hc2, product_calls_parties by exact Hups. reflexivity. }
  split; [eapply Forall2_length; exact Hlisted|]. split; [exact Hlisted|].
  clear -Hlisted. induction Hlisted as [|o s l2 l0 Hos _ IH]; constructor; [|exact IH].
  eapply listed_enriched. exact Hos.
Qed.

End ListingTrace.

Lemma ListOrders_enriched_witness :
  let key := ext.GenerateListKey "orders" (ext.GenerateCacheKeyParams 1 10) in
  let r := OrderService.ListOrders (bytes := memx.blob) 1 10 shopx.w0 in
  let stored := [shopx.filed 1 1 10; shopx.filed 2 2 20] in
  let ups := [(shop.alice, shop.cash); (shop.alice, shop.cash)] in
  let pcss := [[(shop.tea, shop.drinks)]; [(shop.tea, shop.drinks)]] in
  ((CacheGet (bytes := memx.blob) key shopx.w0).1 = Err shopx.miss
   /\ ext.value r = Ok shopx.first_page
   /\ shopx.first_page = zip_with listing stored (zip ups pcss)
   /\ ext.calls r
      = ext.Port (Call_CacheGet key (Err shopx.miss))
        :: ext.Call_ListOrders 1 10 (Ok stored)
        :: party_calls stored ups ++ product_calls stored pcss
        ++ [ext.Port (Call_CacheSet key (memx.BOrders shopx.first_page) 0 None)])
  /\ exists (stored : list Order.t) (ups : list (User.t * Payment.t))
            (pcss : list (list (Product.t * Category.t))) (serialized : memx.blob),
      (ext.ListOrders 1 10 (CacheGet (bytes := memx.blob) key shopx.w0).2).1 = Ok stored
      /\ length ups = length stored
      /\ Forall2 (fun s pcs => length pcs = length (Order.Products s)) stored pcss
      /\ shopx.first_page = zip_with listing stored (zip ups pcss)
      /\ ext.SerializeOrders shopx.first_page = Ok serialized
      /\ ext.calls r
         = ext.Port (Call_CacheGet key (Err shopx.miss))
           :: ext.Call_ListOrders 1 10 (Ok stored)
           :: party_calls stored ups ++ product_calls stored pcss
           ++ [ext.Port (Call_CacheSet key serialized 0 None)]
      /\ length shopx.first_page = length stored
      /\ Forall2 listed shopx.first_page stored
      /\ Forall (fun o => is_enriched o = true) shopx.first_page.
Proof.
  cbv zeta.
  assert (Hmiss : (CacheGet (bytes := memx.blob)
                     (ext.GenerateListKey "orders" (ext.GenerateCacheKeyParams 1 10))
                     shopx.w0).1 = Err shopx.miss) by (vm_compute; reflexivity).
  assert (Hok : ext.value (OrderService.ListOrders (bytes := memx.blob) 1 10 shopx.w0)
                = Ok shopx.first_page) by (vm_compute; reflexivity).
  split; [split; [exact Hmiss|split; [exact Hok|split; vm_compute; reflexivity]]|].
  exact (ListOrders_enriched (bytes := memx.blob) 1 10 shopx.w0 shopx.miss
                             shopx.first_page Hmiss Hok).
Defined.
